(** * Barve Guruji AI: the request pipeline of app.js

    A shallow embedding of the client-side pipeline (time grounding,
    prompt composition, the generation client, and the orchestrator
    [callGuruji] with its retry token), followed by the properties of
    the design document, each settled against the embedding. *)

From Stdlib Require Import String Ascii DecimalString DecimalPos.
From Stdlib Require Import List ZArith NArith Bool Lia.
Import ListNotations.

Set Warnings "-register-all".

(** ** JavaScript strings

    A JavaScript string is a sequence of UTF-16 code units; the regular
    expressions of [looksEnglish] carry no [u] flag and so count code
    units. *)

Module JS.

Definition jsstring := list N.

Definition js (s : string) : jsstring :=
  map N_of_ascii (list_ascii_of_string s).

Definition eqb (a b : jsstring) : bool :=
  if list_eq_dec N.eq_dec a b then true else false.

(** WhiteSpace and LineTerminator code points, as [String.prototype.trim]
    and [parseInt] strip them. *)
Definition is_ws (c : N) : bool :=
  ((9 <=? c) && (c <=? 13) || (c =? 32) || (c =? 160) || (c =? 5760)
   || (8192 <=? c) && (c <=? 8202) || (c =? 8232) || (c =? 8233)
   || (c =? 8239) || (c =? 8287) || (c =? 12288) || (c =? 65279))%N.

Fixpoint trimStart (s : jsstring) : jsstring :=
  match s with
  | c :: r => if is_ws c then trimStart r else s
  | [] => []
  end.

Definition trimEnd (s : jsstring) : jsstring := rev (trimStart (rev s)).

Definition trim (s : jsstring) : jsstring := trimEnd (trimStart s).

Fixpoint startsWith (p s : jsstring) : bool :=
  match p, s with
  | [], _ => true
  | a :: p', b :: s' => (a =? b)%N && startsWith p' s'
  | _ :: _, [] => false
  end.

(** [s.includes(p)] *)
Fixpoint includes (p s : jsstring) : bool :=
  startsWith p s ||
  match s with
  | [] => false
  | _ :: r => includes p r
  end.

(** [s.endsWith(p)] *)
Definition endsWith (p s : jsstring) : bool := startsWith (rev p) (rev s).

(** [s.replace(c, "")] for a one-unit string pattern: only the first
    occurrence goes. *)
Fixpoint replace1 (c : N) (s : jsstring) : jsstring :=
  match s with
  | [] => []
  | a :: r => if (a =? c)%N then r else a :: replace1 c r
  end.

Definition is_digit (c : N) : bool := ((48 <=? c) && (c <=? 57))%N.

Fixpoint digits_value (acc : Z) (s : jsstring) : Z :=
  match s with
  | c :: r => if is_digit c then digits_value (10 * acc + (Z.of_N c - 48)) r else acc
  | [] => acc
  end.

(** The integral value of the double nearest to an integer, ties going
    to the even significand; [None] when that double is an infinity.
    Up to 2^53 in magnitude every integer is its own double. *)
Definition to_double (v : Z) : option Z :=
  let a := Z.abs v in
  if (a <=? 2 ^ 53)%Z then Some v
  else
    let e := (Z.log2 a - 52)%Z in
    let q := (a / 2 ^ e)%Z in
    let r := (a mod 2 ^ e)%Z in
    let half := (2 ^ (e - 1))%Z in
    let q' := if (half <? r)%Z || ((r =? half)%Z && Z.odd q)
              then (q + 1)%Z else q in
    let m := (q' * 2 ^ e)%Z in
    if (m <? 2 ^ 1024)%Z then Some (Z.sgn v * m)%Z else None.

(** What [parseInt] returns: NaN, an infinity, or a double of integral
    value. *)
Inductive parsed : Type :=
| NaN
| Infinite
| Finite (z : Z).

(** [parseInt(s, 10)]: leading white space, an optional sign, then the
    longest run of decimal digits, read as the nearest double (all the
    digits counting, also those past the twentieth). *)
Definition parseInt10 (s : jsstring) : parsed :=
  let s1 := trimStart s in
  let sign :=
    match s1 with
    | c :: _ => if (c =? 45)%N then (-1)%Z else 1%Z
    | [] => 1%Z
    end in
  let s2 :=
    match s1 with
    | c :: r => if ((c =? 45) || (c =? 43))%N then r else s1
    | [] => s1
    end in
  match s2 with
  | c :: _ =>
      if is_digit c
      then match to_double (sign * digits_value 0 s2)%Z with
           | Some z => Finite z
           | None => Infinite
           end
      else NaN
  | [] => NaN
  end.

(** [Number.isFinite(n) ? n : null] *)
Definition finite_or_null (n : parsed) : option Z :=
  match n with
  | Finite z => Some z
  | _ => None
  end.

(** Decimal rendering of an integer, [Number.prototype.toString] below
    10^21. *)
Definition of_Z (z : Z) : jsstring :=
  js (NilZero.string_of_int (Z.to_int z)).

Definition MAX_SAFE_INTEGER : Z := 2 ^ 53 - 1.

(** [v || d] on a string that may be [null] or [undefined]. *)
Definition or_else (v : option jsstring) (d : jsstring) : jsstring :=
  match v with
  | Some (c :: r) => c :: r
  | _ => d
  end.

(** [s.split(sep)] for a one-unit separator. *)
Fixpoint split (sep : N) (s : jsstring) : list jsstring :=
  match s with
  | [] => [[]]
  | c :: r =>
      match split sep r with
      | cur :: rest => if (c =? sep)%N then [] :: cur :: rest else (c :: cur) :: rest
      | [] => [[c]]
      end
  end.

(** A Number with an integral value; [None] is NaN. *)
Definition number := option Z.

(** [Number(s)] on the decimal integers: white space around, an
    optional sign, digits only; the empty text is 0.  Other numeric
    texts (fractions, exponents, radix prefixes, Infinity) are outside
    this fragment and never arise from the dates below. *)
Definition toNumber (s : jsstring) : number :=
  match trim s with
  | [] => Some 0%Z
  | c :: r =>
      let sign := if (c =? 45)%N then (-1)%Z else 1%Z in
      let digits := if ((c =? 45) || (c =? 43))%N then r else c :: r in
      match digits with
      | [] => None
      | _ :: _ =>
          if forallb is_digit digits then Some (sign * digits_value 0 digits)%Z
          else None
      end
  end.

End JS.

Import JS.

(** ** JSON values and the results of fallible code *)

(** What [JSON.parse] can return.  Numbers are the integral ones below
    10^21 in magnitude, which [ToString] writes with all their digits;
    an object is its list of bindings, looked up by key. *)
Inductive json : Type :=
| JNull
| JBool (b : bool)
| JNum (z : Z)
| JStr (s : jsstring)
| JArr (items : list json)
| JObj (fields : list (jsstring * json)).

(** A JavaScript value as the helpers see it: [None] is [undefined]. *)
Definition value := option json.

Inductive Exn : Type := TypeError | RangeError.

Inductive Result (A : Type) : Type :=
| Val (a : A)
| Thrown (e : Exn).
Arguments Val {A} a.
Arguments Thrown {A} e.

Module Json.

Fixpoint lookup (k : jsstring) (fields : list (jsstring * json)) : value :=
  match fields with
  | [] => None
  | (k', v) :: r => if JS.eqb k k' then Some v else lookup k r
  end.

(** [v.k] on a value that is neither [null] nor [undefined], for the
    keys the helpers read ("candidates", "content", "parts", "text",
    "error", "details", "@type", "retryDelay"): only an object can hold
    them, no prototype defines them. *)
Definition prop (k : jsstring) (v : json) : value :=
  match v with
  | JObj fields => lookup k fields
  | _ => None
  end.

(** [v?.k] *)
Definition opt_prop (k : jsstring) (v : value) : value :=
  match v with
  | None | Some JNull => None
  | Some o => prop k o
  end.

(** [v?.[0]] *)
Definition opt_index0 (v : value) : value :=
  match v with
  | None | Some JNull => None
  | Some (JArr items) => nth_error items 0
  | Some (JObj fields) => lookup (js "0") fields
  | Some (JStr (c :: _)) => Some (JStr [c])
  | Some _ => None
  end.

(** Truthiness. *)
Definition truthy (v : value) : bool :=
  match v with
  | None | Some JNull | Some (JBool false) | Some (JStr []) => false
  | Some (JNum z) => negb (z =? 0)%Z
  | Some _ => true
  end.

(** [ToString].  An array goes through its [join(",")], where [null]
    counts as the empty text.  An object goes through the [toString] it
    finds: the one of [Object.prototype], unless a binding of its own
    hides it, and then (no parsed value being callable) the conversion
    ends in a TypeError. *)
Fixpoint to_string (v : json) : Result jsstring :=
  match v with
  | JNull => Val (js "null")
  | JBool true => Val (js "true")
  | JBool false => Val (js "false")
  | JNum z => Val (JS.of_Z z)
  | JStr s => Val s
  | JArr items =>
      (fix join (l : list json) : Result jsstring :=
         match l with
         | [] => Val []
         | x :: r =>
             match (match x with JNull => Val [] | _ => to_string x end) with
             | Thrown e => Thrown e
             | Val e1 =>
                 match r with
                 | [] => Val e1
                 | _ :: _ =>
                     match join r with
                     | Thrown e => Thrown e
                     | Val rest => Val (e1 ++ js "," ++ rest)
                     end
                 end
             end
         end) items
  | JObj fields =>
      match lookup (js "toString") fields with
      | Some _ => Thrown TypeError
      | None => Val (js "[object Object]")
      end
  end.

End Json.

(** ** Gemini helpers *)

(** The callback of [parts.map]: [(p) => p.text || ""]. *)
Definition part_text (p : json) : Result json :=
  match p with
  | JNull => Thrown TypeError
  | _ =>
      let t := Json.prop (js "text") p in
      Val (if Json.truthy t then match t with Some v => v | None => JStr [] end
           else JStr [])
  end.

(** [parts.map(f)]: the first callback that throws ends the map. *)
Fixpoint map_parts (parts : list json) : Result (list json) :=
  match parts with
  | [] => Val []
  | p :: r =>
      match part_text p with
      | Thrown e => Thrown e
      | Val t =>
          match map_parts r with
          | Thrown e => Thrown e
          | Val ts => Val (t :: ts)
          end
      end
  end.

(** [texts.join("")]: the elements in order, [null] as the empty
    text, the others by [ToString]; the first that throws ends it. *)
Fixpoint join_empty (texts : list json) : Result jsstring :=
  match texts with
  | [] => Val []
  | x :: r =>
      match (match x with JNull => Val [] | _ => Json.to_string x end) with
      | Thrown e => Thrown e
      | Val a =>
          match join_empty r with
          | Thrown e => Thrown e
          | Val b => Val (a ++ b)
          end
      end
  end.

Definition extractTextFromGemini (data : json) : Result jsstring :=
  let c0 := Json.opt_index0 (Json.opt_prop (js "candidates") (Some data)) in
  let parts := Json.opt_prop (js "parts") (Json.opt_prop (js "content") c0) in
  match parts with
  | Some (JArr ps) =>
      match map_parts ps with
      | Thrown e => Thrown e
      | Val texts => join_empty texts
      end
  | _ => Val []
  end.

(** A response body: its text, and what [JSON.parse] makes of that text
    ([None] when it throws a SyntaxError). *)
Record Body : Type := mkBody {
  body_text : jsstring;
  body_parse : option json
}.

(** [safeParseJSON(str, null)] *)
Definition safeParseJSON (b : Body) : json :=
  match body_parse b with
  | Some v => v
  | None => JNull
  end.

(** The callback of [details.find]:
    [d => d["@type"]?.includes("RetryInfo")]. *)
Definition is_retry_info (d : json) : Result bool :=
  match d with
  | JNull => Thrown TypeError
  | _ =>
      match Json.prop (js "@type") d with
      | None | Some JNull => Val false
      | Some (JStr t) => Val (JS.includes (js "RetryInfo") t)
      | Some (JArr items) =>
          Val (existsb (fun x => match x with
                                 | JStr s => JS.eqb s (js "RetryInfo")
                                 | _ => false
                                 end) items)
      | Some _ => Thrown TypeError
      end
  end.

Fixpoint find_retry_info (details : list json) : Result value :=
  match details with
  | [] => Val None
  | d :: r =>
      match is_retry_info d with
      | Thrown e => Thrown e
      | Val true => Val (Some d)
      | Val false => find_retry_info r
      end
  end.

(** [obj?.error?.details?.find(...)]: calling [find] on anything but an
    array is a TypeError. *)
Definition details_find (obj : json) : Result value :=
  match Json.opt_prop (js "details") (Json.opt_prop (js "error") (Some obj)) with
  | None | Some JNull => Val None
  | Some (JArr details) => find_retry_info details
  | Some _ => Thrown TypeError
  end.

(** [None] is the [null] result. *)
Definition parseRetryDelaySeconds (errText : Body) : option Z :=
  match body_parse errText with
  | None => None
  | Some obj =>
      match details_find obj with
      | Thrown _ => None
      | Val found =>
          match Json.opt_prop (js "retryDelay") found with
          | Some (JStr retryDelay) =>
              if Json.truthy (Some (JStr retryDelay))
                 && JS.endsWith (js "s") retryDelay
              then JS.finite_or_null (JS.parseInt10 (JS.replace1 115 retryDelay))
              else None
          | _ => None
          end
      end
  end.

Definition count (f : N -> bool) (s : jsstring) : nat :=
  length (filter f s).

(** [/[\u0900-\u097F]/g] *)
Definition is_devanagari (c : N) : bool := ((2304 <=? c) && (c <=? 2431))%N.

(** [/[A-Za-z]/g] *)
Definition is_latin (c : N) : bool :=
  ((65 <=? c) && (c <=? 90) || (97 <=? c) && (c <=? 122))%N.

Definition looksEnglish (text : jsstring) : bool :=
  let devanagariCount := count is_devanagari text in
  let latinCount := count is_latin text in
  ((40 <? latinCount) && (devanagariCount <? 10))%nat.

(** ** Time: the ECMAScript day and calendar functions

    [Date.UTC], [setUTCDate], [getUTCDate] and [Intl.DateTimeFormat] are
    the platform's; they are modelled by the definitions of ECMA-262
    (section "Time Values and Time Range") on time values in
    milliseconds since the epoch, inside the time range, where TimeClip
    is the identity. *)

Module ES.

Open Scope Z_scope.

Definition msPerDay : Z := 86400000.

Definition Day (t : Z) : Z := t / msPerDay.

Definition TimeWithinDay (t : Z) : Z := t mod msPerDay.

Definition is_leap (y : Z) : bool :=
  (y mod 4 =? 0) && (negb (y mod 100 =? 0) || (y mod 400 =? 0)).

Definition DaysInYear (y : Z) : Z := if is_leap y then 366 else 365.

Definition DayFromYear (y : Z) : Z :=
  365 * (y - 1970) + (y - 1969) / 4 - (y - 1901) / 100 + (y - 1601) / 400.

(** The largest [y] with [DayFromYear y <= n], computed from the mean
    year length and corrected by at most one. *)
Definition YearFromDay (n : Z) : Z :=
  let y0 := 1970 + (400 * n) / 146097 in
  if n <? DayFromYear y0 then y0 - 1
  else if DayFromYear (y0 + 1) <=? n then y0 + 1
  else y0.

Definition YearFromTime (t : Z) : Z := YearFromDay (Day t).

Definition InLeapYear (t : Z) : Z :=
  if is_leap (YearFromTime t) then 1 else 0.

Definition DayWithinYear (t : Z) : Z := Day t - DayFromYear (YearFromTime t).

(** Month numbers run from 0 (January) to 11. *)
Definition MonthFromTime (t : Z) : Z :=
  let d := DayWithinYear t in
  let leap := InLeapYear t in
  if d <? 31 then 0
  else if d <? 59 + leap then 1
  else if d <? 90 + leap then 2
  else if d <? 120 + leap then 3
  else if d <? 151 + leap then 4
  else if d <? 181 + leap then 5
  else if d <? 212 + leap then 6
  else if d <? 243 + leap then 7
  else if d <? 273 + leap then 8
  else if d <? 304 + leap then 9
  else if d <? 334 + leap then 10
  else 11.

Definition DateFromTime (t : Z) : Z :=
  let d := DayWithinYear t in
  let leap := InLeapYear t in
  match MonthFromTime t with
  | 0 => d + 1
  | 1 => d - 30
  | 2 => d - 58 - leap
  | 3 => d - 89 - leap
  | 4 => d - 119 - leap
  | 5 => d - 150 - leap
  | 6 => d - 180 - leap
  | 7 => d - 211 - leap
  | 8 => d - 242 - leap
  | 9 => d - 272 - leap
  | 10 => d - 303 - leap
  | _ => d - 333 - leap
  end.

(** The day within the year on which month [mn] starts. *)
Definition month_start (mn leap : Z) : Z :=
  match mn with
  | 0 => 0
  | 1 => 31
  | 2 => 59 + leap
  | 3 => 90 + leap
  | 4 => 120 + leap
  | 5 => 151 + leap
  | 6 => 181 + leap
  | 7 => 212 + leap
  | 8 => 243 + leap
  | 9 => 273 + leap
  | 10 => 304 + leap
  | _ => 334 + leap
  end.

(** [MakeDay(year, month, date)]: the day of the first of the month,
    plus [date - 1]; a date past the month's end runs into the next. *)
Definition MakeDay (year month date : Z) : Z :=
  let ym := year + month / 12 in
  let mn := month mod 12 in
  DayFromYear ym + month_start mn (if is_leap ym then 1 else 0) + date - 1.

Definition MakeDate (day time : Z) : Z := day * msPerDay + time.

(** The last time value a [Date] can hold. *)
Definition maxTime : Z := 8640000000000000.

(** [TimeClip].  The time value of a [Date] is [None] when the date is
    invalid (NaN). *)
Definition TimeClip (t : Z) : option Z :=
  if Z.abs t <=? maxTime then Some t else None.

(** [Date.UTC(year, month, date)]; a year from 0 to 99 means 1900 + year. *)
Definition Date_UTC (year month date : number) : option Z :=
  match year, month, date with
  | Some y, Some m, Some d =>
      let yr := if (0 <=? y) && (y <=? 99) then 1900 + y else y in
      TimeClip (MakeDate (MakeDay yr m d) 0)
  | _, _, _ => None
  end.

Definition getUTCDate (date : option Z) : number :=
  option_map DateFromTime date.

Definition setUTCDate (date : option Z) (dt : number) : option Z :=
  match date, dt with
  | Some t, Some d =>
      TimeClip (MakeDate (MakeDay (YearFromTime t) (MonthFromTime t) d)
                  (TimeWithinDay t))
  | _, _ => None
  end.

(** A time zone, as the host's zone database gives it: the offset from
    UTC, in milliseconds, in force at each instant. *)
Definition Zone := Z -> Z.

(** India Standard Time, UTC+05:30, in force without change since 1945. *)
Definition Asia_Kolkata : Zone := fun _ => 19800000.

(** A calendar date (month from 1). *)
Record DateParts : Type := mkDateParts { yyyy : Z; mm : Z; dd : Z }.

(** The Gregorian date of an instant on the wall clock of a zone. *)
Definition local_date (zone : Zone) (t : Z) : DateParts :=
  let local := t + zone t in
  {| yyyy := YearFromTime local;
     mm := MonthFromTime local + 1;
     dd := DateFromTime local |}.

(** The ["2-digit"] rendering of a day or a month. *)
Definition two_digits (n : Z) : jsstring :=
  if n <? 10 then 48%N :: JS.of_Z n else JS.of_Z n.

(** [Intl.DateTimeFormat("en-GB", { timeZone, year: "numeric",
    month: "2-digit", day: "2-digit" }).formatToParts(date)] on a valid
    date: the parts, each with its type and its value. *)
Definition formatToParts (zone : Zone) (t : Z) : list (jsstring * jsstring) :=
  let d := local_date zone t in
  [(js "day", two_digits (dd d)); (js "literal", js "/");
   (js "month", two_digits (mm d)); (js "literal", js "/");
   (js "year", JS.of_Z (yyyy d))].

Definition month_long (m : Z) : jsstring :=
  match m with
  | 1 => js "January"
  | 2 => js "February"
  | 3 => js "March"
  | 4 => js "April"
  | 5 => js "May"
  | 6 => js "June"
  | 7 => js "July"
  | 8 => js "August"
  | 9 => js "September"
  | 10 => js "October"
  | 11 => js "November"
  | _ => js "December"
  end.

(** [Intl.DateTimeFormat("en-GB", { timeZone, day: "2-digit",
    month: "long", year: "numeric" }).format(date)] on a valid date. *)
Definition format_long (zone : Zone) (t : Z) : jsstring :=
  let d := local_date zone t in
  two_digits (dd d) ++ js " " ++ month_long (mm d) ++ js " " ++ JS.of_Z (yyyy d).

End ES.

(** ** IST date grounding helpers

    The three formatting helpers are given on valid dates, by their
    time value.  On an invalid date the formatter throws a RangeError:
    the callers that can hold one go through [on_valid]. *)

Record ISTDateParts : Type := mkISTDateParts {
  p_dd : jsstring;
  p_mm : jsstring;
  p_yyyy : jsstring
}.

(** [parts.find(p => p.type === type)?.value] *)
Definition part_value (type : jsstring) (parts : list (jsstring * jsstring))
    : option jsstring :=
  option_map snd (find (fun p => JS.eqb (fst p) type) parts).

Definition getISTDateParts (date : Z) : ISTDateParts :=
  let parts := ES.formatToParts ES.Asia_Kolkata date in
  let dd := or_else (part_value (js "day") parts) (js "01") in
  let mm := or_else (part_value (js "month") parts) (js "01") in
  let yyyy := or_else (part_value (js "year") parts) (js "1970") in
  mkISTDateParts dd mm yyyy.

Definition istDateISO (date : Z) : jsstring :=
  let p := getISTDateParts date in
  p_yyyy p ++ js "-" ++ p_mm p ++ js "-" ++ p_dd p.

Definition istDateHuman (date : Z) : jsstring :=
  ES.format_long ES.Asia_Kolkata date.

(** The result is the time value of the new [Date]: [None] when it is
    invalid. *)
Definition addDaysIST (baseDate days : Z) : option Z :=
  let iso := istDateISO baseDate in
  let nums := map JS.toNumber (JS.split 45 iso) in
  let '(y, m, d) := (nth 0 nums None, nth 1 nums None, nth 2 nums None) in
  let dt := ES.Date_UTC y (option_map (fun m => m - 1)%Z m) d in
  ES.setUTCDate dt (option_map (fun k => k + days)%Z (ES.getUTCDate dt)).

Definition on_valid {A} (date : option Z) (f : Z -> A) : Result A :=
  match date with
  | Some t => Val (f t)
  | None => Thrown RangeError
  end.

(** ** Prompt composer

    The three instruction texts are template literals over fixed prose.
    Each is held as the values that fill its holes; two texts from one
    template are equal exactly when these are. *)

Inductive LanguageName : Type := Marathi | English.

Inductive SystemText : Type :=
| InterpreterPrompt
    (todayHuman todayISO tomorrowHuman tomorrowISO
     dayAfterHuman dayAfterISO : jsstring)
    (uiLanguage : LanguageName)
| GurujiSystemInstruction
    (todayHuman todayISO : jsstring) (languageLock : LanguageName)
| TranslatorInstruction.

(** [lang === "mr" ? ... : ...] *)
Definition pick_language (lang : jsstring) : LanguageName :=
  if JS.eqb lang (js "mr") then Marathi else English.

(** [buildInterpreterPrompt(lang)] reads the clock six times, once for
    each date it writes; [t1] to [t6] are what the six [new Date()]
    read, in the order of the source. *)
Definition buildInterpreterPrompt_at (lang : jsstring) (t1 t2 t3 t4 t5 t6 : Z)
    : Result SystemText :=
  let todayISO := istDateISO t1 in
  match on_valid (addDaysIST t2 1) istDateISO with
  | Thrown e => Thrown e
  | Val tomorrowISO =>
  match on_valid (addDaysIST t3 2) istDateISO with
  | Thrown e => Thrown e
  | Val dayAfterISO =>
  let todayHuman := istDateHuman t4 in
  match on_valid (addDaysIST t5 1) istDateHuman with
  | Thrown e => Thrown e
  | Val tomorrowHuman =>
  match on_valid (addDaysIST t6 2) istDateHuman with
  | Thrown e => Thrown e
  | Val dayAfterHuman =>
      Val (InterpreterPrompt todayHuman todayISO tomorrowHuman tomorrowISO
             dayAfterHuman dayAfterISO (pick_language lang))
  end end end end.

(** The function when its six reads give one reading [now]: so it is on
    the page below, whose clock moves only while a call is pending. *)
Definition buildInterpreterPrompt (lang : jsstring) (now : Z) : Result SystemText :=
  buildInterpreterPrompt_at lang now now now now now now.

(** [buildGurujiSystemInstruction(lang)] reads the clock twice. *)
Definition buildGurujiSystemInstruction_at (lang : jsstring) (t1 t2 : Z)
    : SystemText :=
  let todayHuman := istDateHuman t1 in
  let todayISO := istDateISO t2 in
  GurujiSystemInstruction todayHuman todayISO (pick_language lang).

Definition buildGurujiSystemInstruction (lang : jsstring) (now : Z) : SystemText :=
  buildGurujiSystemInstruction_at lang now now.

(** ** Requests and results of the generation client *)

(** One entry of [contents]: [{ role, parts: [{ text }] }]. *)
Record Content : Type := mkContent { c_role : jsstring; c_text : jsstring }.

(** Decimal settings are held in hundredths. *)
Record GenerationConfig : Type := mkConfig {
  temperature_x100 : Z;
  topP_x100 : option Z;
  topK : option Z;
  maxOutputTokens : Z
}.

Record Payload : Type := mkPayload {
  systemInstruction : SystemText;
  contents : list Content;
  generationConfig : GenerationConfig
}.

Inductive Url : Type := GURUJI_URL | INTERPRETER_URL.

(** How a [fetch] ends: a response with its status and body, or a
    rejection (the abort of the timeout, a network failure) with the
    message of the error. *)
Inductive NetOutcome : Type :=
| Responded (status : Z) (body : Body)
| Rejected (message : Body).

(** What [geminiFetch] returns: [{ ok: false, status, text }] or
    [{ ok: true, status, json, text }]. *)
Inductive FetchResult : Type :=
| Failed (status : Z) (text : Body)
| Succeeded (status : Z) (json : json) (text : Body).

Definition ok (r : FetchResult) : bool :=
  match r with
  | Failed _ _ => false
  | Succeeded _ _ _ => true
  end.

(** ** Sessions and the state of the page *)

Record Message : Type := mkMessage {
  role : jsstring;
  content : jsstring;
  tsISO : Z
}.

Record Session : Type := mkSession {
  id : jsstring;
  title : jsstring;
  createdAtISO : Z;
  updatedAtISO : Z;
  messages : list Message
}.

Record PendingRetry : Type := mkPendingRetry {
  sessionId : jsstring;
  lastUserText : jsstring;
  retryAtMs : Z
}.

Inductive Toast : Type :=
| ToastNoApiKey
| ToastOffline
| ToastRetryAfter (sec : Z)
| ToastRetryInAMinute
| ToastInvalidKey
| ToastBadRequest
| ToastModelNotFound
| ToastApiError (status : Z)
| ToastLanguage (lang : LanguageName).

(** What the page does that can be seen from outside: its requests,
    its toasts, the state of its controls and what it stores.  The
    lines that [console.warn] and [console.error] write to the
    developer console are not part of the page and are left out. *)
Inductive Event : Type :=
| EvFetch (url : Url) (apiKey : jsstring) (payload : Payload) (timeoutMs : Z)
| EvToast (t : Toast)
| EvSendingDisabled (disabled : bool)
| EvTyping (show : bool)
| EvSaveSessions (snapshot : list Session) (active : jsstring).

(** Handlers of the page that can run while a turn waits for the
    network. *)
Inductive UiEvent : Type :=
| LangToggleClick (uuid : jsstring).

(** One exchange with the network, as the page lives it: the handlers
    that run and the time that passes while the call is pending, then
    its outcome. *)
Record NetStep : Type := mkNetStep {
  during : list UiEvent;
  elapsed : Z;
  outcome : NetOutcome
}.

(** Session objects live in [heap] and are named by their index there,
    so that the [session] a turn holds stays the same object whatever
    happens to the [sessions] array meanwhile. *)
Record World : Type := mkWorld {
  heap : list Session;
  sessions : list nat;
  activeSessionId : option jsstring;
  pendingRetry : option PendingRetry;
  ls_api_key : option jsstring;
  ls_language : option jsstring;
  onLine : bool;
  clock : Z;
  network : list NetStep;
  trace : list Event
}.

Definition set_heap (h : list Session) (w : World) : World :=
  mkWorld h (sessions w) (activeSessionId w) (pendingRetry w) (ls_api_key w)
    (ls_language w) (onLine w) (clock w) (network w) (trace w).

Definition set_sessions (s : list nat) (w : World) : World :=
  mkWorld (heap w) s (activeSessionId w) (pendingRetry w) (ls_api_key w)
    (ls_language w) (onLine w) (clock w) (network w) (trace w).

Definition set_activeSessionId (a : option jsstring) (w : World) : World :=
  mkWorld (heap w) (sessions w) a (pendingRetry w) (ls_api_key w)
    (ls_language w) (onLine w) (clock w) (network w) (trace w).

Definition set_pendingRetry (p : option PendingRetry) (w : World) : World :=
  mkWorld (heap w) (sessions w) (activeSessionId w) p (ls_api_key w)
    (ls_language w) (onLine w) (clock w) (network w) (trace w).

Definition set_ls_language (l : option jsstring) (w : World) : World :=
  mkWorld (heap w) (sessions w) (activeSessionId w) (pendingRetry w)
    (ls_api_key w) l (onLine w) (clock w) (network w) (trace w).

Definition set_clock (c : Z) (w : World) : World :=
  mkWorld (heap w) (sessions w) (activeSessionId w) (pendingRetry w)
    (ls_api_key w) (ls_language w) (onLine w) c (network w) (trace w).

Definition set_network (n : list NetStep) (w : World) : World :=
  mkWorld (heap w) (sessions w) (activeSessionId w) (pendingRetry w)
    (ls_api_key w) (ls_language w) (onLine w) (clock w) n (trace w).

Definition emit (e : Event) (w : World) : World :=
  mkWorld (heap w) (sessions w) (activeSessionId w) (pendingRetry w)
    (ls_api_key w) (ls_language w) (onLine w) (clock w) (network w)
    (trace w ++ [e]).

(** ** Code that changes the page and may throw *)

Definition M (A : Type) : Type := World -> Result A * World.

Definition ret {A} (a : A) : M A := fun w => (Val a, w).

Definition throw {A} (e : Exn) : M A := fun w => (Thrown e, w).

Definition bind {A B} (c : M A) (k : A -> M B) : M B :=
  fun w =>
    match c w with
    | (Val a, w1) => k a w1
    | (Thrown e, w1) => (Thrown e, w1)
    end.

Definition lift {A} (r : Result A) : M A := fun w => (r, w).

Definition read {A} (f : World -> A) : M A := fun w => (Val (f w), w).

Definition change (f : World -> World) : M unit := fun w => (Val tt, f w).

(** [try { body } finally { fin }] *)
Definition try_finally {A} (body : M A) (fin : M unit) : M A :=
  fun w =>
    let '(r, w1) := body w in
    match fin w1 with
    | (Val _, w2) => (r, w2)
    | (Thrown e, w2) => (Thrown e, w2)
    end.

Declare Scope js_scope.
Delimit Scope js_scope with M.
Notation "x <- c ;; k" := (bind c (fun x => k))
  (at level 61, c at next level, right associativity) : js_scope.
Notation "c ;; k" := (bind c (fun _ => k))
  (at level 61, right associativity) : js_scope.
Open Scope js_scope.

(** ** Settings, storage and sessions *)

Definition DEFAULT_LANGUAGE : jsstring := js "mr".

Definition MAX_HISTORY : nat := 18.

Definition getApiKey (w : World) : jsstring :=
  JS.trim (or_else (ls_api_key w) []).

Definition getLanguage (w : World) : jsstring :=
  or_else (ls_language w) DEFAULT_LANGUAGE.

Definition nowISO (w : World) : Z := clock w.

Definition deref (w : World) (ref : nat) : option Session :=
  nth_error (heap w) ref.

Definition session_messages (w : World) (ref : nat) : list Message :=
  match deref w ref with
  | Some s => messages s
  | None => []
  end.

Definition session_id (w : World) (ref : nat) : jsstring :=
  match deref w ref with
  | Some s => id s
  | None => []
  end.

Fixpoint update_nth {A} (n : nat) (f : A -> A) (l : list A) : list A :=
  match l, n with
  | [], _ => []
  | x :: r, O => f x :: r
  | x :: r, S n' => x :: update_nth n' f r
  end.

Definition update_session (ref : nat) (f : Session -> Session) : M unit :=
  change (fun w => set_heap (update_nth ref f (heap w)) w).

Definition snapshot (w : World) : list Session :=
  flat_map (fun ref => match deref w ref with
                       | Some s => [s]
                       | None => []
                       end) (sessions w).

Definition saveSessions : M unit :=
  change (fun w =>
    emit (EvSaveSessions (snapshot w) (or_else (activeSessionId w) [])) w).

Definition getActiveSession (w : World) : option nat :=
  find (fun ref =>
          match deref w ref, activeSessionId w with
          | Some s, Some a => JS.eqb (id s) a
          | _, _ => false
          end) (sessions w).

Definition showToast (t : Toast) : M unit := change (emit (EvToast t)).

Definition showTyping (show : bool) : M unit := change (emit (EvTyping show)).

Definition setSendingDisabled (disabled : bool) : M unit :=
  change (emit (EvSendingDisabled disabled)).

(** [uuid] is what [crypto.randomUUID()] returns. *)
Definition createNewSession (uuid title : jsstring) : M nat :=
  fun w =>
    let now := nowISO w in
    let session := mkSession uuid (or_else (Some title) (js "New Consultation"))
                     now now [] in
    let ref := length (heap w) in
    let w1 := set_heap (heap w ++ [session]) w in
    let w2 := set_sessions (ref :: sessions w1) w1 in
    let w3 := set_activeSessionId (Some uuid) w2 in
    match saveSessions w3 with
    | (Val _, w4) => (Val ref, w4)
    | (Thrown e, w4) => (Thrown e, w4)
    end.

Definition updateSessionTitleFromFirstMessage
    (session : nat) (firstUserText : jsstring) : M unit :=
  update_session session (fun s =>
    if JS.eqb (title s) (js "New Consultation")
       && negb (JS.eqb firstUserText [])
    then mkSession (id s)
           (firstn 32 firstUserText
            ++ (if (32 <? length firstUserText)%nat then [8230%N] else []))
           (createdAtISO s) (updatedAtISO s) (messages s)
    else s).

(** The click handler of the language toggle; the new title in Marathi
    is written by its code units. *)
Definition langToggle_click (uuid : jsstring) : M unit :=
  cur <- read getLanguage ;;
  let next := if JS.eqb cur (js "mr") then js "en" else js "mr" in
  change (set_ls_language (Some next)) ;;
  createNewSession uuid
    (if JS.eqb next (js "mr")
     then [2344; 2357; 2368; 2344; 32; 2360; 2354; 2381; 2354; 2366; 2350;
           2360; 2354; 2340]%N
     else js "New Consultation") ;;
  showToast (ToastLanguage (pick_language next)).

Definition run_ui (e : UiEvent) (w : World) : World :=
  match e with
  | LangToggleClick uuid => snd (langToggle_click uuid w)
  end.

(** ** Generation client *)

(** The error a timed-out call is rejected with; its message is the
    browser's and is not JSON. *)
Definition abort_error : Body := mkBody (js "The operation was aborted.") None.

(** One call: the request leaves, handlers run and time passes while it
    is pending, and the call ends by its outcome, or by the abort of the
    timer when the outcome is not there within [timeoutMs] (reading the
    body of a response takes no time of its own).  When the script of
    exchanges is used up the call is rejected. *)
Definition geminiFetch (url : Url) (apiKey : jsstring) (payload : Payload)
    (timeoutMs : Z) : M FetchResult :=
  fun w =>
    let w1 := emit (EvFetch url apiKey payload timeoutMs) w in
    match network w1 with
    | [] => (Val (Failed 0 abort_error), w1)
    | step :: rest =>
        let w2 := fold_left (fun x e => run_ui e x) (during step)
                    (set_network rest w1) in
        if (timeoutMs <=? elapsed step)%Z
        then (Val (Failed 0 abort_error), set_clock (clock w2 + timeoutMs)%Z w2)
        else
          let w3 := set_clock (clock w2 + elapsed step)%Z w2 in
          match outcome step with
          | Responded status body =>
              if ((200 <=? status) && (status <=? 299))%Z
              then (Val (Succeeded status (safeParseJSON body) body), w3)
              else (Val (Failed status body), w3)
          | Rejected message => (Val (Failed 0 message), w3)
          end
    end.

(** ** Stage 1: interpreter *)

(** On a result that is not ok the code writes a line to the console
    (no event of the page) and returns the raw text. *)
Definition interpretUserQuery (rawUserText apiKey : jsstring) : M jsstring :=
  lang <- read getLanguage ;;
  now <- read clock ;;
  prompt <- lift (buildInterpreterPrompt lang now) ;;
  let payload :=
    mkPayload prompt [mkContent (js "user") rawUserText]
      (mkConfig 15 (Some 90%Z) None 240) in
  result <- geminiFetch INTERPRETER_URL apiKey payload 20000 ;;
  match result with
  | Failed _ _ => ret rawUserText
  | Succeeded _ json _ =>
      text <- lift (extractTextFromGemini json) ;;
      let rewritten := JS.trim text in
      ret (or_else (Some rewritten) rawUserText)
  end.

(** ** Marathi enforcement fallback translator *)

Definition translateToMarathiIfNeeded (replyText apiKey : jsstring) : M jsstring :=
  lang <- read getLanguage ;;
  if negb (JS.eqb lang (js "mr")) then ret replyText
  else if negb (looksEnglish replyText) then ret replyText
  else
    let payload :=
      mkPayload TranslatorInstruction [mkContent (js "user") replyText]
        (mkConfig 20 None None 1400) in
    result <- geminiFetch INTERPRETER_URL apiKey payload 25000 ;;
    match result with
    | Failed _ _ => ret replyText
    | Succeeded _ json _ =>
        text <- lift (extractTextFromGemini json) ;;
        let out := JS.trim text in
        ret (or_else (Some out) replyText)
    end.

(** ** Stage 2: Guruji *)

(** [l.slice(-n)] *)
Definition slice_last {A} (n : nat) (l : list A) : list A :=
  skipn (length l - n) l.

Definition history_entry (m : Message) : Content :=
  mkContent (if JS.eqb (role m) (js "assistant") then js "model" else js "user")
    (content m).

Definition buildGurujiPayload (w : World) (sessionMessages : list Message)
    (finalUserText : jsstring) : Payload :=
  let lang := getLanguage w in
  let system := buildGurujiSystemInstruction lang (clock w) in
  let history := map history_entry (slice_last MAX_HISTORY sessionMessages) in
  let history := history ++ [mkContent (js "user") finalUserText] in
  mkPayload system history (mkConfig 45 (Some 90%Z) (Some 32%Z) 2048).

(** ** Main send flow *)

Definition push_message (session : nat) (m : Message) : M unit :=
  update_session session (fun s =>
    mkSession (id s) (title s) (createdAtISO s) (updatedAtISO s)
      (messages s ++ [m])).

Definition set_updatedAtISO (session : nat) (ts : Z) : M unit :=
  update_session session (fun s =>
    mkSession (id s) (title s) (createdAtISO s) ts (messages s)).

(** The branch of [callGuruji] for a result that is not ok. *)
Definition report_failure (session : nat) (rawUserText : jsstring)
    (status : Z) (text : Body) : M unit :=
  if (status =? 429)%Z then
    match parseRetryDelaySeconds text with
    | Some sec =>
        if negb (sec =? 0)%Z then
          showToast (ToastRetryAfter sec) ;;
          sid <- read (fun w => session_id w session) ;;
          now <- read clock ;;
          change (set_pendingRetry
                    (Some (mkPendingRetry sid rawUserText (now + sec * 1000)%Z)))
        else showToast ToastRetryInAMinute
    | None => showToast ToastRetryInAMinute
    end
  else if ((status =? 401) || (status =? 403))%Z then showToast ToastInvalidKey
  else if (status =? 400)%Z then showToast ToastBadRequest
  else if (status =? 404)%Z then showToast ToastModelNotFound
  else showToast (ToastApiError status).

(** The branch of [callGuruji] for a result that is ok. *)
Definition accept_reply (session : nat) (apiKey : jsstring) (json : json)
    : M unit :=
  text <- lift (extractTextFromGemini json) ;;
  let reply := or_else (Some (JS.trim text)) (js "[No response]") in
  reply <- translateToMarathiIfNeeded reply apiKey ;;
  now <- read nowISO ;;
  push_message session (mkMessage (js "assistant") reply now) ;;
  set_updatedAtISO session now ;;
  saveSessions ;;
  change (set_pendingRetry None).

(** The [try] block of [callGuruji]. *)
Definition callGuruji_try (session : nat) (rawUserText apiKey : jsstring)
    : M unit :=
  rewritten <- interpretUserQuery rawUserText apiKey ;;
  payload <- read (fun w =>
    buildGurujiPayload w (session_messages w session) rewritten) ;;
  result <- geminiFetch GURUJI_URL apiKey payload 30000 ;;
  match result with
  | Failed status text => report_failure session rawUserText status text
  | Succeeded _ json _ => accept_reply session apiKey json
  end.

Definition callGuruji (session : nat) (rawUserText : jsstring) : M unit :=
  apiKey <- read getApiKey ;;
  if JS.eqb apiKey [] then showToast ToastNoApiKey
  else
    online <- read onLine ;;
    if negb online then showToast ToastOffline
    else
      setSendingDisabled true ;;
      showTyping true ;;
      try_finally
        (callGuruji_try session rawUserText apiKey)
        (showTyping false ;; setSendingDisabled false).

(** ** User message insertion *)

(** What [insertUserMessage] does before it calls [callGuruji]. *)
Definition append_user_message (session : nat) (text : jsstring) : M unit :=
  ts <- read nowISO ;;
  push_message session (mkMessage (js "user") text ts) ;;
  set_updatedAtISO session ts ;;
  msgs <- read (fun w => session_messages w session) ;;
  (if (length (filter (fun m => JS.eqb (role m) (js "user")) msgs) =? 1)%nat
   then updateSessionTitleFromFirstMessage session text
   else ret tt) ;;
  saveSessions.

Definition insertUserMessage (rawText : jsstring) : M unit :=
  let text := JS.trim rawText in
  if JS.eqb text [] then ret tt
  else
    active <- read getActiveSession ;;
    match active with
    | None => ret tt
    | Some session =>
        append_user_message session text ;;
        callGuruji session text
    end.

(** ** Events *)

(** The listener of [online].  The promise of [callGuruji] is dropped:
    whatever it throws stays inside it. *)
Definition on_online : M unit :=
  fun w =>
    match pendingRetry w with
    | Some p =>
        if (retryAtMs p <=? clock w)%Z then
          match getActiveSession w with
          | Some s =>
              if JS.eqb (sessionId p) (session_id w s)
              then (Val tt, snd (callGuruji s (lastUserText p) w))
              else (Val tt, w)
          | None => (Val tt, w)
          end
        else (Val tt, w)
    | None => (Val tt, w)
    end.

(** ** Text helpers of the page *)

(** The placeholder shown for a stored key: nothing for no key, four
    bullets (U+2022) for a key of at most four code units, sixteen
    bullets and [key.slice(-4)] otherwise. *)
Definition maskKey (key : jsstring) : jsstring :=
  if JS.eqb key [] then []
  else if (length key <=? 4)%nat then repeat 8226%N 4
  else repeat 8226%N 16 ++ slice_last 4 key.

(** [s.replace(/c/g, by)] for a pattern of one literal code unit. *)
Fixpoint replace_all (c : N) (by_ : jsstring) (s : jsstring) : jsstring :=
  match s with
  | [] => []
  | a :: r =>
      if (a =? c)%N then by_ ++ replace_all c by_ r
      else a :: replace_all c by_ r
  end.

(** Three replacements in a row, the ampersand first. *)
Definition escapeHTML (s : jsstring) : jsstring :=
  replace_all 62 (js "&gt;")
    (replace_all 60 (js "&lt;")
       (replace_all 38 (js "&amp;") (or_else (Some s) []))).

(** LineTerminator: what [.] does not match. *)
Definition is_line_terminator (c : N) : bool :=
  ((c =? 10) || (c =? 13) || (c =? 8232) || (c =? 8233))%N.

(** After an opening [**], the lazy [(.*?)] grows one code unit at a
    time until [\*\*] matches: it succeeds when [**] comes before any
    line terminator. *)
Fixpoint closes (s : jsstring) : bool :=
  JS.startsWith [42; 42]%N s ||
  match s with
  | [] => false
  | c :: r => negb (is_line_terminator c) && closes r
  end.

(** [s.replace(/\*\*(.*?)\*\*/g, "<strong>$1</strong>")], scanning from
    the left; [inside] holds between the two [**] of a match. *)
Fixpoint bold (inside : bool) (s : jsstring) : jsstring :=
  match s with
  | [] => []
  | c :: r =>
      match r with
      | c' :: r' =>
          if ((c =? 42) && (c' =? 42))%N then
            if inside then js "</strong>" ++ bold false r'
            else if closes r' then js "<strong>" ++ bold true r'
            else c :: bold false r
          else c :: bold inside r
      | [] => c :: bold inside r
      end
  end.

(** Escaping, then line feeds to breaks, then the bold pattern. *)
Definition renderTextMinimalFormatting (text : jsstring) : jsstring :=
  bold false (replace_all 10 (js "<br/>") (escapeHTML text)).

(** ** Handlers of the sessions list and of the settings

    The rows of the sessions list hold their session object [s]; what
    [confirm] and [prompt] return is an argument of the handler.  The
    calls that redraw the list and the messages change nothing of the
    state below and are left out, as in the handlers above. *)

Definition open_click (s : nat) : M unit :=
  sid <- read (fun w => session_id w s) ;;
  change (set_activeSessionId (Some sid)) ;;
  saveSessions.

(** [newName] is what [prompt] returns: [None] when it is dismissed. *)
Definition rename_click (s : nat) (newName : option jsstring) : M unit :=
  match newName with
  | Some (c :: r) =>
      update_session s (fun x =>
        mkSession (id x) (c :: r) (createdAtISO x) (updatedAtISO x) (messages x)) ;;
      now <- read nowISO ;;
      set_updatedAtISO s now ;;
      saveSessions
  | _ => ret tt
  end.

(** [uuid] is what [crypto.randomUUID()] returns if the last session
    goes and a new one is made. *)
Definition delete_click (s : nat) (confirmed : bool) (uuid : jsstring) : M unit :=
  if negb confirmed then ret tt
  else
    sid <- read (fun w => session_id w s) ;;
    change (fun w =>
      set_sessions
        (filter (fun x => negb (JS.eqb (session_id w x) sid)) (sessions w)) w) ;;
    active <- read activeSessionId ;;
    (if match active with
        | Some a => JS.eqb a sid
        | None => false
        end
     then
       remaining <- read sessions ;;
       match remaining with
       | first :: _ =>
           fid <- read (fun w => session_id w first) ;;
           change (set_activeSessionId (Some fid))
       | [] => createNewSession uuid [] ;; ret tt
       end
     else ret tt) ;;
    saveSessions.

(** The [change] handler of the language select of the settings. *)
Definition settingsLang_change (value uuid : jsstring) : M unit :=
  change (set_ls_language (Some value)) ;;
  createNewSession uuid
    (if JS.eqb value (js "mr")
     then [2344; 2357; 2368; 2344; 32; 2360; 2354; 2381; 2354; 2366; 2350;
           2360; 2354; 2340]%N
     else js "New Consultation") ;;
  showToast (ToastLanguage (pick_language value)).

(** ** The export of a session *)

(** [\w], and what [[^\w\-]] leaves alone. *)
Definition is_word (c : N) : bool :=
  is_latin c || JS.is_digit c || (c =? 95)%N.

Definition name_unit (c : N) : bool := is_word c || (c =? 45)%N.

(** [s.replace(/[^\w\-]+/g, "_")]: each run of other code units becomes
    one underscore; [in_run] holds inside such a run. *)
Fixpoint replace_runs (in_run : bool) (s : jsstring) : jsstring :=
  match s with
  | [] => []
  | c :: r =>
      if name_unit c then c :: replace_runs false r
      else if in_run then replace_runs true r
      else 95%N :: replace_runs true r
  end.

(** The name the click handler of the export button gives to the file
    of the current session: [`${name}.json`] with
    [name = (session.title || "session").replace(/[^\w\-]+/g, "_")]. *)
Definition export_file_name (title : jsstring) : jsstring :=
  let name := replace_runs false (or_else (Some title) (js "session")) in
  name ++ js ".json".

(** ** Vocabulary of the properties *)

(** The calendar on its own terms: the length of a month and the date
    that follows a date. *)
Definition days_in_month (y m : Z) : Z :=
  if (m =? 2)%Z then (if ES.is_leap y then 29 else 28)%Z
  else if ((m =? 4) || (m =? 6) || (m =? 9) || (m =? 11))%Z then 30%Z
  else 31%Z.

Definition next_day (p : ES.DateParts) : ES.DateParts :=
  let '(y, m, d) := (ES.yyyy p, ES.mm p, ES.dd p) in
  if (d <? days_in_month y m)%Z then ES.mkDateParts y m (d + 1)
  else if (m <? 12)%Z then ES.mkDateParts y (m + 1) 1
  else ES.mkDateParts (y + 1) 1 1.

(** The Gregorian date of a time value on the UTC wall clock. *)
Definition utc_date (t : Z) : ES.DateParts :=
  ES.local_date (fun _ => 0%Z) t.

(** The text [yyyy-mm-dd] of a calendar date. *)
Definition iso_text (p : ES.DateParts) : jsstring :=
  JS.of_Z (ES.yyyy p) ++ js "-" ++ ES.two_digits (ES.mm p) ++ js "-"
  ++ ES.two_digits (ES.dd p).

(** The date in India at an instant. *)
Definition date_in_india (t : Z) : ES.DateParts :=
  ES.local_date ES.Asia_Kolkata t.

(** The construction of [addDaysIST] on the date parts of any zone: UTC
    midnight of the date in the zone, then [days] days on by
    [setUTCDate]. *)
Definition add_days_by_parts (zone : ES.Zone) (now days : Z) : option Z :=
  let p := ES.local_date zone now in
  let dt := ES.Date_UTC (Some (ES.yyyy p)) (Some (ES.mm p - 1)%Z) (Some (ES.dd p)) in
  ES.setUTCDate dt (option_map (fun d => d + days)%Z (ES.getUTCDate dt)).

(** The language a system text names, if it names one. *)
Definition language_of (text : SystemText) : option LanguageName :=
  match text with
  | InterpreterPrompt _ _ _ _ _ _ l => Some l
  | GurujiSystemInstruction _ _ l => Some l
  | TranslatorInstruction => None
  end.

(** What [callGuruji] does to the page on entering and on leaving its
    [try] block. *)
Definition turn_start (w : World) : World :=
  emit (EvTyping true) (emit (EvSendingDisabled true) w).

Definition turn_end (w : World) : World :=
  emit (EvSendingDisabled false) (emit (EvTyping false) w).

(** The calls to the generation service in a trace, in order. *)
Definition fetches (tr : list Event) : list (Url * Payload) :=
  flat_map (fun e => match e with
                     | EvFetch url _ payload _ => [(url, payload)]
                     | _ => []
                     end) tr.

Definition is_translation (call : Url * Payload) : bool :=
  match systemInstruction (snd call) with
  | TranslatorInstruction => true
  | _ => false
  end.

Definition user_turn (text : jsstring) : Content := mkContent (js "user") text.

(** The request of the corrective translation of [replyText]. *)
Definition translation_payload (replyText : jsstring) : Payload :=
  mkPayload TranslatorInstruction [user_turn replyText]
    (mkConfig 20 None None 1400).

(** A detail of an error body that is not a RetryInfo: an object whose
    ["@type"] is absent, or is a string that does not mention it. *)
Definition other_detail (d : json) : Prop :=
  exists fields,
    d = JObj fields /\
    (Json.lookup (js "@type") fields = None \/
     exists ty, Json.lookup (js "@type") fields = Some (JStr ty) /\
                JS.includes (js "RetryInfo") ty = false).

(** The error body of section 6:
    [{ error: { details: [ ..., { "@type": ".../RetryInfo", retryDelay }, ... ] } }],
    the RetryInfo being the first of its kind among the details. *)
Definition carries_retry_delay (b : Body) (retryDelay : jsstring) : Prop :=
  exists top err before d after ty,
    body_parse b = Some (JObj top) /\
    Json.lookup (js "error") top = Some (JObj err) /\
    Json.lookup (js "details") err = Some (JArr (before ++ JObj d :: after)) /\
    Forall other_detail before /\
    Json.lookup (js "@type") d = Some (JStr ty) /\
    JS.includes (js "RetryInfo") ty = true /\
    Json.lookup (js "retryDelay") d = Some (JStr retryDelay).

(** The text ["<n>s"]. *)
Definition seconds (n : Z) : jsstring := JS.of_Z n ++ js "s".

(** The turn passes both guards and the Interpreter stage, and its
    Generating call returns [result], leaving the page in [w2]. *)
Definition reaches_generating (session : nat) (rawUserText : jsstring)
    (w : World) (result : FetchResult) (w2 : World) : Prop :=
  JS.eqb (getApiKey w) [] = false /\
  onLine w = true /\
  exists rewritten w1,
    interpretUserQuery rawUserText (getApiKey w) (turn_start w)
      = (Val rewritten, w1) /\
    geminiFetch GURUJI_URL (getApiKey w)
      (buildGurujiPayload w1 (session_messages w1 session) rewritten) 30000 w1
      = (Val result, w2).

(** A successful response whose text is empty once trimmed. *)
Definition empty_output (json : json) : Prop :=
  exists text, extractTextFromGemini json = Val text /\ JS.trim text = [].

(** The next exchange with the network ends a call of [timeoutMs] in
    failure: no exchange left, the timer fires first, the call is
    rejected, the status is not 2xx, or the text is empty. *)
Definition call_fails (timeoutMs : Z) (net : list NetStep) : Prop :=
  match net with
  | [] => True
  | step :: _ =>
      (timeoutMs <= elapsed step)%Z \/
      (exists message, outcome step = Rejected message) \/
      (exists status body,
          outcome step = Responded status body /\
          (~ (200 <= status <= 299)%Z \/ empty_output (safeParseJSON body)))
  end.

(** A value that is neither an array nor an object. *)
Definition scalar (v : json) : Prop :=
  match v with
  | JArr _ | JObj _ => False
  | _ => True
  end.

(** A part the extraction can read: not [null], its [text] absent or a
    scalar. *)
Definition readable_part (p : json) : Prop :=
  p <> JNull /\
  match Json.prop (js "text") p with
  | Some v => scalar v
  | None => True
  end.

(** What a handler that runs while a call is pending lets the page do:
    it saves the sessions and shows the toast of the language mode. *)
Definition from_handler (e : Event) : Prop :=
  match e with
  | EvSaveSessions _ _ => True
  | EvToast (ToastLanguage _) => True
  | _ => False
  end.

(** A result that carries no text: the caller keeps what it had. *)
Definition no_text (result : FetchResult) : Prop :=
  match result with
  | Failed _ _ => True
  | Succeeded _ json _ => empty_output json
  end.

(** No handler runs while the calls of the turn are pending. *)
Definition undisturbed (net : list NetStep) : Prop :=
  Forall (fun step => during step = []) net.

(** The language a request was composed for; a translation is only
    ever asked for in Marathi mode. *)
Definition composed_for (lang : jsstring) (p : Payload) : Prop :=
  match systemInstruction p with
  | InterpreterPrompt _ _ _ _ _ _ l => l = pick_language lang
  | GurujiSystemInstruction _ _ l => l = pick_language lang
  | TranslatorInstruction => lang = js "mr"
  end.

(** ** Sample data *)

Module Sample.

Definition body_of (j : json) : Body := mkBody [] (Some j).

(** [{ candidates: [ { content: { parts: [ { text } ] } } ] }] *)
Definition reply_json (text : jsstring) : json :=
  JObj [(js "candidates",
         JArr [JObj [(js "content",
                      JObj [(js "parts", JArr [JObj [(js "text", JStr text)]])])]])].

(** The 429 body of the design document, with the given delay. *)
Definition retry_json (retryDelay : jsstring) : json :=
  JObj [(js "error",
         JObj [(js "details",
                JArr [JObj [(js "@type",
                             JStr (js "type.googleapis.com/google.rpc.RetryInfo"));
                            (js "retryDelay", JStr retryDelay)]])])].

(** A success envelope whose only part is [null]. *)
Definition null_part_json : json :=
  JObj [(js "candidates",
         JArr [JObj [(js "content", JObj [(js "parts", JArr [JNull])])]])].

Definition replies (text : jsstring) : NetStep :=
  mkNetStep [] 100 (Responded 200 (body_of (reply_json text))).

Definition answers (status : Z) (j : json) : NetStep :=
  mkNetStep [] 100 (Responded status (body_of j)).

(** 2026-11-02 04:50 UTC, 10:20 in India. *)
Definition t0 : Z := 1793595000000.

Definition consultation (msgs : list Message) : Session :=
  mkSession (js "s1") (js "New Consultation") 0 0 msgs.

(** A page with one consultation, a key, Marathi mode, on line. *)
Definition page (msgs : list Message) (retry : option PendingRetry)
    (net : list NetStep) : World :=
  mkWorld [consultation msgs] [0%nat] (Some (js "s1")) retry (Some (js "key"))
    None true t0 net [].

Definition said (r text : string) : Message := mkMessage (js r) (js text) 0.

(** Nineteen messages, the last one from the user. *)
Definition long_log : list Message :=
  flat_map (fun _ => [said "user" "q"; said "assistant" "a"]) (seq 0 9)
  ++ [said "user" "udya agnivas?"].

(** Forty Latin letters, and forty-one. *)
Definition forty : jsstring := repeat 97%N 40.
Definition forty_one : jsstring := repeat 97%N 41.

Definition token : PendingRetry := mkPendingRetry (js "s1") (js "hi") t0.

(** A zone with a summer-time switch: one hour ahead of UTC until
    2026-03-29 01:00 UTC, two hours from then on. *)
Definition summer_zone : ES.Zone :=
  fun t => if (t <? 1774746000000)%Z then 3600000%Z else 7200000%Z.

(** A zone west of Greenwich with a summer-time switch: five hours
    behind UTC until 2026-03-08 07:00 UTC, four hours from then on. *)
Definition western_zone : ES.Zone :=
  fun t => if (t <? 1772953200000)%Z then (-18000000)%Z else (-14400000)%Z.

End Sample.

(** ** What waiting for the network leaves alone

    [keeps w w']: from [w] to [w'] the trace has only grown, every
    session object is still what it was, and the retry token, the key
    and the connectivity flag are untouched. *)
Record keeps (w w' : World) : Prop := mk_keeps {
  keeps_trace : exists l, trace w' = trace w ++ l;
  keeps_heap : forall ref s, deref w ref = Some s -> deref w' ref = Some s;
  keeps_retry : pendingRetry w' = pendingRetry w;
  keeps_key : ls_api_key w' = ls_api_key w;
  keeps_online : onLine w' = onLine w
}.

(** A piece of code that only does what [keeps] allows. *)
Definition Keeps {A} (c : M A) : Prop := forall w, keeps w (snd (c w)).

(** ** A turn that nothing disturbs

    [quiet lang w w']: from [w] to [w'] the exchanges still to come are
    undisturbed, the language mode is [lang], and every call made was
    composed for [lang]. *)
Definition quiet (lang : jsstring) (w w' : World) : Prop :=
  undisturbed (network w') /\
  getLanguage w' = lang /\
  exists calls,
    fetches (trace w') = fetches (trace w) ++ calls /\
    Forall (fun call => composed_for lang (snd call)) calls.

Definition Quiet {A} (lang : jsstring) (c : M A) : Prop :=
  forall w,
    undisturbed (network w) -> getLanguage w = lang -> quiet lang w (snd (c w)).

(** A change of the page that touches neither the exchanges to come,
    nor the language mode, nor the calls made. *)
Definition silent (f : World -> World) : Prop :=
  forall w,
    network (f w) = network w /\
    ls_language (f w) = ls_language w /\
    fetches (trace (f w)) = fetches (trace w).

(** ** Vocabulary of the further properties *)

(** The entity of one code unit, and the markup a message may turn
    into: text free of angle brackets and line feeds, breaks, and
    [strong] spans that are closed and not nested (the flag says
    whether a span is open). *)
Definition escape_unit (c : N) : jsstring :=
  if (c =? 38)%N then js "&amp;"
  else if (c =? 60)%N then js "&lt;"
  else if (c =? 62)%N then js "&gt;"
  else [c].

Inductive markup : bool -> jsstring -> Prop :=
| markup_end : markup false []
| markup_unit b c s :
    c <> 60%N -> c <> 62%N -> c <> 10%N -> markup b s -> markup b (c :: s)
| markup_br b s : markup b s -> markup b (js "<br/>" ++ s)
| markup_open s : markup true s -> markup false (js "<strong>" ++ s)
| markup_close s : markup false s -> markup true (js "</strong>" ++ s).

(** One code unit of a message as it reaches the bold pattern: escaped,
    a line feed turned into a break. *)
Definition render_unit (c : N) : jsstring :=
  if (c =? 10)%N then js "<br/>" else escape_unit c.

(** What can happen to the page. *)
Inductive PageEvent : Type :=
| Submit (rawText : jsstring)
| Online
| ToggleLanguage (uuid : jsstring)
| ChooseLanguage (value uuid : jsstring)
| OpenSession (s : nat)
| RenameSession (s : nat) (newName : option jsstring)
| DeleteSession (s : nat) (confirmed : bool) (uuid : jsstring).

Definition handle (e : PageEvent) : M unit :=
  match e with
  | Submit rawText => insertUserMessage rawText
  | Online => on_online
  | ToggleLanguage uuid => langToggle_click uuid
  | ChooseLanguage value uuid => settingsLang_change value uuid
  | OpenSession s => open_click s
  | RenameSession s newName => rename_click s newName
  | DeleteSession s confirmed uuid => delete_click s confirmed uuid
  end.

(** The event can happen: a row of the sessions list is the row of a
    listed session. *)
Definition listed (w : World) (e : PageEvent) : Prop :=
  match e with
  | OpenSession s | RenameSession s _ | DeleteSession s _ _ => In s (sessions w)
  | _ => True
  end.

(** Every listed session is an object of the page, and one of them is
    the active one. *)
Definition page_ok (w : World) : Prop :=
  Forall (fun ref => ref < length (heap w))%nat (sessions w) /\
  exists ref, getActiveSession w = Some ref.

(** A piece of code that keeps the page so. *)
Definition Tidy {A} (c : M A) : Prop :=
  forall w, page_ok w -> page_ok (snd (c w)).

(** No two listed sessions carry the same id. *)
Definition unique_ids (w : World) : Prop :=
  NoDup (map (session_id w) (sessions w)).

(** A text with something in it and no white space around it. *)
Definition trimmed (s : jsstring) : Prop := s <> [] /\ JS.trim s = s.

(** The title [updateSessionTitleFromFirstMessage] makes of a text. *)
Definition short_title (text : jsstring) : jsstring :=
  firstn 32 text ++ (if (32 <? length text)%nat then [8230%N] else []).

(** From [w] to [w'] every session object is still there, with its
    id and its title. *)
Definition keeps_titles (w w' : World) : Prop :=
  forall ref s,
    deref w ref = Some s ->
    exists s', deref w' ref = Some s' /\ id s' = id s /\ title s' = title s.

(** [m.role === "user"] *)
Definition is_user (m : Message) : bool := JS.eqb (role m) (js "user").

(** The text [dd Month yyyy] of a calendar date. *)
Definition human_text (p : ES.DateParts) : jsstring :=
  ES.two_digits (ES.dd p) ++ js " " ++ ES.month_long (ES.mm p) ++ js " "
  ++ JS.of_Z (ES.yyyy p).

(** * Properties *)

(** ** Strings and decimal numerals *)

Lemma jseqb_eq a b : JS.eqb a b = true <-> a = b.
Proof. unfold JS.eqb. destruct (list_eq_dec N.eq_dec a b); split; congruence. Qed.

Lemma jseqb_refl a : JS.eqb a a = true.
Proof. now apply jseqb_eq. Qed.

Lemma jseqb_neq a b : JS.eqb a b = false <-> a <> b.
Proof. unfold JS.eqb. destruct (list_eq_dec N.eq_dec a b); split; congruence. Qed.

Ltac eval_digit :=
  unfold js; cbn [NilEmpty.string_of_uint list_ascii_of_string map];
  fold (js);
  match goal with
  | |- context [N_of_ascii ?a] =>
      let v := eval vm_compute in (N_of_ascii a) in change (N_of_ascii a) with v
  end.

Ltac eval_is_digit :=
  match goal with
  | |- context [is_digit ?c] =>
      let v := eval vm_compute in (is_digit c) in change (is_digit c) with v
  end.

Lemma digits_of_uint_acc l acc :
  digits_value (Zpos acc) (js (NilEmpty.string_of_uint l))
  = Zpos (Pos.of_uint_acc l acc).
Proof.
  revert acc. induction l; intros acc; [reflexivity | ..];
    eval_digit; cbn [digits_value Pos.of_uint_acc]; eval_is_digit; cbv iota;
    rewrite <- IHl; f_equal; lia.
Qed.

Lemma digits_of_uint d :
  digits_value 0 (js (NilEmpty.string_of_uint d)) = Z.of_N (Pos.of_uint d).
Proof.
  induction d; [reflexivity | ..];
    eval_digit; cbn [digits_value Pos.of_uint]; eval_is_digit; cbv iota;
    [exact IHd | ..]; apply (digits_of_uint_acc d).
Qed.

Lemma digits_only d : Forall (fun c => is_digit c = true) (js (NilEmpty.string_of_uint d)).
Proof.
  induction d; [constructor | ..]; eval_digit; constructor; auto.
Qed.

Lemma nonnil_string u :
  u <> Decimal.Nil ->
  NilZero.string_of_uint u = NilEmpty.string_of_uint u /\
  js (NilEmpty.string_of_uint u) <> [].
Proof.
  destruct u; intros H; try congruence; (split; [reflexivity | ]);
    eval_digit; discriminate.
Qed.

Lemma of_Z_digits n :
  (0 <= n)%Z ->
  exists c r, of_Z n = c :: r /\ Forall (fun c => is_digit c = true) (c :: r) /\
              digits_value 0 (c :: r) = n.
Proof.
  intros H. unfold of_Z. destruct n as [| p | p]; [ | | lia].
  - exists 48%N, []. repeat split. repeat constructor.
  - cbn [Z.to_int NilZero.string_of_int].
    destruct (nonnil_string _ (Unsigned.to_uint_nonnil p)) as [-> NE].
    pose proof (digits_only (Pos.to_uint p)) as D.
    pose proof (digits_of_uint (Pos.to_uint p)) as V.
    rewrite Unsigned.of_to in V.
    destruct (js (NilEmpty.string_of_uint (Pos.to_uint p))) as [| c r];
      [congruence | eauto].
Qed.

Lemma digit_facts c :
  is_digit c = true -> is_ws c = false /\ c <> 45%N /\ c <> 43%N /\ (c =? 115)%N = false.
Proof.
  unfold is_digit, is_ws. intros H. apply andb_true_iff in H as [A B].
  apply N.leb_le in A, B.
  repeat split; try lia.
  - repeat (apply orb_false_iff; split); try (apply N.eqb_neq; lia);
      apply andb_false_iff; (left; apply N.leb_gt; lia) || (right; apply N.leb_gt; lia).
  - apply N.eqb_neq. lia.
Qed.

Lemma to_double_safe n :
  (0 <= n <= MAX_SAFE_INTEGER)%Z -> to_double n = Some n.
Proof.
  intros H. unfold to_double.
  replace (Z.abs n <=? 2 ^ 53)%Z with true; [reflexivity | ].
  symmetry. apply Z.leb_le. unfold MAX_SAFE_INTEGER in H. lia.
Qed.

Lemma parseInt10_of_Z n :
  (0 <= n <= MAX_SAFE_INTEGER)%Z -> parseInt10 (of_Z n) = Finite n.
Proof.
  intros H. destruct (of_Z_digits n (proj1 H)) as (c & r & E & D & V).
  rewrite E. pose proof (Forall_inv D) as Dc.
  destruct (digit_facts _ Dc) as (W & M & P & _).
  unfold parseInt10. cbn [trimStart]. rewrite W.
  apply N.eqb_neq in M, P. rewrite M, P. cbn [orb].
  rewrite Dc, V. replace (1 * n)%Z with n by lia.
  now rewrite (to_double_safe n H).
Qed.

Lemma replace1_digits s :
  Forall (fun c => is_digit c = true) s -> replace1 115 (s ++ [115%N]) = s.
Proof.
  induction 1 as [| c r Dc _ IH]; [reflexivity | ].
  cbn. destruct (digit_facts _ Dc) as (_ & _ & _ & S). rewrite S. now f_equal.
Qed.

Lemma endsWith_s s : endsWith (js "s") (s ++ [115%N]) = true.
Proof. unfold endsWith. rewrite rev_app_distr. reflexivity. Qed.

Lemma seconds_parse n :
  (0 <= n <= MAX_SAFE_INTEGER)%Z ->
  exists c r, seconds n = c :: r /\ endsWith (js "s") (seconds n) = true /\
              parseInt10 (replace1 115 (seconds n)) = Finite n.
Proof.
  intros H. destruct (of_Z_digits n (proj1 H)) as (c & r & E & D & V).
  unfold seconds. change (js "s") with [115%N] at 1 2.
  exists c, (r ++ [115%N]). rewrite E at 1. split; [reflexivity | ].
  split; [apply endsWith_s | ].
  rewrite E, replace1_digits by exact D. rewrite <- E. now apply parseInt10_of_Z.
Qed.

(** ** Reading the retry delay *)

Lemma other_detail_skipped d : other_detail d -> is_retry_info d = Val false.
Proof.
  intros (fields & -> & [N | (ty & T & I)]); unfold is_retry_info; cbn [Json.prop].
  - now rewrite N.
  - now rewrite T, I.
Qed.

Lemma find_retry_info_first before d after ty :
  Forall other_detail before ->
  Json.lookup (js "@type") d = Some (JStr ty) ->
  includes (js "RetryInfo") ty = true ->
  find_retry_info (before ++ JObj d :: after) = Val (Some (JObj d)).
Proof.
  intros F T I. induction F as [| x l Hx _ IH]; cbn [app find_retry_info].
  - unfold is_retry_info. cbn [Json.prop]. now rewrite T, I.
  - now rewrite (other_detail_skipped _ Hx).
Qed.

Lemma parse_carried_delay b retryDelay :
  carries_retry_delay b retryDelay ->
  parseRetryDelaySeconds b =
    if Json.truthy (Some (JStr retryDelay)) && endsWith (js "s") retryDelay
    then finite_or_null (parseInt10 (replace1 115 retryDelay)) else None.
Proof.
  intros (top & err & before & d & after & ty & P & E & D & F & T & I & R).
  unfold parseRetryDelaySeconds, details_find. rewrite P.
  cbn [Json.opt_prop Json.prop]. rewrite E.
  cbn [Json.opt_prop Json.prop]. rewrite D.
  rewrite (find_retry_info_first before d after ty F T I).
  cbn [Json.opt_prop Json.prop]. now rewrite R.
Qed.

Lemma parse_seconds b n :
  (0 <= n <= MAX_SAFE_INTEGER)%Z -> carries_retry_delay b (seconds n) ->
  parseRetryDelaySeconds b = Some n.
Proof.
  intros H C. rewrite (parse_carried_delay _ _ C).
  destruct (seconds_parse n H) as (c & r & E & S & V).
  rewrite S, V, E. reflexivity.
Qed.

Lemma sample_body_carries retryDelay :
  carries_retry_delay (Sample.body_of (Sample.retry_json retryDelay)) retryDelay.
Proof.
  unfold Sample.retry_json.
  do 2 eexists. exists []. do 3 eexists.
  repeat split; try reflexivity. constructor.
Qed.


(** ** The calendar and the grounded dates *)

Section Calendar.

Local Open Scope Z_scope.

Lemma DayFromYear_succ y :
  ES.DayFromYear (y + 1) = ES.DayFromYear y + ES.DaysInYear y.
Proof.
  unfold ES.DayFromYear, ES.DaysInYear, ES.is_leap.
  destruct (Z.eqb_spec (y mod 4) 0), (Z.eqb_spec (y mod 100) 0),
    (Z.eqb_spec (y mod 400) 0); cbn [negb andb orb];
    Z.div_mod_to_equations; lia.
Qed.

Lemma YearFromDay_spec n :
  ES.DayFromYear (ES.YearFromDay n) <= n < ES.DayFromYear (ES.YearFromDay n + 1).
Proof.
  unfold ES.YearFromDay.
  destruct (Z.ltb_spec n (ES.DayFromYear (1970 + 400 * n / 146097))) as [L | L].
  - unfold ES.DayFromYear in *. Z.div_mod_to_equations. lia.
  - destruct (Z.leb_spec (ES.DayFromYear (1970 + 400 * n / 146097 + 1)) n) as [G | G].
    + unfold ES.DayFromYear in *. Z.div_mod_to_equations. lia.
    + lia.
Qed.

Lemma DayFromYear_mono a b : a <= b -> ES.DayFromYear a <= ES.DayFromYear b.
Proof. unfold ES.DayFromYear. intros. Z.div_mod_to_equations. lia. Qed.

Lemma YearFromDay_unique n y :
  ES.DayFromYear y <= n < ES.DayFromYear (y + 1) -> ES.YearFromDay n = y.
Proof.
  intros H. pose proof (YearFromDay_spec n) as S.
  destruct (Z.lt_trichotomy (ES.YearFromDay n) y) as [L | [E | G]]; [ | exact E | ].
  - pose proof (DayFromYear_mono (ES.YearFromDay n + 1) y). lia.
  - pose proof (DayFromYear_mono (y + 1) (ES.YearFromDay n)). lia.
Qed.

Lemma DayWithinYear_range t :
  0 <= ES.DayWithinYear t < ES.DaysInYear (ES.YearFromTime t).
Proof.
  unfold ES.DayWithinYear, ES.YearFromTime.
  pose proof (YearFromDay_spec (ES.Day t)) as S.
  rewrite DayFromYear_succ in S. lia.
Qed.

Ltac split_ltb :=
  repeat match goal with
         | |- context [Z.ltb ?a ?b] => destruct (Z.ltb_spec a b)
         end.

Lemma MonthFromTime_range t : 0 <= ES.MonthFromTime t <= 11.
Proof. unfold ES.MonthFromTime. split_ltb; lia. Qed.

Lemma MakeDay_of_date t k :
  ES.MakeDay (ES.YearFromTime t) (ES.MonthFromTime t) (ES.DateFromTime t + k)
  = ES.Day t + k.
Proof.
  pose proof (DayWithinYear_range t) as R.
  pose proof (MonthFromTime_range t) as M.
  unfold ES.MakeDay.
  rewrite (Z.div_small (ES.MonthFromTime t) 12), (Z.mod_small (ES.MonthFromTime t) 12) by lia.
  rewrite Z.add_0_r.
  assert (ES.month_start (ES.MonthFromTime t) (if ES.is_leap (ES.YearFromTime t) then 1 else 0)
          + ES.DateFromTime t - 1 = ES.DayWithinYear t) as E.
  { unfold ES.DateFromTime, ES.MonthFromTime, ES.InLeapYear, ES.DaysInYear in *.
    destruct (ES.is_leap (ES.YearFromTime t)); split_ltb; cbn [ES.month_start]; lia. }
  unfold ES.DayWithinYear in E. lia.
Qed.

Lemma same_day t1 t2 :
  ES.Day t1 = ES.Day t2 ->
  ES.YearFromTime t1 = ES.YearFromTime t2 /\
  ES.MonthFromTime t1 = ES.MonthFromTime t2 /\
  ES.DateFromTime t1 = ES.DateFromTime t2.
Proof.
  intros E.
  unfold ES.DateFromTime, ES.MonthFromTime, ES.InLeapYear, ES.DayWithinYear,
    ES.YearFromTime.
  rewrite E. auto.
Qed.

Lemma YearFromTime_epoch t : 0 <= t -> 1970 <= ES.YearFromTime t.
Proof.
  intros H. unfold ES.YearFromTime.
  pose proof (YearFromDay_spec (ES.Day t)) as S.
  assert (0 <= ES.Day t) by (unfold ES.Day, ES.msPerDay; Z.div_mod_to_equations; lia).
  destruct (Z.le_gt_cases 1970 (ES.YearFromDay (ES.Day t))) as [G | G]; [exact G | ].
  pose proof (DayFromYear_mono (ES.YearFromDay (ES.Day t) + 1) 1970).
  change (ES.DayFromYear 1970) with 0 in *. lia.
Qed.

Lemma utc_date_succ t1 t2 :
  ES.Day t2 = ES.Day t1 + 1 -> utc_date t2 = next_day (utc_date t1).
Proof.
  intros E. unfold utc_date, ES.local_date. rewrite !Z.add_0_r.
  pose proof (YearFromDay_spec (ES.Day t1)) as S1.
  pose proof (DayFromYear_succ (ES.YearFromDay (ES.Day t1))) as Y1.
  destruct (Z.lt_ge_cases (ES.Day t1 + 1) (ES.DayFromYear (ES.YearFromDay (ES.Day t1) + 1)))
    as [In | Out].
  - assert (ES.YearFromTime t2 = ES.YearFromTime t1) as EY.
    { unfold ES.YearFromTime. rewrite E. apply YearFromDay_unique. lia. }
    assert (ES.DayWithinYear t2 = ES.DayWithinYear t1 + 1) as ED.
    { unfold ES.DayWithinYear. rewrite EY, E. lia. }
    pose proof (DayWithinYear_range t1) as R1.
    pose proof (DayWithinYear_range t2) as R2. rewrite EY, ED in R2.
    unfold next_day, days_in_month, ES.DateFromTime, ES.MonthFromTime,
      ES.InLeapYear, ES.DaysInYear in *.
    rewrite EY, ED. cbn [ES.yyyy ES.mm ES.dd].
    set (d := ES.DayWithinYear t1) in *.
    destruct (ES.is_leap (ES.YearFromTime t1));
      repeat match goal with
             | |- context [Z.ltb d ?b] => destruct (Z.ltb_spec d b)
             end; try lia; cbn; split_ltb; try lia; f_equal; lia.
  - assert (ES.YearFromTime t2 = ES.YearFromTime t1 + 1) as EY.
    { unfold ES.YearFromTime. rewrite E. apply YearFromDay_unique.
      rewrite (DayFromYear_succ (ES.YearFromDay (ES.Day t1) + 1)).
      unfold ES.DaysInYear. destruct (ES.is_leap _); lia. }
    assert (ES.DayWithinYear t2 = 0) as ED.
    { unfold ES.DayWithinYear. rewrite EY, E. unfold ES.YearFromTime. lia. }
    assert (ES.DayWithinYear t1 = ES.DaysInYear (ES.YearFromTime t1) - 1) as ED1.
    { unfold ES.DayWithinYear, ES.YearFromTime. lia. }
    unfold next_day, days_in_month, ES.DateFromTime, ES.MonthFromTime,
      ES.InLeapYear, ES.DaysInYear in *.
    rewrite ED, ED1. cbn [ES.yyyy ES.mm ES.dd].
    destruct (ES.is_leap (ES.YearFromTime t1)), (ES.is_leap (ES.YearFromTime t2));
      cbn; rewrite EY; reflexivity.
Qed.

Lemma Day_MakeDate n r : 0 <= r < ES.msPerDay -> ES.Day (ES.MakeDate n r) = n.
Proof.
  unfold ES.Day, ES.MakeDate, ES.msPerDay. intros. Z.div_mod_to_equations. lia.
Qed.

(** [MakeDay] is the day ECMA-262 asks for: that of the time value
    whose year and month are the given ones and whose date is 1. *)
Lemma MakeDay_meets_definition y m :
  0 <= m <= 11 ->
  let t := ES.MakeDate (ES.MakeDay y m 1) 0 in
  ES.YearFromTime t = y /\ ES.MonthFromTime t = m /\ ES.DateFromTime t = 1.
Proof.
  intros Hm t.
  assert (ES.Day t = ES.DayFromYear y
                     + ES.month_start m (if ES.is_leap y then 1 else 0)) as D.
  { unfold t. rewrite Day_MakeDate by (unfold ES.msPerDay; lia).
    unfold ES.MakeDay.
    rewrite (Z.div_small m 12), (Z.mod_small m 12) by lia.
    rewrite Z.add_0_r. lia. }
  assert (0 <= ES.month_start m (if ES.is_leap y then 1 else 0) < ES.DaysInYear y) as R.
  { unfold ES.DaysInYear.
    assert (m = 0 \/ m = 1 \/ m = 2 \/ m = 3 \/ m = 4 \/ m = 5 \/ m = 6 \/ m = 7
            \/ m = 8 \/ m = 9 \/ m = 10 \/ m = 11) as C by lia.
    destruct (ES.is_leap y);
      repeat (destruct C as [-> | C]; [cbn; lia | ]); subst m; cbn; lia. }
  assert (ES.YearFromTime t = y) as Y.
  { unfold ES.YearFromTime. apply YearFromDay_unique.
    rewrite DayFromYear_succ. lia. }
  assert (ES.DayWithinYear t
          = ES.month_start m (if ES.is_leap y then 1 else 0)) as W
    by (unfold ES.DayWithinYear; rewrite Y; lia).
  split; [exact Y | ].
  unfold ES.DateFromTime, ES.MonthFromTime, ES.InLeapYear.
  rewrite W, Y. unfold ES.DaysInYear in R.
  assert (m = 0 \/ m = 1 \/ m = 2 \/ m = 3 \/ m = 4 \/ m = 5 \/ m = 6 \/ m = 7
          \/ m = 8 \/ m = 9 \/ m = 10 \/ m = 11) as C by lia.
  destruct (ES.is_leap y);
    repeat (destruct C as [-> | C]; [split; reflexivity | ]); subst m;
    split; reflexivity.
Qed.


Lemma DateFromTime_range t : 1 <= ES.DateFromTime t <= 31.
Proof.
  pose proof (DayWithinYear_range t) as R.
  unfold ES.DateFromTime, ES.MonthFromTime, ES.InLeapYear, ES.DaysInYear in *.
  destruct (ES.is_leap (ES.YearFromTime t)); split_ltb; cbn; lia.
Qed.

(** The date parts of an instant taken to UTC midnight and moved on by
    [k] days: the time value of midnight, [k] days later, whatever the
    offset of the zone, as long as the local time is in the range. *)
Lemma add_days_from_local (zone : ES.Zone) (now k : Z) :
  0 <= now + zone now ->
  0 <= k ->
  now + zone now + k * ES.msPerDay <= ES.maxTime ->
  let p := ES.local_date zone now in
  let dt := ES.Date_UTC (Some (ES.yyyy p)) (Some (ES.mm p - 1)) (Some (ES.dd p)) in
  ES.setUTCDate dt (option_map (fun d => d + k) (ES.getUTCDate dt))
  = Some (ES.MakeDate (ES.Day (now + zone now) + k) 0).
Proof.
  intros Z0 Hk Hmax p dt.
  set (l := now + zone now) in *.
  assert (1970 <= ES.YearFromTime l) as HY by (apply YearFromTime_epoch; lia).
  assert (0 <= ES.Day l /\ ES.Day l * ES.msPerDay <= l) as [D0 D1].
  { unfold ES.Day, ES.msPerDay in *. Z.div_mod_to_equations. lia. }
  assert (forall j, 0 <= j <= k ->
            ES.TimeClip (ES.MakeDate (ES.Day l + j) 0)
            = Some (ES.MakeDate (ES.Day l + j) 0)) as Clip.
  { intros j Hj. unfold ES.TimeClip.
    replace (Z.abs (ES.MakeDate (ES.Day l + j) 0) <=? ES.maxTime) with true;
      [reflexivity | ].
    symmetry. apply Z.leb_le. unfold ES.MakeDate, ES.msPerDay in *. nia. }
  assert (dt = Some (ES.MakeDate (ES.Day l + 0) 0)) as Edt.
  { unfold dt, p, ES.local_date, ES.Date_UTC. cbn [ES.yyyy ES.mm ES.dd].
    fold l.
    replace ((0 <=? ES.YearFromTime l) && (ES.YearFromTime l <=? 99)) with false
      by (symmetry; apply andb_false_iff; right; apply Z.leb_gt; lia).
    replace (ES.MonthFromTime l + 1 - 1) with (ES.MonthFromTime l) by lia.
    rewrite <- (Z.add_0_r (ES.DateFromTime l)), MakeDay_of_date.
    apply Clip. lia. }
  rewrite Edt, Z.add_0_r. cbn [ES.getUTCDate ES.setUTCDate option_map].
  set (t := ES.MakeDate (ES.Day l) 0).
  assert (ES.Day t = ES.Day l) as Dd
    by (apply Day_MakeDate; unfold ES.msPerDay; lia).
  rewrite MakeDay_of_date, Dd.
  replace (ES.TimeWithinDay t) with 0
    by (unfold t, ES.TimeWithinDay, ES.MakeDate, ES.msPerDay;
        Z.div_mod_to_equations; lia).
  apply Clip. lia.
Qed.

Lemma add_days_in_zone (zone : ES.Zone) (now k : Z) :
  0 <= zone now < ES.msPerDay ->
  0 <= now ->
  0 <= k ->
  now + (k + 1) * ES.msPerDay <= ES.maxTime ->
  let p := ES.local_date zone now in
  let dt := ES.Date_UTC (Some (ES.yyyy p)) (Some (ES.mm p - 1)) (Some (ES.dd p)) in
  ES.setUTCDate dt (option_map (fun d => d + k) (ES.getUTCDate dt))
  = Some (ES.MakeDate (ES.Day (now + zone now) + k) 0).
Proof.
  intros Z0 Hnow Hk Hmax.
  apply add_days_from_local; unfold ES.msPerDay in *; lia.
Qed.

(** Across any change of the offset, as long as the zone stays within
    a day east of Greenwich, the date one day on is the next date. *)
Lemma next_date_in_zone (zone : ES.Zone) (now : Z) :
  (forall u, 0 <= zone u < ES.msPerDay) ->
  0 <= now <= ES.maxTime - 2 * ES.msPerDay ->
  let p := ES.local_date zone now in
  let dt := ES.Date_UTC (Some (ES.yyyy p)) (Some (ES.mm p - 1)) (Some (ES.dd p)) in
  exists t',
    ES.setUTCDate dt (option_map (fun d => d + 1) (ES.getUTCDate dt)) = Some t' /\
    ES.local_date zone t' = next_day p.
Proof.
  intros Hz Hnow p dt.
  exists (ES.MakeDate (ES.Day (now + zone now) + 1) 0). split.
  - apply (add_days_in_zone zone now 1); [apply Hz | lia | lia | ].
    unfold ES.msPerDay in *. lia.
  - set (l := now + zone now). set (t' := ES.MakeDate (ES.Day l + 1) 0).
    assert (ES.Day (t' + zone t') = ES.Day l + 1) as D'.
    { unfold t'. pose proof (Hz (ES.MakeDate (ES.Day l + 1) 0)) as Z1.
      replace (ES.MakeDate (ES.Day l + 1) 0 + zone (ES.MakeDate (ES.Day l + 1) 0))
        with (ES.MakeDate (ES.Day l + 1) (zone (ES.MakeDate (ES.Day l + 1) 0)))
        by (unfold ES.MakeDate; lia).
      now apply Day_MakeDate. }
    pose proof (utc_date_succ l (t' + zone t') D') as U.
    unfold utc_date, ES.local_date in U. rewrite !Z.add_0_r in U.
    exact U.
Qed.

(** West of Greenwich the same construction stays on the date it
    started from: midnight UTC of the next date is there still the
    evening of this one. *)
Lemma same_date_west_of_greenwich (zone : ES.Zone) (now : Z) :
  (forall u, - ES.msPerDay <= zone u < 0) ->
  ES.msPerDay <= now <= ES.maxTime - 2 * ES.msPerDay ->
  exists t',
    add_days_by_parts zone now 1 = Some t' /\
    ES.local_date zone t' = ES.local_date zone now.
Proof.
  intros Hz Hnow.
  exists (ES.MakeDate (ES.Day (now + zone now) + 1) 0). split.
  - unfold add_days_by_parts. pose proof (Hz now) as Z0.
    apply (add_days_from_local zone now 1); unfold ES.msPerDay in *; lia.
  - set (l := now + zone now). set (t' := ES.MakeDate (ES.Day l + 1) 0).
    assert (ES.Day (t' + zone t') = ES.Day l) as D'.
    { unfold t'. pose proof (Hz (ES.MakeDate (ES.Day l + 1) 0)) as Z1.
      replace (ES.MakeDate (ES.Day l + 1) 0 + zone (ES.MakeDate (ES.Day l + 1) 0))
        with (ES.MakeDate (ES.Day l)
                (ES.msPerDay + zone (ES.MakeDate (ES.Day l + 1) 0)))
        by (unfold ES.MakeDate; lia).
      apply Day_MakeDate. lia. }
    unfold ES.local_date. fold l.
    destruct (same_day _ _ D') as (-> & -> & ->). reflexivity.
Qed.

(** *** The texts of a date *)

Lemma two_digits_digits n :
  0 <= n ->
  exists c r, ES.two_digits n = c :: r /\
              Forall (fun c => is_digit c = true) (c :: r) /\
              digits_value 0 (c :: r) = n.
Proof.
  intros H. destruct (of_Z_digits n H) as (c & r & E & D & V).
  unfold ES.two_digits. destruct (n <? 10).
  - exists 48%N, (c :: r). rewrite E. split; [reflexivity | ]. split.
    + constructor; [reflexivity | exact D].
    + exact V.
  - exists c, r. auto.
Qed.

Lemma digit_not_dash s :
  Forall (fun c => is_digit c = true) s -> Forall (fun c => (c =? 45)%N = false) s.
Proof.
  apply Forall_impl. intros c D. destruct (digit_facts c D) as (_ & M & _).
  now apply N.eqb_neq.
Qed.

Lemma split_single s :
  Forall (fun c => (c =? 45)%N = false) s -> split 45 s = [s].
Proof.
  induction 1 as [| c r Hc _ IH]; [reflexivity | ].
  cbn [split]. now rewrite IH, Hc.
Qed.

Lemma split_field s r :
  Forall (fun c => (c =? 45)%N = false) s ->
  split 45 (s ++ 45%N :: r) = s :: split 45 r.
Proof.
  induction 1 as [| c l Hc _ IH]; cbn [app split].
  - destruct (split 45 r) eqn:E; [ | reflexivity].
    destruct r; cbn in E; [discriminate | ].
    destruct (split 45 r); [discriminate | ].
    destruct (n =? 45)%N; discriminate.
  - now rewrite IH, Hc.
Qed.

Lemma trimStart_digits c r : is_digit c = true -> trimStart (c :: r) = c :: r.
Proof.
  intros D. destruct (digit_facts c D) as (W & _). cbn. now rewrite W.
Qed.

Lemma trim_digits s : Forall (fun c => is_digit c = true) s -> trim s = s.
Proof.
  intros D. destruct s as [| c r]; [reflexivity | ].
  unfold trim, trimEnd. rewrite trimStart_digits by exact (Forall_inv D).
  assert (Forall (fun c => is_digit c = true) (rev (c :: r))) as DR
    by (apply Forall_rev; exact D).
  destruct (rev (c :: r)) as [| a l] eqn:E.
  - apply (f_equal (@length N)) in E. rewrite length_rev in E. discriminate.
  - rewrite trimStart_digits by exact (Forall_inv DR).
    rewrite <- E. apply rev_involutive.
Qed.

Lemma toNumber_digits s :
  s <> [] -> Forall (fun c => is_digit c = true) s ->
  toNumber s = Some (digits_value 0 s).
Proof.
  intros NE D. unfold toNumber. rewrite (trim_digits s D).
  destruct s as [| c r]; [congruence | ].
  destruct (digit_facts c (Forall_inv D)) as (_ & M & P & _).
  apply N.eqb_neq in M, P. rewrite M, P. cbn [orb].
  replace (forallb is_digit (c :: r)) with true.
  - f_equal. lia.
  - symmetry. apply forallb_forall. intros x Hx.
    rewrite Forall_forall in D. now apply D.
Qed.

Lemma part_values (v1 v2 v3 : jsstring) :
  let parts := [(js "day", v1); (js "literal", js "/"); (js "month", v2);
                (js "literal", js "/"); (js "year", v3)] in
  part_value (js "day") parts = Some v1 /\
  part_value (js "month") parts = Some v2 /\
  part_value (js "year") parts = Some v3.
Proof. repeat split. Qed.

Lemma date_in_india_range t :
  0 <= t ->
  let p := date_in_india t in
  1970 <= ES.yyyy p /\ 1 <= ES.mm p <= 12 /\ 1 <= ES.dd p <= 31.
Proof.
  intros H p. unfold p, date_in_india, ES.local_date, ES.Asia_Kolkata.
  cbn [ES.yyyy ES.mm ES.dd].
  pose proof (YearFromTime_epoch (t + 19800000)).
  pose proof (MonthFromTime_range (t + 19800000)).
  pose proof (DateFromTime_range (t + 19800000)). lia.
Qed.

(** On a valid date from the epoch on, [istDateISO] is the ISO text of
    the date in India. *)
Lemma istDateISO_text t : 0 <= t -> istDateISO t = iso_text (date_in_india t).
Proof.
  intros H. destruct (date_in_india_range t H) as (Y & M & D).
  unfold istDateISO, getISTDateParts, ES.formatToParts, iso_text.
  fold (date_in_india t).
  destruct (part_values (ES.two_digits (ES.dd (date_in_india t)))
              (ES.two_digits (ES.mm (date_in_india t)))
              (of_Z (ES.yyyy (date_in_india t)))) as (-> & -> & ->).
  cbn [p_dd p_mm p_yyyy].
  destruct (two_digits_digits (ES.dd (date_in_india t))) as (c1 & r1 & -> & _);
    [lia | ].
  destruct (two_digits_digits (ES.mm (date_in_india t))) as (c2 & r2 & -> & _);
    [lia | ].
  destruct (of_Z_digits (ES.yyyy (date_in_india t))) as (c3 & r3 & -> & _);
    [lia | ].
  reflexivity.
Qed.

(** Reading the three fields back from the ISO text. *)
Lemma iso_text_fields p :
  0 <= ES.yyyy p -> 0 <= ES.mm p -> 0 <= ES.dd p ->
  map toNumber (split 45 (iso_text p))
  = [Some (ES.yyyy p); Some (ES.mm p); Some (ES.dd p)].
Proof.
  intros Y M D. unfold iso_text.
  destruct (of_Z_digits (ES.yyyy p) Y) as (c3 & r3 & E3 & D3 & V3).
  destruct (two_digits_digits (ES.mm p) M) as (c2 & r2 & E2 & D2 & V2).
  destruct (two_digits_digits (ES.dd p) D) as (c1 & r1 & E1 & D1 & V1).
  rewrite E1, E2, E3.
  change (js "-") with [45%N]. cbn [app].
  change (c3 :: r3 ++ 45%N :: c2 :: r2 ++ 45%N :: c1 :: r1)
    with ((c3 :: r3) ++ 45%N :: ((c2 :: r2) ++ 45%N :: c1 :: r1)).
  rewrite !split_field, split_single by (apply digit_not_dash; assumption).
  cbn [map]. rewrite !toNumber_digits by (assumption || discriminate).
  now rewrite V1, V2, V3.
Qed.

(** [addDaysIST] on a valid date from the epoch on: midnight UTC of the
    date in India, [days] days later. *)
Lemma addDaysIST_value now days :
  0 <= now -> 0 <= days -> now + (days + 1) * ES.msPerDay <= ES.maxTime ->
  addDaysIST now days
  = Some (ES.MakeDate (ES.Day (now + 19800000) + days) 0).
Proof.
  intros H K B. destruct (date_in_india_range now H) as (Y & M & D).
  unfold addDaysIST. rewrite istDateISO_text, iso_text_fields by lia.
  cbn [nth option_map].
  apply (add_days_in_zone ES.Asia_Kolkata now days); try assumption.
  unfold ES.Asia_Kolkata, ES.msPerDay. lia.
Qed.

Lemma addDaysIST_date now days :
  0 <= now -> 0 <= days -> now + (days + 1) * ES.msPerDay <= ES.maxTime ->
  exists t, addDaysIST now days = Some t /\ 0 <= t /\
            ES.Day (t + 19800000) = ES.Day (now + 19800000) + days.
Proof.
  intros H K B. eexists. split; [now apply addDaysIST_value | ].
  assert (0 <= ES.Day (now + 19800000))
    by (unfold ES.Day, ES.msPerDay; Z.div_mod_to_equations; lia).
  split.
  - unfold ES.MakeDate, ES.msPerDay. lia.
  - change (ES.MakeDate (ES.Day (now + 19800000) + days) 0 + 19800000)
      with (ES.MakeDate (ES.Day (now + 19800000) + days) 0 + 19800000).
    replace (ES.MakeDate (ES.Day (now + 19800000) + days) 0 + 19800000)
      with (ES.MakeDate (ES.Day (now + 19800000) + days) 19800000)
      by (unfold ES.MakeDate; lia).
    apply Day_MakeDate. unfold ES.msPerDay. lia.
Qed.

(** The Interpreter prompt can be composed at every reading of the
    clock, and names the language it was asked for. *)
Lemma buildInterpreterPrompt_builds lang now :
  0 <= now <= ES.maxTime - 3 * ES.msPerDay ->
  exists prompt,
    buildInterpreterPrompt lang now = Val prompt /\
    language_of prompt = Some (pick_language lang).
Proof.
  intros [H B]. unfold buildInterpreterPrompt, buildInterpreterPrompt_at.
  destruct (addDaysIST_date now 1) as (t1 & -> & _);
    [lia | lia | unfold ES.msPerDay in *; lia | ].
  destruct (addDaysIST_date now 2) as (t2 & -> & _);
    [lia | lia | unfold ES.msPerDay in *; lia | ].
  cbn [on_valid]. eexists. split; reflexivity.
Qed.

(** C8 (amended).  For every reading of the clock (a time value from the
    epoch on, two days short of the end of the time range), the
    grounded "today" is the ISO text of the date in India, and the
    grounded "tomorrow" is the ISO text of the calendar date that
    follows it.  [addDaysIST] goes through the date parts of the zone
    and the calendar arithmetic of [setUTCDate], not through an
    increment of 24 hours: it is [add_days_by_parts] in Asia/Kolkata,
    and in every zone whose offset stays from no hour up to 24 hours
    east of Greenwich, whatever changes the offset goes through, that
    construction gives an instant on the next calendar date of the
    zone; in every zone whose offset stays west of Greenwich, within 24
    hours, it gives (from the second day of the epoch on) an instant
    that is still on the date it started from. *)
Theorem tomorrow_is_next_calendar_day (now : Z) :
  0 <= now <= ES.maxTime - 2 * ES.msPerDay ->
  let today := date_in_india now in
  istDateISO now = iso_text today /\
  on_valid (addDaysIST now 1) istDateISO = Val (iso_text (next_day today)) /\
  addDaysIST now 1 = add_days_by_parts ES.Asia_Kolkata now 1 /\
  (forall zone : ES.Zone,
      (forall u, 0 <= zone u < ES.msPerDay) ->
      exists t',
        add_days_by_parts zone now 1 = Some t' /\
        ES.local_date zone t' = next_day (ES.local_date zone now)) /\
  (forall zone : ES.Zone,
      (forall u, - ES.msPerDay <= zone u < 0) ->
      ES.msPerDay <= now ->
      exists t',
        add_days_by_parts zone now 1 = Some t' /\
        ES.local_date zone t' = ES.local_date zone now).
Proof.
  intros [H B] today.
  split; [now apply istDateISO_text | split; [ | split; [ | split]]].
  - destruct (addDaysIST_date now 1) as (t & E & T0 & D);
      [lia | lia | unfold ES.msPerDay in *; lia | ].
    rewrite E. cbn [on_valid]. f_equal.
    rewrite (istDateISO_text t T0). f_equal.
    pose proof (utc_date_succ (now + 19800000) (t + 19800000) D) as U.
    unfold utc_date, ES.local_date in U. rewrite !Z.add_0_r in U.
    exact U.
  - rewrite addDaysIST_value by (unfold ES.msPerDay in *; lia).
    unfold add_days_by_parts.
    rewrite (add_days_in_zone ES.Asia_Kolkata now 1)
      by (unfold ES.Asia_Kolkata, ES.msPerDay in *; lia).
    reflexivity.
  - intros zone Hz. unfold add_days_by_parts.
    apply (next_date_in_zone zone now Hz). lia.
  - intros zone Hz D. apply (same_date_west_of_greenwich zone now Hz). lia.
Qed.

Lemma tomorrow_is_next_calendar_day_witness :
  let now := 1774737000000 in
  istDateISO now = js "2026-03-29" /\
  on_valid (addDaysIST now 1) istDateISO = Val (js "2026-03-30") /\
  (ES.local_date Sample.summer_zone now = ES.mkDateParts 2026 3 28 /\
   exists t',
     add_days_by_parts Sample.summer_zone now 1 = Some t' /\
     ES.local_date Sample.summer_zone t' = ES.mkDateParts 2026 3 29) /\
  (ES.local_date Sample.western_zone now = ES.mkDateParts 2026 3 28 /\
   exists t',
     add_days_by_parts Sample.western_zone now 1 = Some t' /\
     ES.local_date Sample.western_zone t' = ES.mkDateParts 2026 3 28).
Proof.
  intros now.
  assert (0 <= now <= ES.maxTime - 2 * ES.msPerDay) as R
    by (unfold now, ES.maxTime, ES.msPerDay; lia).
  pose proof (tomorrow_is_next_calendar_day now R) as T. cbv zeta in T.
  destruct T as (A & B & _ & Z & W).
  split; [rewrite A; vm_compute; reflexivity | ].
  split; [rewrite B; vm_compute; reflexivity | ].
  split; (split; [vm_compute; reflexivity | ]).
  - destruct (Z Sample.summer_zone) as (t' & E & D).
    + intros u. unfold Sample.summer_zone, ES.msPerDay.
      destruct (u <? 1774746000000); lia.
    + exists t'. split; [exact E | ]. rewrite D. vm_compute. reflexivity.
  - destruct (W Sample.western_zone) as (t' & E & D).
    + intros u. unfold Sample.western_zone, ES.msPerDay.
      destruct (u <? 1772953200000); lia.
    + unfold now, ES.msPerDay. lia.
    + exists t'. split; [exact E | ]. rewrite D. vm_compute. reflexivity.
Defined.

(** Against C8 as first stated, for a zone that observes summer time
    west of Greenwich: at 01:30 of 8 March 2026 there, half an hour
    before the clocks go forward, the construction gives midnight UTC
    of 9 March, which in that zone is still 8 March, so that "tomorrow"
    is today's date. *)
Lemma west_of_greenwich_tomorrow_is_today :
  let now := 1772951400000 in
  let zone := Sample.western_zone in
  let today := ES.local_date zone now in
  today = ES.mkDateParts 2026 3 8 /\
  zone now = -18000000 /\ zone (now + ES.msPerDay) = -14400000 /\
  add_days_by_parts zone now 1 = Some 1773014400000 /\
  ES.local_date zone 1773014400000 = today /\
  ES.local_date zone 1773014400000 <> next_day today.
Proof. vm_compute. repeat split; discriminate. Qed.

(** The epoch, a leap day seen from India, and the last evening of a
    year in UTC, already the new year in India. *)
Example epoch_date : utc_date 0 = ES.mkDateParts 1970 1 1.
Proof. reflexivity. Qed.

Example leap_day_2000 :
  istDateISO 951762600000 = js "2000-02-29" /\
  on_valid (addDaysIST 951762600000 1) istDateISO = Val (js "2000-03-01") /\
  on_valid (addDaysIST 951762600000 1) istDateHuman = Val (js "01 March 2000").
Proof. repeat split; reflexivity. Qed.

Example new_year_in_india :
  utc_date 1798741800000 = ES.mkDateParts 2026 12 31 /\
  istDateISO 1798741800000 = js "2027-01-01" /\
  on_valid (addDaysIST 1798741800000 2) istDateISO = Val (js "2027-01-03").
Proof. repeat split; reflexivity. Qed.

(** At the end of the time range the new date is invalid and the
    formatter throws. *)
Example end_of_time :
  on_valid (addDaysIST (ES.maxTime - 1000) 1) istDateISO = Thrown RangeError.
Proof. reflexivity. Qed.

(** The same construction in a zone with a summer-time switch, from
    the evening before the switch. *)
Example across_the_switch :
  let now := 1774737000000 in
  let p := ES.local_date Sample.summer_zone now in
  let dt := ES.Date_UTC (Some (ES.yyyy p)) (Some (ES.mm p - 1)) (Some (ES.dd p)) in
  p = ES.mkDateParts 2026 3 28 /\
  exists t',
    ES.setUTCDate dt (option_map (fun d => d + 1) (ES.getUTCDate dt)) = Some t' /\
    ES.local_date Sample.summer_zone t' = next_day p.
Proof.
  intros now p dt. split; [reflexivity | ].
  apply (next_date_in_zone Sample.summer_zone now).
  - intros u. unfold Sample.summer_zone, ES.msPerDay.
    destruct (u <? 1774746000000); lia.
  - unfold ES.maxTime, ES.msPerDay. lia.
Qed.

End Calendar.

(** ** What a pending call leaves alone *)

Lemma keeps_refl w : keeps w w.
Proof. split; auto. exists []. now rewrite app_nil_r. Qed.

Lemma keeps_trans w1 w2 w3 : keeps w1 w2 -> keeps w2 w3 -> keeps w1 w3.
Proof.
  intros [[l1 T1] H1 R1 K1 O1] [[l2 T2] H2 R2 K2 O2]. split; try congruence; auto.
  exists (l1 ++ l2). now rewrite T2, T1, app_assoc.
Qed.

Lemma keeps_emit e w : keeps w (emit e w).
Proof. split; auto. now exists [e]. Qed.

Lemma keeps_set_clock c w : keeps w (set_clock c w).
Proof. split; auto. exists []. cbn. now rewrite app_nil_r. Qed.

Lemma keeps_set_network n w : keeps w (set_network n w).
Proof. split; auto. exists []. cbn. now rewrite app_nil_r. Qed.

Lemma keeps_set_ls_language l w : keeps w (set_ls_language l w).
Proof. split; auto. exists []. cbn. now rewrite app_nil_r. Qed.

Lemma deref_app w ref s extra :
  deref w ref = Some s -> nth_error (heap w ++ extra) ref = Some s.
Proof.
  unfold deref. intros H. rewrite nth_error_app1; [exact H | ].
  apply nth_error_Some. congruence.
Qed.


Lemma Keeps_ret {A} (a : A) : Keeps (ret a).
Proof. intros w. apply keeps_refl. Qed.

Lemma Keeps_lift {A} (r : Result A) : Keeps (lift r).
Proof. intros w. apply keeps_refl. Qed.

Lemma Keeps_read {A} (f : World -> A) : Keeps (read f).
Proof. intros w. apply keeps_refl. Qed.

Lemma Keeps_change f : (forall w, keeps w (f w)) -> Keeps (change f).
Proof. intros H w. apply H. Qed.

Lemma Keeps_bind {A B} (c : M A) (k : A -> M B) :
  Keeps c -> (forall a, Keeps (k a)) -> Keeps (bind c k).
Proof.
  intros Hc Hk w. unfold bind. specialize (Hc w).
  destruct (c w) as [[a | e] w1]; cbn in *; [ | exact Hc].
  eapply keeps_trans; [exact Hc | apply Hk].
Qed.

Lemma Keeps_run {A} (c : M A) w r w' : Keeps c -> c w = (r, w') -> keeps w w'.
Proof. intros H E. specialize (H w). now rewrite E in H. Qed.

Lemma Keeps_showToast t : Keeps (showToast t).
Proof. apply Keeps_change. intros w. apply keeps_emit. Qed.

Lemma Keeps_saveSessions : Keeps saveSessions.
Proof. apply Keeps_change. intros w. apply keeps_emit. Qed.

Lemma Keeps_createNewSession uuid title : Keeps (createNewSession uuid title).
Proof.
  intros w. unfold createNewSession, saveSessions, change. cbn.
  split; cbn; auto.
  - eexists. reflexivity.
  - intros ref s H. now apply deref_app.
Qed.

Lemma Keeps_langToggle_click uuid : Keeps (langToggle_click uuid).
Proof.
  unfold langToggle_click.
  apply Keeps_bind; [apply Keeps_read | intros cur].
  apply Keeps_bind; [apply Keeps_change, keeps_set_ls_language | intros _].
  apply Keeps_bind; [apply Keeps_createNewSession | intros _].
  apply Keeps_showToast.
Qed.

Lemma keeps_run_ui e w : keeps w (run_ui e w).
Proof. destruct e. apply Keeps_langToggle_click. Qed.

Lemma keeps_run_all es w : keeps w (fold_left (fun x e => run_ui e x) es w).
Proof.
  revert w. induction es as [| e es IH]; intros w; cbn.
  - apply keeps_refl.
  - eapply keeps_trans; [apply keeps_run_ui | apply IH].
Qed.

Lemma Keeps_geminiFetch url key p t : Keeps (geminiFetch url key p t).
Proof.
  intros w. unfold geminiFetch. cbn [network emit].
  destruct (network w) as [| step rest] eqn:N.
  - apply keeps_emit.
  - set (w2 := fold_left _ _ _).
    assert (keeps w w2) as K.
    { eapply keeps_trans; [apply keeps_emit | ].
      eapply keeps_trans; [apply keeps_set_network | apply keeps_run_all]. }
    destruct (t <=? elapsed step)%Z.
    + eapply keeps_trans; [exact K | apply keeps_set_clock].
    + destruct (outcome step) as [status body | msg].
      * destruct ((200 <=? status) && (status <=? 299))%Z;
          (eapply keeps_trans; [exact K | apply keeps_set_clock]).
      * eapply keeps_trans; [exact K | apply keeps_set_clock].
Qed.

Lemma geminiFetch_val url key p t w :
  exists result w', geminiFetch url key p t w = (Val result, w').
Proof.
  unfold geminiFetch. cbn [network emit].
  destruct (network w) as [| step rest]; [eauto | ].
  destruct (t <=? elapsed step)%Z; [eauto | ].
  destruct (outcome step) as [status body | msg]; [ | eauto].
  destruct ((200 <=? status) && (status <=? 299))%Z; eauto.
Qed.

Lemma Keeps_interpretUserQuery raw key : Keeps (interpretUserQuery raw key).
Proof.
  unfold interpretUserQuery.
  apply Keeps_bind; [apply Keeps_read | intros lang].
  apply Keeps_bind; [apply Keeps_read | intros now].
  apply Keeps_bind; [apply Keeps_lift | intros prompt].
  apply Keeps_bind; [apply Keeps_geminiFetch | intros [st tx | st j tx]].
  - apply Keeps_ret.
  - apply Keeps_bind; [apply Keeps_lift | intros; apply Keeps_ret].
Qed.

Lemma Keeps_translate reply key : Keeps (translateToMarathiIfNeeded reply key).
Proof.
  unfold translateToMarathiIfNeeded.
  apply Keeps_bind; [apply Keeps_read | intros lang].
  destruct (negb (JS.eqb lang (js "mr"))); [apply Keeps_ret | ].
  destruct (negb (looksEnglish reply)); [apply Keeps_ret | ].
  apply Keeps_bind; [apply Keeps_geminiFetch | intros [st tx | st j tx]].
  - apply Keeps_ret.
  - apply Keeps_bind; [apply Keeps_lift | intros; apply Keeps_ret].
Qed.

(** ** Running [callGuruji] *)

Lemma callGuruji_guarded session raw w :
  JS.eqb (getApiKey w) [] = false -> onLine w = true ->
  callGuruji session raw w =
    let '(r, w1) := callGuruji_try session raw (getApiKey w) (turn_start w) in
    (r, turn_end w1).
Proof.
  intros K O. unfold callGuruji, bind, read. rewrite K, O. cbn [negb].
  unfold try_finally, setSendingDisabled, showTyping, change, turn_start.
  destruct (callGuruji_try session raw (getApiKey w) _) as [r w1].
  reflexivity.
Qed.

Lemma callGuruji_no_key session raw w :
  JS.eqb (getApiKey w) [] = true ->
  callGuruji session raw w = (Val tt, emit (EvToast ToastNoApiKey) w).
Proof. intros K. unfold callGuruji, bind, read. now rewrite K. Qed.

Lemma callGuruji_offline session raw w :
  JS.eqb (getApiKey w) [] = false -> onLine w = false ->
  callGuruji session raw w = (Val tt, emit (EvToast ToastOffline) w).
Proof. intros K O. unfold callGuruji, bind, read. now rewrite K, O. Qed.

Lemma callGuruji_reaches session raw w result w2 :
  reaches_generating session raw w result w2 ->
  callGuruji session raw w =
    let '(r, w3) :=
      match result with
      | Failed status text => report_failure session raw status text w2
      | Succeeded _ json _ => accept_reply session (getApiKey w) json w2
      end in
    (r, turn_end w3).
Proof.
  intros (K & O & rewritten & w1 & I & G).
  rewrite callGuruji_guarded by assumption.
  unfold callGuruji_try, bind at 1. rewrite I.
  unfold bind at 1, read. unfold bind at 1. rewrite G.
  destruct result; reflexivity.
Qed.

(** The two branches after the Generating call. *)

Lemma report_failure_cases session raw status text w :
  report_failure session raw status text w =
    match (if (status =? 429)%Z then parseRetryDelaySeconds text else None) with
    | Some sec =>
        if (sec =? 0)%Z then (Val tt, emit (EvToast ToastRetryInAMinute) w)
        else (Val tt,
              set_pendingRetry
                (Some (mkPendingRetry (session_id w session) raw
                         (clock w + sec * 1000)%Z))
                (emit (EvToast (ToastRetryAfter sec)) w))
    | None =>
        (Val tt,
         emit (EvToast
                 (if (status =? 429)%Z then ToastRetryInAMinute
                  else if ((status =? 401) || (status =? 403))%Z then ToastInvalidKey
                  else if (status =? 400)%Z then ToastBadRequest
                  else if (status =? 404)%Z then ToastModelNotFound
                  else ToastApiError status)) w)
    end.
Proof.
  unfold report_failure.
  destruct (status =? 429)%Z.
  - destruct (parseRetryDelaySeconds text) as [sec | ]; [ | reflexivity].
    destruct (sec =? 0)%Z; reflexivity.
  - destruct ((status =? 401) || (status =? 403))%Z; [reflexivity | ].
    destruct (status =? 400)%Z; [reflexivity | ].
    destruct (status =? 404)%Z; reflexivity.
Qed.

Lemma update_nth_same {A} n (f : A -> A) l x :
  nth_error l n = Some x -> nth_error (update_nth n f l) n = Some (f x).
Proof.
  revert n. induction l as [| y l IH]; intros [| n]; cbn; try discriminate.
  - now intros [= ->].
  - apply IH.
Qed.

(** The world once the reply is stored. *)
Lemma accept_reply_cases session key json w :
  accept_reply session key json w =
    match extractTextFromGemini json with
    | Thrown e => (Thrown e, w)
    | Val text =>
        match translateToMarathiIfNeeded
                (or_else (Some (JS.trim text)) (js "[No response]")) key w with
        | (Thrown e, w1) => (Thrown e, w1)
        | (Val reply, w1) =>
            (Val tt,
             set_pendingRetry None
               (snd ((push_message session
                        (mkMessage (js "assistant") reply (clock w1)) ;;
                      set_updatedAtISO session (clock w1) ;;
                      saveSessions) w1)))
        end
    end.
Proof.
  unfold accept_reply, bind at 1, lift.
  destruct (extractTextFromGemini json) as [text | e]; [ | reflexivity].
  unfold bind at 1.
  destruct (translateToMarathiIfNeeded _ key w) as [[reply | e] w1]; reflexivity.
Qed.

Lemma stored_messages session m ts w s :
  deref w session = Some s ->
  session_messages
    (snd ((push_message session m ;; set_updatedAtISO session ts ;; saveSessions) w))
    session
  = messages s ++ [m].
Proof.
  intros D. unfold session_messages, deref in *. cbn.
  erewrite update_nth_same; [ | erewrite update_nth_same; [reflexivity | exact D]].
  reflexivity.
Qed.

Lemma messages_of w session ss :
  deref w session = Some ss -> session_messages w session = messages ss.
Proof. unfold session_messages. now intros ->. Qed.

Lemma id_of w session ss :
  deref w session = Some ss -> session_id w session = id ss.
Proof. unfold session_id. now intros ->. Qed.

Lemma keeps_turn_start w : keeps w (turn_start w).
Proof.
  unfold turn_start. eapply keeps_trans; apply keeps_emit.
Qed.

Lemma reaches_keeps session raw w result w2 :
  reaches_generating session raw w result w2 -> keeps w w2.
Proof.
  intros (_ & _ & rewritten & w1 & I & G).
  eapply keeps_trans; [apply keeps_turn_start | ].
  eapply keeps_trans.
  - exact (Keeps_run _ _ _ _ (Keeps_interpretUserQuery raw _) I).
  - exact (Keeps_run _ _ _ _ (Keeps_geminiFetch _ _ _ _) G).
Qed.

Lemma callGuruji_outcome session raw w ss :
  deref w session = Some ss ->
  let w' := snd (callGuruji session raw w) in
  (exists reply ts,
      session_messages w' session
        = messages ss ++ [mkMessage (js "assistant") reply ts] /\
      pendingRetry w' = None)
  \/ (session_messages w' session = messages ss /\
      (pendingRetry w' = pendingRetry w \/
       exists t, pendingRetry w' = Some (mkPendingRetry (id ss) raw t))).
Proof.
  intros D w'.
  assert (w' = snd (callGuruji session raw w)) as E by reflexivity.
  clearbody w'.
  destruct (JS.eqb (getApiKey w) []) eqn:K.
  { rewrite callGuruji_no_key in E by exact K. subst w'.
    right. split; [ | now left]. now apply messages_of. }
  destruct (onLine w) eqn:O.
  2: { rewrite callGuruji_offline in E by assumption. subst w'.
       right. split; [ | now left]. now apply messages_of. }
  rewrite callGuruji_guarded in E by assumption.
  unfold callGuruji_try, bind at 1 in E.
  destruct (interpretUserQuery raw (getApiKey w) (turn_start w))
    as [[rewritten | e] w1] eqn:I.
  2: { pose proof (Keeps_run _ _ _ _ (Keeps_interpretUserQuery raw _) I) as K1.
       cbn [snd] in E. subst w'. right. split.
       - apply messages_of. change (deref w1 session = Some ss).
         now apply K1.
       - left. change (pendingRetry w1 = pendingRetry w). apply K1. }
  pose proof (keeps_trans _ _ _ (keeps_turn_start w)
                (Keeps_run _ _ _ _ (Keeps_interpretUserQuery raw _) I)) as K1.
  unfold bind at 1, read in E. unfold bind at 1 in E.
  destruct (geminiFetch_val GURUJI_URL (getApiKey w)
              (buildGurujiPayload w1 (session_messages w1 session) rewritten)
              30000 w1) as (result & w2 & G).
  rewrite G in E.
  pose proof (keeps_trans _ _ _ K1 (Keeps_run _ _ _ _ (Keeps_geminiFetch _ _ _ _) G))
    as K2.
  assert (deref w2 session = Some ss) as D2 by now apply K2.
  destruct result as [status text | status json text].
  - rewrite report_failure_cases in E. right.
    destruct (if (status =? 429)%Z then parseRetryDelaySeconds text else None)
      as [sec | ].
    + destruct (sec =? 0)%Z; cbn [snd] in E; subst w'.
      * split; [now apply messages_of | left; apply K2].
      * split; [now apply messages_of | right].
        eexists. cbn. now rewrite (id_of _ _ _ D2).
    + cbn [snd] in E; subst w'.
      split; [now apply messages_of | left; apply K2].
  - rewrite accept_reply_cases in E.
    destruct (extractTextFromGemini json) as [text0 | e].
    2: { cbn [snd] in E; subst w'.
         right. split; [now apply messages_of | left; apply K2]. }
    destruct (translateToMarathiIfNeeded _ (getApiKey w) w2)
      as [[reply | e] w3] eqn:T;
      pose proof (Keeps_run _ _ _ _ (Keeps_translate _ _) T) as K3;
      cbn [snd] in E; subst w'.
    + left. exists reply, (clock w3). split; [ | reflexivity].
      change (session_messages
                (snd ((push_message session
                         (mkMessage (js "assistant") reply (clock w3)) ;;
                       set_updatedAtISO session (clock w3) ;; saveSessions) w3))
                session = messages ss ++ [mkMessage (js "assistant") reply (clock w3)]).
      apply stored_messages. now apply K3.
    + right. split.
      * apply messages_of. change (deref w3 session = Some ss). now apply K3.
      * left. change (pendingRetry w3 = pendingRetry w).
        rewrite (keeps_retry _ _ K3). apply K2.
Qed.

(** ** Rate limiting and the retry token *)

(** C2 (amended).  When the Generating call is answered 429 and the
    first RetryInfo detail of the error body carries the retry delay
    "<n>s" with n at least 1 (n and the scheduled time within the
    integers a double holds exactly), the turn ends with a retry token
    for the session, holding the raw user text and scheduled n seconds
    after the clock reading at that moment; the "retry after n s"
    condition is reported and no assistant message is appended. *)
Theorem retry_token_after_positive_delay session raw w body n w2 ss :
  reaches_generating session raw w (Failed 429 body) w2 ->
  carries_retry_delay body (seconds n) ->
  (1 <= n)%Z ->
  (0 <= clock w2)%Z ->
  (clock w2 + n * 1000 <= MAX_SAFE_INTEGER)%Z ->
  deref w session = Some ss ->
  let w' := snd (callGuruji session raw w) in
  pendingRetry w' = Some (mkPendingRetry (id ss) raw (clock w2 + n * 1000)%Z) /\
  session_messages w' session = messages ss /\
  In (EvToast (ToastRetryAfter n)) (trace w').
Proof.
  intros R C N T0 B D w'. subst w'.
  pose proof (reaches_keeps _ _ _ _ _ R) as K.
  assert (deref w2 session = Some ss) as D2 by now apply K.
  rewrite (callGuruji_reaches _ _ _ _ _ R), report_failure_cases.
  rewrite Z.eqb_refl, (parse_seconds body n) by (assumption || lia).
  replace (n =? 0)%Z with false by (symmetry; apply Z.eqb_neq; lia).
  cbn [snd]. repeat split.
  - cbn. now rewrite (id_of _ _ _ D2).
  - now apply messages_of.
  - cbn. rewrite !in_app_iff. left. left. right. now left.
Qed.


Lemma retry_token_after_positive_delay_witness :
  let w := Sample.page [Sample.said "user" "hi"] None
             [Sample.replies (js "");
              Sample.answers 429 (Sample.retry_json (js "30s"))] in
  let w' := snd (callGuruji 0 (js "hi") w) in
  pendingRetry w'
    = Some (mkPendingRetry (js "s1") (js "hi") (Sample.t0 + 200 + 30 * 1000)%Z) /\
  session_messages w' 0 = [Sample.said "user" "hi"] /\
  In (EvToast (ToastRetryAfter 30)) (trace w').
Proof.
  intros w.
  pose (w1 := snd (interpretUserQuery (js "hi") (js "key") (turn_start w))).
  pose (w2 := snd (geminiFetch GURUJI_URL (js "key")
                     (buildGurujiPayload w1 (session_messages w1 0) (js "hi"))
                     30000 w1)).
  assert (reaches_generating 0 (js "hi") w
            (Failed 429 (Sample.body_of (Sample.retry_json (js "30s")))) w2) as R.
  { repeat split. exists (js "hi"), w1. split; vm_compute; reflexivity. }
  exact (retry_token_after_positive_delay 0 (js "hi") w
           (Sample.body_of (Sample.retry_json (js "30s"))) 30 w2
           (Sample.consultation [Sample.said "user" "hi"])
           R (sample_body_carries (js "30s"))
           ltac:(lia) ltac:(vm_compute; discriminate)
           ltac:(vm_compute; discriminate) eq_refl).
Defined.

(** Against C2 as first stated: the delay "0s" is a retry delay of the
    prescribed form, and no token is set. *)
Lemma zero_delay_schedules_nothing :
  let w := Sample.page [Sample.said "user" "hi"] None
             [Sample.replies (js "");
              Sample.answers 429 (Sample.retry_json (js "0s"))] in
  seconds 0 = js "0s" /\
  carries_retry_delay (Sample.body_of (Sample.retry_json (js "0s"))) (seconds 0) /\
  map fst (fetches (trace (snd (callGuruji 0 (js "hi") w))))
    = [INTERPRETER_URL; GURUJI_URL] /\
  pendingRetry (snd (callGuruji 0 (js "hi") w)) = None.
Proof.
  intros w. split; [reflexivity | ]. split; [apply sample_body_carries | ].
  split; reflexivity.
Qed.

(** C10.  When the Generating call is answered 429 and the RetryInfo
    detail carries the delay "0s", the parsed delay is 0, the turn ends
    with the generic rate-limit report, the retry token is what it was
    before the turn, and the failure branch does exactly what it does on
    a body from which no delay can be read. *)
Theorem zero_delay_is_no_delay session raw w body w2 :
  reaches_generating session raw w (Failed 429 body) w2 ->
  carries_retry_delay body (js "0s") ->
  parseRetryDelaySeconds body = Some 0%Z /\
  callGuruji session raw w
    = (Val tt, turn_end (emit (EvToast ToastRetryInAMinute) w2)) /\
  pendingRetry (snd (callGuruji session raw w)) = pendingRetry w /\
  forall body',
    parseRetryDelaySeconds body' = None ->
    report_failure session raw 429 body w2
      = report_failure session raw 429 body' w2.
Proof.
  intros R C.
  assert (parseRetryDelaySeconds body = Some 0%Z) as P
    by (apply (parse_seconds body 0); [unfold MAX_SAFE_INTEGER; lia | exact C]).
  pose proof (reaches_keeps _ _ _ _ _ R) as K.
  rewrite (callGuruji_reaches _ _ _ _ _ R), report_failure_cases.
  rewrite Z.eqb_refl, P. cbn [Z.eqb snd].
  repeat split.
  - apply K.
  - intros body' N. rewrite report_failure_cases, Z.eqb_refl, N. reflexivity.
Qed.


Lemma zero_delay_is_no_delay_witness :
  let w := Sample.page [Sample.said "user" "hi"] (Some Sample.token)
             [Sample.replies (js "");
              Sample.answers 429 (Sample.retry_json (js "0s"))] in
  parseRetryDelaySeconds (Sample.body_of (Sample.retry_json (js "0s"))) = Some 0%Z /\
  pendingRetry (snd (callGuruji 0 (js "hi") w)) = Some Sample.token.
Proof.
  intros w.
  pose (w1 := snd (interpretUserQuery (js "hi") (js "key") (turn_start w))).
  pose (w2 := snd (geminiFetch GURUJI_URL (js "key")
                     (buildGurujiPayload w1 (session_messages w1 0) (js "hi"))
                     30000 w1)).
  assert (reaches_generating 0 (js "hi") w
            (Failed 429 (Sample.body_of (Sample.retry_json (js "0s")))) w2) as R.
  { repeat split. exists (js "hi"), w1. split; vm_compute; reflexivity. }
  destruct (zero_delay_is_no_delay 0 (js "hi") w
              (Sample.body_of (Sample.retry_json (js "0s"))) w2
              R (sample_body_carries (js "0s")))
    as (P & _ & T & _).
  split; [exact P | exact T].
Defined.

(** ** The session log when the Generating call fails *)

Lemma append_user_message_effect session text w ss :
  deref w session = Some ss ->
  exists w_sent ss',
    append_user_message session text w = (Val tt, w_sent) /\
    deref w_sent session = Some ss' /\
    id ss' = id ss /\
    messages ss' = messages ss ++ [mkMessage (js "user") text (clock w)] /\
    pendingRetry w_sent = pendingRetry w.
Proof.
  intros D.
  unfold append_user_message.
  unfold bind at 1, read at 1.
  set (m := mkMessage (js "user") text (nowISO w)).
  unfold bind at 1, push_message at 1, update_session at 1, change at 1.
  unfold bind at 1, set_updatedAtISO at 1, update_session at 1, change at 1.
  unfold bind at 1, read at 1.
  set (w1 := set_heap _ (set_heap _ w)).
  assert (exists s1, deref w1 session = Some s1 /\ id s1 = id ss /\
                     messages s1 = messages ss ++ [m]) as (s1 & D1 & I1 & M1).
  { eexists. split; [ | split].
    - unfold w1, deref in *. cbn.
      erewrite update_nth_same; [reflexivity | ].
      erewrite update_nth_same; [reflexivity | exact D].
    - reflexivity.
    - reflexivity. }
  assert (pendingRetry w1 = pendingRetry w) as P1 by reflexivity.
  clearbody w1.
  unfold bind at 1.
  destruct (length (filter _ (session_messages w1 session)) =? 1)%nat.
  - unfold updateSessionTitleFromFirstMessage, update_session, change at 1.
    unfold saveSessions, change.
    eexists. eexists. split; [reflexivity | ].
    unfold deref in *. cbn. erewrite update_nth_same by exact D1.
    split; [reflexivity | ].
    destruct (_ && _); cbn; auto.
  - unfold ret at 1. unfold saveSessions, change.
    eexists. exists s1. split; [reflexivity | ]. auto.
Qed.

Lemma insertUserMessage_sends raw w session :
  getActiveSession w = Some session ->
  JS.trim raw <> [] ->
  insertUserMessage raw w =
    match append_user_message session (JS.trim raw) w with
    | (Val _, w_sent) => callGuruji session (JS.trim raw) w_sent
    | (Thrown e, w_sent) => (Thrown e, w_sent)
    end.
Proof.
  intros A T. unfold insertUserMessage.
  replace (JS.eqb (JS.trim raw) []) with false by (symmetry; now apply jseqb_neq).
  unfold bind at 1, read at 1. rewrite A. reflexivity.
Qed.

(** Which exchanges make [geminiFetch] return a result that is not ok:
    none left, the timer first, a rejection, a status outside 2xx. *)
Lemma failed_result_kinds url key p t w r w' :
  geminiFetch url key p t w = (Val r, w') ->
  (ok r = false <->
   match network w with
   | [] => True
   | step :: _ =>
       (t <= elapsed step)%Z \/
       (exists message, outcome step = Rejected message) \/
       (exists status body,
           outcome step = Responded status body /\ ~ (200 <= status <= 299)%Z)
   end).
Proof.
  unfold geminiFetch. cbn [network emit].
  destruct (network w) as [| step rest].
  - intros [= <- _]. cbn. tauto.
  - destruct (Z.leb_spec t (elapsed step)) as [L | L].
    + intros [= <- _]. cbn. tauto.
    + destruct (outcome step) as [status body | msg].
      * destruct ((200 <=? status) && (status <=? 299))%Z eqn:S;
          intros [= <- _]; cbn; split; intros H; try discriminate; auto.
        -- destruct H as [H | [(m & H) | (st & b & H & N)]];
             [lia | discriminate | ].
           injection H as <- <-. apply andb_true_iff in S as [S1 S2].
           apply Z.leb_le in S1, S2. lia.
        -- right. right. exists status, body. split; [reflexivity | ].
           intros [S1 S2]. apply Z.leb_le in S1, S2. now rewrite S1, S2 in S.
      * intros [= <- _]. cbn. split; auto. intros _. right. left. eauto.
Qed.

(** C4.  When the Generating call of a turn returns a result that is
    not ok (a status outside 2xx, the timeout, a network error: see
    [failed_result_kinds]), the turn ends with the session log made of
    what it held before the send followed by the user message appended
    at send time, and nothing else. *)
Theorem generating_failure_keeps_log raw w session ss status text w2 :
  getActiveSession w = Some session ->
  deref w session = Some ss ->
  JS.trim raw <> [] ->
  let sent := mkMessage (js "user") (JS.trim raw) (clock w) in
  let w_sent := snd (append_user_message session (JS.trim raw) w) in
  reaches_generating session (JS.trim raw) w_sent (Failed status text) w2 ->
  insertUserMessage raw w = callGuruji session (JS.trim raw) w_sent /\
  session_messages w_sent session = messages ss ++ [sent] /\
  session_messages (snd (insertUserMessage raw w)) session = messages ss ++ [sent].
Proof.
  intros A D T sent w_sent R.
  destruct (append_user_message_effect session (JS.trim raw) w ss D)
    as (w0 & ss' & E & D' & _ & M & _).
  assert (w_sent = w0) as -> by (unfold w_sent; now rewrite E).
  rewrite (insertUserMessage_sends raw w session A T), E.
  split; [reflexivity | ]. split.
  - rewrite (messages_of _ _ _ D'). exact M.
  - pose proof (reaches_keeps _ _ _ _ _ R) as K.
    assert (deref w2 session = Some ss') as D2 by now apply K.
    rewrite (callGuruji_reaches _ _ _ _ _ R), report_failure_cases.
    unfold sent. rewrite <- M.
    destruct (if (status =? 429)%Z then parseRetryDelaySeconds text else None)
      as [sec | ]; [destruct (sec =? 0)%Z | ]; cbn [snd]; now apply messages_of.
Qed.


Lemma generating_failure_keeps_log_witness :
  let w := Sample.page [] None
             [Sample.replies (js ""); Sample.answers 500 JNull] in
  session_messages (snd (insertUserMessage (js " hi ") w)) 0
    = [mkMessage (js "user") (js "hi") Sample.t0].
Proof.
  intros w.
  pose (w_sent := snd (append_user_message 0 (js "hi") w)).
  pose (w1 := snd (interpretUserQuery (js "hi") (js "key") (turn_start w_sent))).
  pose (w2 := snd (geminiFetch GURUJI_URL (js "key")
                     (buildGurujiPayload w1 (session_messages w1 0) (js "hi"))
                     30000 w1)).
  assert (reaches_generating 0 (js "hi") w_sent
            (Failed 500 (Sample.body_of JNull)) w2) as R.
  { repeat split. exists (js "hi"), w1. split; vm_compute; reflexivity. }
  destruct (generating_failure_keeps_log (js " hi ") w 0 (Sample.consultation [])
              500%Z (Sample.body_of JNull) w2
              eq_refl eq_refl ltac:(vm_compute; discriminate) R)
    as (_ & _ & F).
  exact F.
Defined.

(** ** The life of the retry token *)

Lemma active_session_is_object w session :
  getActiveSession w = Some session -> exists ss, deref w session = Some ss.
Proof.
  unfold getActiveSession. intros A. apply find_some in A as (_ & A).
  destruct (deref w session) as [ss | ]; [now exists ss | discriminate A].
Qed.

(** C3 (amended).  With a retry token pending: an automatic retry (the
    online event at or after the scheduled time, the token's session
    being the active one) runs [callGuruji] on the token's text; the
    token is cleared exactly when that turn appends an assistant
    message, and otherwise a token for the same session and text is
    still pending, so that a later online event retries again.  A new
    user message, whenever it is sent and whichever session is active,
    clears the token only when its own turn appends an assistant
    message; when that turn fails the old token stays, or is replaced
    by one for the new text; and a blank message, or one typed with no
    active session, changes nothing. *)
Theorem retry_token_survives_failure w p :
  pendingRetry w = Some p ->
  (forall session,
      getActiveSession w = Some session ->
      sessionId p = session_id w session ->
      (retryAtMs p <= clock w)%Z ->
      exists ss,
        deref w session = Some ss /\
        let w' := snd (on_online w) in
        w' = snd (callGuruji session (lastUserText p) w) /\
        ((exists reply ts,
             session_messages w' session
               = messages ss ++ [mkMessage (js "assistant") reply ts] /\
             pendingRetry w' = None)
         \/ (session_messages w' session = messages ss /\
             exists p', pendingRetry w' = Some p' /\
                        sessionId p' = sessionId p /\
                        lastUserText p' = lastUserText p))) /\
  (forall raw session,
      JS.trim raw <> [] ->
      getActiveSession w = Some session ->
      exists ss,
        deref w session = Some ss /\
        let w' := snd (insertUserMessage raw w) in
        let sent := mkMessage (js "user") (JS.trim raw) (clock w) in
        (exists reply ts,
            session_messages w' session
              = (messages ss ++ [sent])
                ++ [mkMessage (js "assistant") reply ts] /\
            pendingRetry w' = None)
        \/ (session_messages w' session = messages ss ++ [sent] /\
            (pendingRetry w' = Some p \/
             exists t, pendingRetry w'
                       = Some (mkPendingRetry (id ss) (JS.trim raw) t)))) /\
  (forall raw,
      JS.trim raw = [] \/ getActiveSession w = None ->
      snd (insertUserMessage raw w) = w).
Proof.
  intros P. split; [ | split].
  - intros session A I T.
    destruct (active_session_is_object w session A) as (ss & D).
    exists ss. split; [exact D | ]. intros w'.
    assert (w' = snd (callGuruji session (lastUserText p) w)) as E.
    { subst w'. unfold on_online. rewrite P.
      replace (retryAtMs p <=? clock w)%Z with true
        by (symmetry; now apply Z.leb_le).
      rewrite A, I, jseqb_refl. reflexivity. }
    split; [exact E | ]. rewrite E.
    destruct (callGuruji_outcome session (lastUserText p) w ss D)
      as [L | (M & [U | (t & N)])]; [now left | right; split; [exact M | ] ..].
    + exists p. rewrite U, P. auto.
    + eexists. split; [exact N | ]. cbn.
      rewrite I, (id_of _ _ _ D). auto.
  - intros raw session NE A.
    destruct (active_session_is_object w session A) as (ss & D).
    exists ss. split; [exact D | ]. intros w' sent.
    destruct (append_user_message_effect session (JS.trim raw) w ss D)
      as (w_sent & ss' & E & D' & I' & M' & P').
    subst w'. rewrite (insertUserMessage_sends raw w session A NE), E.
    destruct (callGuruji_outcome session (JS.trim raw) w_sent ss' D')
      as [(reply & ts & L & N) | (M & [U | (t & N)])].
    + left. exists reply, ts. rewrite L, M'. auto.
    + right. rewrite M, M', U, P', P. auto.
    + right. rewrite M, M', N, I'. split; [reflexivity | ]. right. now exists t.
  - intros raw [B | A]; unfold insertUserMessage.
    + rewrite B. reflexivity.
    + destruct (JS.eqb (JS.trim raw) []); [reflexivity | ].
      unfold bind, read. rewrite A. reflexivity.
Qed.

Lemma retry_token_survives_failure_witness :
  let w := Sample.page [Sample.said "user" "hi"] (Some Sample.token)
             [Sample.replies (js ""); Sample.answers 500 JNull] in
  pendingRetry (snd (on_online w)) <> None.
Proof.
  intros w.
  pose proof (retry_token_survives_failure w Sample.token eq_refl) as [R _].
  destruct (R 0%nat eq_refl eq_refl ltac:(vm_compute; discriminate))
    as (ss & D & _ & [(reply & ts & M & _) | (_ & p' & P & _)]).
  - vm_compute in D. injection D as <-. vm_compute in M. discriminate M.
  - rewrite P. discriminate.
Defined.

(** A new message sent before the token is due, and one sent in another
    session than the token's, when their turns fail: the token stays. *)
Example early_message_keeps_token :
  let early := Sample.page [Sample.said "user" "hi"]
                 (Some (mkPendingRetry (sessionId Sample.token)
                          (lastUserText Sample.token)
                          (Sample.t0 + 60000)%Z))
                 [Sample.replies (js ""); Sample.answers 500 JNull] in
  let elsewhere := Sample.page [Sample.said "user" "hi"]
                     (Some (mkPendingRetry (js "another session") (js "hello")
                              (retryAtMs Sample.token)))
                     [Sample.replies (js ""); Sample.answers 500 JNull] in
  option_map retryAtMs (pendingRetry early) = Some (clock early + 60000)%Z /\
  pendingRetry (snd (insertUserMessage (js "new question") early))
  = pendingRetry early /\
  pendingRetry (snd (insertUserMessage (js "new question") elsewhere))
  = pendingRetry elsewhere.
Proof. vm_compute. repeat split. Qed.

(** Against C3 as first stated: a retry whose Generating call fails
    leaves the token in place, a second online event retries again, and
    a new user message whose turn fails does not discard the token,
    which the next online event then retries. *)
Lemma failed_retry_keeps_token :
  let w := Sample.page [Sample.said "user" "hi"] (Some Sample.token)
             [Sample.replies (js ""); Sample.answers 500 JNull] in
  let w1 := snd (on_online w) in
  let w2 := snd (on_online
                   (set_network [Sample.replies (js ""); Sample.answers 500 JNull] w1)) in
  (retryAtMs Sample.token <= clock w)%Z /\
  getActiveSession w = Some 0%nat /\
  pendingRetry w1 = Some Sample.token /\
  map fst (fetches (trace w1)) = [INTERPRETER_URL; GURUJI_URL] /\
  map fst (fetches (trace w2))
    = [INTERPRETER_URL; GURUJI_URL; INTERPRETER_URL; GURUJI_URL] /\
  (let w3 := snd (insertUserMessage (js "new question")
                    (set_network [Sample.replies (js ""); Sample.answers 500 JNull] w)) in
   pendingRetry w3 = Some Sample.token /\
   let w4 := snd (on_online
                    (set_network [Sample.replies (js ""); Sample.replies (js "Hari Om")] w3)) in
   map (fun call => last (contents (snd call)) (user_turn []))
       (fetches (trace w4))
   = [user_turn (js "new question"); user_turn (js "new question");
      user_turn (js "hi"); user_turn (js "hi")]).
Proof. vm_compute. repeat split; discriminate. Qed.

(** ** The calls a turn makes *)

Lemma fetches_app a b : fetches (a ++ b) = fetches a ++ fetches b.
Proof. unfold fetches. apply flat_map_app. Qed.

Lemma langToggle_click_trace uuid w :
  exists s a t,
    trace (snd (langToggle_click uuid w))
      = trace w ++ [EvSaveSessions s a; EvToast t].
Proof.
  unfold langToggle_click, bind, read, change, createNewSession, saveSessions,
    showToast, change.
  cbn [snd trace emit set_ls_language set_heap set_sessions set_activeSessionId].
  do 3 eexists. rewrite <- app_assoc. reflexivity.
Qed.

Lemma fetches_run_ui e w : fetches (trace (run_ui e w)) = fetches (trace w).
Proof.
  destruct e as [uuid]. cbn [run_ui].
  destruct (langToggle_click_trace uuid w) as (s & a & t & ->).
  rewrite fetches_app. cbn. apply app_nil_r.
Qed.

Lemma fetches_run_all es w :
  fetches (trace (fold_left (fun x e => run_ui e x) es w)) = fetches (trace w).
Proof.
  revert w. induction es as [| e es IH]; intros w; cbn; [reflexivity | ].
  now rewrite IH, fetches_run_ui.
Qed.

Lemma geminiFetch_fetches url key p t w r w' :
  geminiFetch url key p t w = (r, w') ->
  fetches (trace w') = fetches (trace w) ++ [(url, p)].
Proof.
  unfold geminiFetch. cbn [network emit].
  assert (fetches (trace w ++ [EvFetch url key p t]) = fetches (trace w) ++ [(url, p)])
    as F by (now rewrite fetches_app).
  destruct (network w) as [| step rest].
  - intros [= _ <-]. exact F.
  - set (w2 := fold_left _ _ _).
    assert (fetches (trace w2) = fetches (trace w) ++ [(url, p)]) as F2
      by (unfold w2; now rewrite fetches_run_all).
    destruct (t <=? elapsed step)%Z; [intros [= _ <-]; exact F2 | ].
    destruct (outcome step) as [status body | msg];
      [destruct ((200 <=? status) && (status <=? 299))%Z | ];
      intros [= _ <-]; exact F2.
Qed.

Lemma geminiFetch_trace url key p t w r w' :
  geminiFetch url key p t w = (r, w') ->
  exists l, trace w' = trace w ++ EvFetch url key p t :: l.
Proof.
  unfold geminiFetch. cbn [network emit].
  destruct (network w) as [| step rest].
  - intros [= _ <-]. now exists [].
  - set (w2 := fold_left _ _ _).
    assert (exists l, trace w2 = trace w ++ EvFetch url key p t :: l) as F2.
    { destruct (keeps_trace _ _ (keeps_run_all (during step)
                  (set_network rest (emit (EvFetch url key p t) w)))) as (l & E).
      exists l. fold w2 in E. rewrite E. cbn. now rewrite <- app_assoc. }
    destruct (t <=? elapsed step)%Z; [intros [= _ <-]; exact F2 | ].
    destruct (outcome step) as [status body | msg];
      [destruct ((200 <=? status) && (status <=? 299))%Z | ];
      intros [= _ <-]; exact F2.
Qed.

(** A call that fails returns no text. *)

Lemma failed_call_result t url key p w :
  call_fails t (network w) ->
  exists r w1, geminiFetch url key p t w = (Val r, w1) /\ no_text r.
Proof.
  unfold call_fails, geminiFetch. cbn [network emit].
  destruct (network w) as [| step rest].
  - intros _. do 2 eexists. split; [reflexivity | exact I].
  - intros H.
    destruct (Z.leb_spec t (elapsed step)) as [L | L].
    { do 2 eexists. split; [reflexivity | exact I]. }
    destruct H as [H | [(msg & H) | (status & body & H & B)]]; [lia | | ].
    + rewrite H. do 2 eexists. split; [reflexivity | exact I].
    + rewrite H.
      destruct ((200 <=? status) && (status <=? 299))%Z eqn:S.
      * do 2 eexists. split; [reflexivity | ]. cbn.
        destruct B as [B | B]; [ | exact B].
        apply andb_true_iff in S as [S1 S2].
        apply Z.leb_le in S1, S2. lia.
      * do 2 eexists. split; [reflexivity | exact I].
Qed.

Lemma interpret_no_text raw key w prompt r w1 :
  buildInterpreterPrompt (getLanguage w) (clock w) = Val prompt ->
  geminiFetch INTERPRETER_URL key
    (mkPayload prompt [mkContent (js "user") raw]
       (mkConfig 15 (Some 90%Z) None 240))
    20000 w = (Val r, w1) ->
  no_text r ->
  interpretUserQuery raw key w = (Val raw, w1).
Proof.
  intros P F N. unfold interpretUserQuery, bind, read, lift at 1.
  rewrite P, F.
  destruct r as [st tx | st j tx]; [reflexivity | ].
  destruct N as (text & E & T). unfold lift. rewrite E, T. reflexivity.
Qed.

Lemma translate_no_text reply key w r w1 :
  getLanguage w = js "mr" -> looksEnglish reply = true ->
  geminiFetch INTERPRETER_URL key (translation_payload reply) 25000 w = (Val r, w1) ->
  no_text r ->
  translateToMarathiIfNeeded reply key w = (Val reply, w1).
Proof.
  intros L E F N. unfold translateToMarathiIfNeeded, bind, read.
  cbv beta iota. rewrite L, jseqb_refl, E. cbn [negb].
  unfold translation_payload, user_turn in F. rewrite F.
  destruct r as [st tx | st j tx]; [reflexivity | ].
  destruct N as (text & X & T). unfold lift. rewrite X, T. reflexivity.
Qed.

Lemma translate_calls reply key w r w1 :
  getLanguage w = js "mr" -> looksEnglish reply = true ->
  geminiFetch INTERPRETER_URL key (translation_payload reply) 25000 w = (Val r, w1) ->
  snd (translateToMarathiIfNeeded reply key w) = w1.
Proof.
  intros L E F. unfold translateToMarathiIfNeeded, bind, read.
  cbv beta iota. rewrite L, jseqb_refl, E. cbn [negb].
  unfold translation_payload, user_turn in F. rewrite F.
  destruct r as [st tx | st j tx]; [reflexivity | ].
  unfold lift. destruct (extractTextFromGemini j); reflexivity.
Qed.

Lemma after_generating_trace session raw key result w2 :
  exists l,
    trace (snd (match result with
                | Failed status text => report_failure session raw status text w2
                | Succeeded _ json _ => accept_reply session key json w2
                end)) = trace w2 ++ l.
Proof.
  destruct result as [status text | status json text].
  - rewrite report_failure_cases.
    destruct (if (status =? 429)%Z then parseRetryDelaySeconds text else None)
      as [sec | ]; [destruct (sec =? 0)%Z | ]; cbn; eauto.
  - rewrite accept_reply_cases.
    destruct (extractTextFromGemini json) as [text0 | e].
    2: { exists []. cbn. now rewrite app_nil_r. }
    destruct (translateToMarathiIfNeeded _ key w2) as [[reply | e] w3] eqn:T;
      destruct (keeps_trace _ _ (Keeps_run _ _ _ _ (Keeps_translate _ _) T))
        as (l & E).
    + cbn. rewrite E, <- app_assoc. eauto.
    + cbn. eauto.
Qed.

(** ** The corrective translation *)

(** C5 (amended).  When the Generating call succeeds, the language mode
    read at that moment is Marathi and the reply holds more than 40
    Latin letters and fewer than 10 Devanagari code units, the turn
    makes exactly one further call, the translation call with the reply
    as its only content; and if that call returns no text (a result
    that is not ok, or an empty text) the assistant message stored is
    the reply as it was. *)
Theorem english_reply_translated_once
    session raw w status json text w2 t ss :
  reaches_generating session raw w (Succeeded status json text) w2 ->
  extractTextFromGemini json = Val t ->
  let reply := or_else (Some (JS.trim t)) (js "[No response]") in
  getLanguage w2 = js "mr" ->
  (40 < count is_latin reply)%nat ->
  (count is_devanagari reply < 10)%nat ->
  deref w session = Some ss ->
  let w' := snd (callGuruji session raw w) in
  exists result w3,
    geminiFetch INTERPRETER_URL (getApiKey w) (translation_payload reply) 25000 w2
      = (Val result, w3) /\
    fetches (trace w')
      = fetches (trace w2) ++ [(INTERPRETER_URL, translation_payload reply)] /\
    (no_text result ->
     session_messages w' session
       = messages ss ++ [mkMessage (js "assistant") reply (clock w3)]).
Proof.
  intros R X reply L C1 C2 D w'.
  assert (looksEnglish reply = true) as E.
  { unfold looksEnglish. apply andb_true_iff. split;
      apply Nat.ltb_lt; assumption. }
  destruct (geminiFetch_val INTERPRETER_URL (getApiKey w)
              (translation_payload reply) 25000 w2) as (result & w3 & F).
  exists result, w3. split; [exact F | ].
  pose proof (reaches_keeps _ _ _ _ _ R) as K2.
  pose proof (Keeps_run _ _ _ _ (Keeps_geminiFetch _ _ _ _) F) as K3.
  assert (deref w3 session = Some ss) as D3 by (apply K3; now apply K2).
  pose proof (geminiFetch_fetches _ _ _ _ _ _ _ F) as FF.
  pose proof (translate_calls reply (getApiKey w) w2 result w3 L E F) as TW.
  assert (w' = snd (callGuruji session raw w)) as W by reflexivity.
  clearbody w'.
  rewrite (callGuruji_reaches _ _ _ _ _ R), accept_reply_cases, X in W.
  fold reply in W.
  destruct (translateToMarathiIfNeeded reply (getApiKey w) w2)
    as [[reply' | e] w3'] eqn:T; cbn [snd] in TW; subst w3'.
  - cbn [snd] in W. split.
    + subst w'. cbn. rewrite !fetches_app. cbn. rewrite !app_nil_r. exact FF.
    + intros N.
      rewrite (translate_no_text reply (getApiKey w) w2 result w3 L E F N) in T.
      injection T as <-. subst w'.
      change (session_messages
                (snd ((push_message session
                         (mkMessage (js "assistant") reply (clock w3)) ;;
                       set_updatedAtISO session (clock w3) ;; saveSessions) w3))
                session = messages ss ++ [mkMessage (js "assistant") reply (clock w3)]).
      now apply stored_messages.
  - cbn [snd] in W. split.
    + subst w'. cbn. rewrite !fetches_app. cbn. rewrite !app_nil_r. exact FF.
    + intros N.
      rewrite (translate_no_text reply (getApiKey w) w2 result w3 L E F N) in T.
      discriminate T.
Qed.


Lemma english_reply_translated_once_witness :
  let w := Sample.page [Sample.said "user" "hi"] None
             [Sample.replies (js ""); Sample.replies Sample.forty_one;
              Sample.answers 500 JNull] in
  session_messages (snd (callGuruji 0 (js "hi") w)) 0
    = [Sample.said "user" "hi";
       mkMessage (js "assistant") Sample.forty_one (Sample.t0 + 300)%Z].
Proof.
  intros w.
  pose (w1 := snd (interpretUserQuery (js "hi") (js "key") (turn_start w))).
  pose (w2 := snd (geminiFetch GURUJI_URL (js "key")
                     (buildGurujiPayload w1 (session_messages w1 0) (js "hi"))
                     30000 w1)).
  assert (reaches_generating 0 (js "hi") w
            (Succeeded 200 (Sample.reply_json Sample.forty_one)
               (Sample.body_of (Sample.reply_json Sample.forty_one))) w2) as R.
  { repeat split. exists (js "hi"), w1. split; vm_compute; reflexivity. }
  destruct (english_reply_translated_once 0 (js "hi") w 200%Z
              (Sample.reply_json Sample.forty_one)
              (Sample.body_of (Sample.reply_json Sample.forty_one)) w2
              Sample.forty_one (Sample.consultation [Sample.said "user" "hi"])
              R eq_refl eq_refl
              ltac:(vm_compute; lia) ltac:(vm_compute; lia) eq_refl)
    as (result & w3 & F & _ & S).
  vm_compute in F. injection F as <- <-.
  exact (S I).
Defined.

(** Against C5 as first stated: a reply of exactly 40 Latin letters, in
    Marathi mode, is stored without any translation call. *)
Lemma forty_letters_not_translated :
  let w := Sample.page [Sample.said "user" "hi"] None
             [Sample.replies (js ""); Sample.replies Sample.forty;
              Sample.replies (js "translated")] in
  let w' := snd (callGuruji 0 (js "hi") w) in
  getLanguage w' = js "mr" /\
  count is_latin Sample.forty = 40%nat /\
  count is_devanagari Sample.forty = 0%nat /\
  filter is_translation (fetches (trace w')) = [] /\
  session_messages w' 0
    = [Sample.said "user" "hi";
       mkMessage (js "assistant") Sample.forty (Sample.t0 + 200)%Z].
Proof. vm_compute. repeat split. Qed.

(** ** The Interpreter stage *)

Lemma langToggle_click_handled uuid w :
  exists l, trace (snd (langToggle_click uuid w)) = trace w ++ l /\
            Forall from_handler l.
Proof.
  assert (exists saved active lang,
             trace (snd (langToggle_click uuid w))
             = trace w ++ [EvSaveSessions saved active;
                           EvToast (ToastLanguage lang)])
    as (saved & active & lang & E).
  { unfold langToggle_click, bind, read, change, createNewSession, saveSessions,
      change, showToast, change.
    cbn [snd fst trace emit set_activeSessionId set_sessions set_heap
           set_ls_language or_else activeSessionId].
    do 3 eexists. rewrite <- app_assoc. reflexivity. }
  eexists. split; [exact E | repeat constructor].
Qed.

Lemma handlers_handled es w :
  exists l, trace (fold_left (fun x e => run_ui e x) es w) = trace w ++ l /\
            Forall from_handler l.
Proof.
  revert w. induction es as [| e es IH]; intros w.
  - exists []. split; [now rewrite app_nil_r | constructor].
  - cbn [fold_left]. destruct (IH (run_ui e w)) as (l2 & E2 & F2).
    destruct e as [uuid]. cbn [run_ui] in *.
    destruct (langToggle_click_handled uuid w) as (l1 & E1 & F1).
    exists (l1 ++ l2). split.
    + now rewrite E2, E1, app_assoc.
    + now apply Forall_app.
Qed.

Lemma geminiFetch_handled url key p t w :
  exists l, trace (snd (geminiFetch url key p t w))
            = trace w ++ EvFetch url key p t :: l /\
            Forall from_handler l.
Proof.
  unfold geminiFetch. cbn [network emit].
  destruct (network w) as [| step rest].
  - exists []. split; [reflexivity | constructor].
  - set (w2 := fold_left _ _ _).
    assert (exists l, trace w2 = trace w ++ EvFetch url key p t :: l /\
                      Forall from_handler l) as F2.
    { destruct (handlers_handled (during step)
                  (set_network rest (emit (EvFetch url key p t) w)))
        as (l & E & F).
      exists l. fold w2 in E. rewrite E. cbn. now rewrite <- app_assoc. }
    destruct (t <=? elapsed step)%Z; [exact F2 | ].
    destruct (outcome step) as [status body | msg];
      [destruct ((200 <=? status) && (status <=? 299))%Z | ]; exact F2.
Qed.

Lemma geminiFetch_alone url key p t w :
  undisturbed (network w) ->
  trace (snd (geminiFetch url key p t w)) = trace w ++ [EvFetch url key p t].
Proof.
  unfold geminiFetch. cbn [network emit].
  destruct (network w) as [| step rest]; intros U; [reflexivity | ].
  inversion U as [| ? ? D _]. rewrite D. cbn [fold_left].
  destruct (t <=? elapsed step)%Z; [reflexivity | ].
  destruct (outcome step) as [status body | msg];
    [destruct ((200 <=? status) && (status <=? 299))%Z | ]; reflexivity.
Qed.

(** C7.  When the guards pass and the Interpreter call fails (no
    exchange left, time-out, rejection, a status that is not 2xx, or an
    empty text), [interpretUserQuery] returns the raw text without
    throwing, and [callGuruji] goes on to the Generating call, whose
    last content is that raw text.  Nothing of the failure is shown:
    the stage leaves the page as its call to the service left it, so
    that between the two requests the page does only what the handlers
    that ran while the Interpreter call was pending did (a save of the
    sessions, the toast of the language mode; nothing at all when no
    handler ran), and the session objects, the retry token, the key and
    the connectivity flag are as they were.  The clock is taken from the epoch up to three days before
    the largest time value, where the dates of the prompt exist. *)
Theorem interpreter_failure_falls_back session raw w :
  JS.eqb (getApiKey w) [] = false ->
  onLine w = true ->
  (0 <= clock w <= ES.maxTime - 3 * ES.msPerDay)%Z ->
  call_fails 20000 (network w) ->
  exists w1,
    interpretUserQuery raw (getApiKey w) (turn_start w) = (Val raw, w1) /\
    let payload := buildGurujiPayload w1 (session_messages w1 session) raw in
    last (contents payload) (user_turn []) = user_turn raw /\
    In (EvFetch GURUJI_URL (getApiKey w) payload 30000)
       (trace (snd (callGuruji session raw w))) /\
    keeps w w1 /\
    exists prompt handled rest,
      buildInterpreterPrompt (getLanguage w) (clock w) = Val prompt /\
      w1 = snd (geminiFetch INTERPRETER_URL (getApiKey w)
                  (mkPayload prompt [user_turn raw]
                     (mkConfig 15 (Some 90%Z) None 240)) 20000 (turn_start w)) /\
      Forall from_handler handled /\
      (undisturbed (network w) -> handled = []) /\
      trace w1
      = trace w
        ++ [EvSendingDisabled true; EvTyping true;
            EvFetch INTERPRETER_URL (getApiKey w)
              (mkPayload prompt [user_turn raw]
                 (mkConfig 15 (Some 90%Z) None 240)) 20000]
        ++ handled /\
      trace (snd (callGuruji session raw w))
      = trace w1 ++ EvFetch GURUJI_URL (getApiKey w) payload 30000 :: rest.
Proof.
  intros K O T C.
  destruct (buildInterpreterPrompt_builds (getLanguage w) (clock w) T)
    as (prompt & P & _).
  destruct (failed_call_result 20000 INTERPRETER_URL (getApiKey w)
              (mkPayload prompt [mkContent (js "user") raw]
                 (mkConfig 15 (Some 90%Z) None 240))
              (turn_start w) C) as (r & w1 & F & N).
  pose proof (interpret_no_text raw (getApiKey w) (turn_start w) prompt r w1 P F N)
    as I.
  exists w1. split; [exact I | ]. intros payload.
  destruct (geminiFetch_val GURUJI_URL (getApiKey w) payload 30000 w1)
    as (result & w2 & G).
  assert (reaches_generating session raw w result w2) as R.
  { split; [exact K | split; [exact O | ]]. exists raw, w1. now split. }
  destruct (geminiFetch_trace _ _ _ _ _ _ _ G) as (l & E).
  destruct (after_generating_trace session raw (getApiKey w) result w2) as (l' & E').
  assert (trace (snd (callGuruji session raw w))
          = trace w1 ++ EvFetch GURUJI_URL (getApiKey w) payload 30000
                        :: l ++ l' ++ [EvTyping false; EvSendingDisabled false])
    as Whole.
  { rewrite (callGuruji_reaches _ _ _ _ _ R).
    destruct (match result with
              | Failed status text => report_failure session raw status text w2
              | Succeeded _ json _ => accept_reply session (getApiKey w) json w2
              end) as [r' w3].
    cbn [snd] in E' |- *. cbn [turn_end emit trace].
    rewrite E', E, <- !app_assoc. cbn [app]. reflexivity. }
  split; [ | split; [ | split]].
  - unfold payload, buildGurujiPayload. cbn [contents]. apply last_last.
  - rewrite Whole. apply in_app_iff. right. now left.
  - apply (keeps_trans _ (turn_start w)); [apply keeps_turn_start | ].
    exact (Keeps_run _ _ _ _ (Keeps_geminiFetch _ _ _ _) F).
  - destruct (geminiFetch_handled INTERPRETER_URL (getApiKey w)
                (mkPayload prompt [mkContent (js "user") raw]
                   (mkConfig 15 (Some 90%Z) None 240)) 20000 (turn_start w))
      as (handled & H & FH).
    rewrite F in H. cbn [snd] in H.
    exists prompt, handled, (l ++ l' ++ [EvTyping false; EvSendingDisabled false]).
    split; [exact P | ].
    split; [unfold user_turn; now rewrite F | ].
    split; [exact FH | ].
    split; [ | split; [ | exact Whole]].
    + intros U.
      pose proof (geminiFetch_alone INTERPRETER_URL (getApiKey w)
                    (mkPayload prompt [mkContent (js "user") raw]
                       (mkConfig 15 (Some 90%Z) None 240)) 20000 (turn_start w) U)
        as A.
      rewrite F in A. cbn [snd] in A. rewrite A in H.
      apply app_inv_head in H. now injection H as <-.
    + rewrite H. unfold turn_start. cbn [trace emit].
      rewrite <- !app_assoc. reflexivity.
Qed.

Lemma interpreter_failure_falls_back_witness :
  let w := Sample.page [Sample.said "user" "udya agnivas?"] None
             [Sample.answers 500 JNull; Sample.replies (js "Hari Om")] in
  exists w1,
    interpretUserQuery (js "udya agnivas?") (getApiKey w) (turn_start w)
      = (Val (js "udya agnivas?"), w1) /\
    fetches (trace w1)
    = [(INTERPRETER_URL,
        mkPayload (InterpreterPrompt (js "02 November 2026") (js "2026-11-02")
                     (js "03 November 2026") (js "2026-11-03")
                     (js "04 November 2026") (js "2026-11-04") Marathi)
          [user_turn (js "udya agnivas?")] (mkConfig 15 (Some 90%Z) None 240))] /\
    filter (fun e => match e with EvToast _ => true | _ => false end)
      (trace (snd (callGuruji 0 (js "udya agnivas?") w))) = [].
Proof.
  intros w.
  destruct (interpreter_failure_falls_back 0 (js "udya agnivas?") w
              eq_refl eq_refl) as (w1 & I & _).
  - unfold ES.maxTime, ES.msPerDay. cbn [clock w Sample.page]. unfold Sample.t0. lia.
  - right. right. exists 500%Z, (Sample.body_of JNull). split; [reflexivity | ].
    left. lia.
  - exists w1. split; [exact I | ].
    vm_compute in I. injection I as <-. vm_compute. split; reflexivity.
Defined.

(** ** The language mode during a turn *)

Lemma quiet_refl lang w :
  undisturbed (network w) -> getLanguage w = lang -> quiet lang w w.
Proof.
  intros U L. split; [exact U | split; [exact L | ]].
  exists []. split; [now rewrite app_nil_r | constructor].
Qed.

Lemma quiet_trans lang w1 w2 w3 :
  quiet lang w1 w2 -> quiet lang w2 w3 -> quiet lang w1 w3.
Proof.
  intros (_ & _ & c1 & T1 & F1) (U & L & c2 & T2 & F2).
  split; [exact U | split; [exact L | ]].
  exists (c1 ++ c2). split.
  - now rewrite T2, T1, app_assoc.
  - apply Forall_app. now split.
Qed.

Lemma Quiet_ret {A} lang (a : A) : Quiet lang (ret a).
Proof. intros w U L. now apply quiet_refl. Qed.

Lemma Quiet_lift {A} lang (r : Result A) : Quiet lang (lift r).
Proof. intros w U L. now apply quiet_refl. Qed.

Lemma Quiet_change lang f : silent f -> Quiet lang (change f).
Proof.
  intros S w U L. destruct (S w) as (N & G & T). cbn [change snd].
  split; [now rewrite N | split].
  - unfold getLanguage in *. now rewrite G.
  - exists []. split; [now rewrite app_nil_r | constructor].
Qed.

Lemma Quiet_bind {A B} lang (c : M A) (k : A -> M B) :
  Quiet lang c -> (forall a, Quiet lang (k a)) -> Quiet lang (bind c k).
Proof.
  intros Hc Hk w U L. unfold bind. specialize (Hc w U L).
  destruct (c w) as [[a | e] w1]; cbn [snd] in *; [ | exact Hc].
  eapply quiet_trans; [exact Hc | ].
  destruct Hc as (U1 & L1 & _). now apply Hk.
Qed.

Lemma Quiet_bind_lift {A B} lang (r : Result A) (k : A -> M B) :
  (forall a, r = Val a -> Quiet lang (k a)) -> Quiet lang (bind (lift r) k).
Proof.
  intros H w U L. unfold bind, lift. destruct r as [a | e]; cbn [snd].
  - now apply (H a).
  - now apply quiet_refl.
Qed.

Lemma Quiet_bind_read {A B} lang (f : World -> A) (k : A -> M B) :
  (forall w, getLanguage w = lang -> Quiet lang (k (f w))) ->
  Quiet lang (bind (read f) k).
Proof. intros H w U L. unfold bind, read. now apply H. Qed.

Lemma Quiet_try_finally {A} lang (body : M A) (fin : M unit) :
  Quiet lang body -> Quiet lang fin -> Quiet lang (try_finally body fin).
Proof.
  intros Hb Hf w U L. unfold try_finally. specialize (Hb w U L).
  destruct (body w) as [r w1]. cbn [snd] in Hb.
  pose proof Hb as (U1 & L1 & _). specialize (Hf w1 U1 L1).
  destruct (fin w1) as [[u | e] w2]; cbn [snd] in *;
    eapply quiet_trans; eassumption.
Qed.

Lemma silent_emit e :
  match e with EvFetch _ _ _ _ => False | _ => True end -> silent (emit e).
Proof.
  intros H w. repeat split. cbn. rewrite fetches_app.
  destruct e; try contradiction; cbn; apply app_nil_r.
Qed.

Lemma silent_set_heap f : silent (fun w => set_heap (f w) w).
Proof. intros w. repeat split. Qed.

Lemma silent_set_pendingRetry p : silent (set_pendingRetry p).
Proof. intros w. repeat split. Qed.

Lemma Quiet_showToast lang t : Quiet lang (showToast t).
Proof. apply Quiet_change, silent_emit. exact I. Qed.

Lemma Quiet_update_session lang session f : Quiet lang (update_session session f).
Proof.
  apply Quiet_change. intros w. repeat split.
Qed.

Lemma Quiet_saveSessions lang : Quiet lang saveSessions.
Proof.
  apply Quiet_change. intros w. repeat split. cbn. rewrite fetches_app.
  cbn. apply app_nil_r.
Qed.

Lemma Quiet_geminiFetch lang url key p t :
  composed_for lang p -> Quiet lang (geminiFetch url key p t).
Proof.
  intros C w U L. unfold geminiFetch. cbn [network emit].
  assert (fetches (trace w ++ [EvFetch url key p t]) = fetches (trace w) ++ [(url, p)])
    as F by (now rewrite fetches_app).
  assert (Forall (fun call => composed_for lang (snd call)) [(url, p)]) as G
    by (constructor; [exact C | constructor]).
  destruct (network w) as [| step rest] eqn:N.
  - cbn [snd]. split; [cbn; rewrite N; constructor | split; [exact L | eauto]].
  - pose proof (Forall_inv U) as D. pose proof (Forall_inv_tail U) as U'.
    cbv beta in D. rewrite D. cbn [fold_left].
    destruct (t <=? elapsed step)%Z;
      [ | destruct (outcome step) as [status body | msg];
          [destruct ((200 <=? status) && (status <=? 299))%Z | ]];
      cbn [snd]; (split; [exact U' | split; [exact L | eauto]]).
Qed.

Lemma Quiet_interpretUserQuery lang raw key : Quiet lang (interpretUserQuery raw key).
Proof.
  unfold interpretUserQuery.
  apply Quiet_bind_read. intros w L.
  apply Quiet_bind_read. intros w' _.
  apply Quiet_bind_lift. intros prompt P.
  apply Quiet_bind.
  - apply Quiet_geminiFetch. unfold composed_for. cbn [systemInstruction].
    rewrite <- L. unfold buildInterpreterPrompt, buildInterpreterPrompt_at in P.
    destruct (on_valid (addDaysIST (clock w') 1) istDateISO); [ | discriminate].
    destruct (on_valid (addDaysIST (clock w') 2) istDateISO); [ | discriminate].
    destruct (on_valid (addDaysIST (clock w') 1) istDateHuman); [ | discriminate].
    destruct (on_valid (addDaysIST (clock w') 2) istDateHuman); [ | discriminate].
    injection P as <-. reflexivity.
  - intros [st tx | st j tx]; [apply Quiet_ret | ].
    apply Quiet_bind; [apply Quiet_lift | intros; apply Quiet_ret].
Qed.

Lemma Quiet_translate lang reply key : Quiet lang (translateToMarathiIfNeeded reply key).
Proof.
  unfold translateToMarathiIfNeeded.
  apply Quiet_bind_read. intros w L.
  destruct (JS.eqb (getLanguage w) (js "mr")) eqn:E; cbn [negb]; [ | apply Quiet_ret].
  destruct (negb (looksEnglish reply)); [apply Quiet_ret | ].
  apply Quiet_bind.
  - apply Quiet_geminiFetch. unfold composed_for. cbn [systemInstruction].
    apply jseqb_eq in E. congruence.
  - intros [st tx | st j tx]; [apply Quiet_ret | ].
    apply Quiet_bind; [apply Quiet_lift | intros; apply Quiet_ret].
Qed.

Lemma Quiet_report_failure lang session raw status text :
  Quiet lang (report_failure session raw status text).
Proof.
  unfold report_failure.
  destruct (status =? 429)%Z.
  - destruct (parseRetryDelaySeconds text) as [sec | ]; [ | apply Quiet_showToast].
    destruct (negb (sec =? 0)%Z); [ | apply Quiet_showToast].
    apply Quiet_bind; [apply Quiet_showToast | intros _].
    apply Quiet_bind_read. intros w _.
    apply Quiet_bind_read. intros w' _.
    apply Quiet_change, silent_set_pendingRetry.
  - destruct ((status =? 401) || (status =? 403))%Z; [apply Quiet_showToast | ].
    destruct (status =? 400)%Z; [apply Quiet_showToast | ].
    destruct (status =? 404)%Z; apply Quiet_showToast.
Qed.

Lemma Quiet_accept_reply lang session key json :
  Quiet lang (accept_reply session key json).
Proof.
  unfold accept_reply.
  apply Quiet_bind; [apply Quiet_lift | intros text].
  apply Quiet_bind; [apply Quiet_translate | intros reply].
  apply Quiet_bind_read. intros w _.
  apply Quiet_bind; [apply Quiet_update_session | intros _].
  apply Quiet_bind; [apply Quiet_update_session | intros _].
  apply Quiet_bind; [apply Quiet_saveSessions | intros _].
  apply Quiet_change, silent_set_pendingRetry.
Qed.

Lemma Quiet_callGuruji lang session raw : Quiet lang (callGuruji session raw).
Proof.
  unfold callGuruji.
  apply Quiet_bind_read. intros w _.
  destruct (JS.eqb (getApiKey w) []); [apply Quiet_showToast | ].
  apply Quiet_bind_read. intros w' _.
  destruct (negb (onLine w')); [apply Quiet_showToast | ].
  apply Quiet_bind; [apply Quiet_change, silent_emit; exact I | intros _].
  apply Quiet_bind; [apply Quiet_change, silent_emit; exact I | intros _].
  apply Quiet_try_finally.
  - unfold callGuruji_try.
    apply Quiet_bind; [apply Quiet_interpretUserQuery | intros rewritten].
    apply Quiet_bind_read. intros w1 L1.
    apply Quiet_bind.
    + apply Quiet_geminiFetch. cbn. now rewrite L1.
    + intros [st tx | st j tx];
        [apply Quiet_report_failure | apply Quiet_accept_reply].
  - apply Quiet_bind; [ | intros _]; apply Quiet_change, silent_emit; exact I.
Qed.

(** C6 (amended).  Each stage reads the language mode when it starts.
    When no handler runs while the calls of the turn are pending, every
    call of the turn is composed for the mode in force at turn start:
    the Interpreter prompt and the Guruji instruction name it, and a
    translation is asked for only when it is Marathi. *)
Theorem language_fixed_when_undisturbed session raw w :
  undisturbed (network w) ->
  exists calls,
    fetches (trace (snd (callGuruji session raw w))) = fetches (trace w) ++ calls /\
    Forall (fun call => composed_for (getLanguage w) (snd call)) calls.
Proof.
  intros U.
  destruct (Quiet_callGuruji (getLanguage w) session raw w U eq_refl)
    as (_ & _ & H).
  exact H.
Qed.

Lemma language_fixed_when_undisturbed_witness :
  let w := Sample.page [Sample.said "user" "hi"] None
             [Sample.replies (js ""); Sample.replies Sample.forty_one;
              Sample.replies (js "translated")] in
  exists calls,
    fetches (trace (snd (callGuruji 0 (js "hi") w))) = fetches (trace w) ++ calls /\
    Forall (fun call => composed_for (getLanguage w) (snd call)) calls.
Proof.
  intros w. apply (language_fixed_when_undisturbed 0 (js "hi") w).
  repeat constructor.
Defined.

(** Against C6 as first stated: two runs of one turn from the same
    page, the second with a click on the language toggle while the
    Interpreter call is pending.  The Guruji instruction then locks
    English instead of Marathi, no translation is asked for, and another
    reply is stored. *)
Lemma mode_change_mid_turn_changes_stage_inputs :
  let steady := Sample.page [Sample.said "user" "hi"] None
                  [Sample.replies (js ""); Sample.replies Sample.forty_one;
                   Sample.replies (js "translated")] in
  let toggled := Sample.page [Sample.said "user" "hi"] None
                   [mkNetStep [LangToggleClick (js "s2")] 100
                      (Responded 200 (Sample.body_of (Sample.reply_json (js ""))));
                    Sample.replies Sample.forty_one;
                    Sample.replies (js "translated")] in
  getLanguage steady = getLanguage toggled /\
  map (fun call => (fst call, language_of (systemInstruction (snd call))))
      (fetches (trace (snd (callGuruji 0 (js "hi") steady))))
  = [(INTERPRETER_URL, Some Marathi); (GURUJI_URL, Some Marathi);
     (INTERPRETER_URL, None)] /\
  map (fun call => (fst call, language_of (systemInstruction (snd call))))
      (fetches (trace (snd (callGuruji 0 (js "hi") toggled))))
  = [(INTERPRETER_URL, Some Marathi); (GURUJI_URL, Some English)] /\
  session_messages (snd (callGuruji 0 (js "hi") steady)) 0
  <> session_messages (snd (callGuruji 0 (js "hi") toggled)) 0.
Proof. vm_compute. repeat split. discriminate. Qed.

(** ** The conversation window *)

Lemma slice_last_length {A} n (l : list A) :
  length (slice_last n l) = Nat.min (length l) n.
Proof. unfold slice_last. rewrite length_skipn. lia. Qed.

Lemma window_length w msgs final :
  length (contents (buildGurujiPayload w msgs final))
  = S (Nat.min (length msgs) MAX_HISTORY).
Proof.
  unfold buildGurujiPayload. cbn [contents].
  rewrite length_app, length_map, slice_last_length. cbn [length]. lia.
Qed.

(** C1 (amended).  For a session log of more than N = 18 messages, the
    contents built for the Generating call are the last N messages of
    the log, each as a user or model turn, followed by one more user
    turn that carries the final (possibly rewritten) query: N + 1
    entries, the last one that query, the one before it the most
    recently appended message.  The log itself is an argument of
    [buildGurujiPayload] and comes out untouched. *)
Theorem window_is_history_plus_query w older recent final :
  (MAX_HISTORY < length (older ++ [recent]))%nat ->
  let window := contents (buildGurujiPayload w (older ++ [recent]) final) in
  window = map history_entry (slice_last MAX_HISTORY (older ++ [recent]))
           ++ [user_turn final] /\
  length window = S MAX_HISTORY /\
  last window (user_turn []) = user_turn final /\
  nth_error window (MAX_HISTORY - 1) = Some (history_entry recent).
Proof.
  intros H window. split; [reflexivity | ]. split; [ | split].
  - unfold window. rewrite window_length. lia.
  - unfold window, buildGurujiPayload. cbn [contents]. apply last_last.
  - unfold window, buildGurujiPayload. cbn [contents].
    rewrite nth_error_app1
      by (rewrite length_map, slice_last_length; unfold MAX_HISTORY in *; lia).
    rewrite nth_error_map. unfold slice_last. rewrite nth_error_skipn.
    rewrite length_app in *. cbn [length] in *.
    replace (length older + 1 - MAX_HISTORY + (MAX_HISTORY - 1))%nat
      with (length older) by (unfold MAX_HISTORY in *; lia).
    rewrite nth_error_app2, Nat.sub_diag by lia. reflexivity.
Qed.


Lemma window_is_history_plus_query_witness :
  let older := removelast Sample.long_log in
  let recent := Sample.said "user" "udya agnivas?" in
  let window :=
    contents (buildGurujiPayload (Sample.page Sample.long_log None [])
                (older ++ [recent]) (js "Tomorrow: Agni Vas?")) in
  window = map history_entry (slice_last MAX_HISTORY (older ++ [recent]))
           ++ [user_turn (js "Tomorrow: Agni Vas?")] /\
  length window = S MAX_HISTORY /\
  last window (user_turn []) = user_turn (js "Tomorrow: Agni Vas?") /\
  nth_error window (MAX_HISTORY - 1) = Some (history_entry recent).
Proof.
  intros older recent.
  apply (window_is_history_plus_query (Sample.page Sample.long_log None [])
           older recent (js "Tomorrow: Agni Vas?")).
  vm_compute. lia.
Defined.

(** Against C1 as first stated: on a log of 19 messages the contents
    have 19 entries, and the last one is not the most recent message of
    the log but the rewritten query. *)
Lemma window_longer_than_N :
  let window :=
    contents (buildGurujiPayload (Sample.page Sample.long_log None [])
                Sample.long_log (js "Tomorrow: Agni Vas?")) in
  (MAX_HISTORY < length Sample.long_log)%nat /\
  length window = 19%nat /\
  ~ (length window <= MAX_HISTORY)%nat /\
  last window (user_turn []) <> history_entry (last Sample.long_log (Sample.said "" "")).
Proof.
  vm_compute. repeat split; try lia. discriminate.
Qed.

(** ** Text extraction *)

Lemma map_parts_total parts :
  Forall (fun p => p <> JNull) parts -> exists texts, map_parts parts = Val texts.
Proof.
  induction 1 as [| p l Hp _ (texts & IH)]; cbn [map_parts]; [eauto | ].
  rewrite IH. destruct p; try congruence; cbn; eauto.
Qed.

Lemma map_parts_scalar parts :
  Forall readable_part parts ->
  exists texts, map_parts parts = Val texts /\ Forall scalar texts.
Proof.
  induction 1 as [| p l [Hp St] _ (texts & IH & F)]; cbn [map_parts];
    [eauto | ].
  rewrite IH. unfold part_text.
  destruct p; try congruence; eexists; (split; [reflexivity | ]);
    constructor; try exact F; cbn [Json.prop] in *; try exact I.
  destruct (Json.lookup (js "text") fields) as [v | ]; [ | exact I].
  destruct (Json.truthy (Some v)); [exact St | exact I].
Qed.

Lemma join_empty_scalar texts :
  Forall scalar texts -> exists text, join_empty texts = Val text.
Proof.
  induction 1 as [| x l Hx _ (text & IH)]; cbn [join_empty]; [eauto | ].
  rewrite IH. destruct x as [ | [|] | | | | ]; cbn; eauto; destruct Hx.
Qed.

(** Where the extraction does return: every part of the first candidate
    is readable. *)
Lemma extract_total_on_readable_parts data :
  (forall parts,
      Json.opt_prop (js "parts")
        (Json.opt_prop (js "content")
           (Json.opt_index0 (Json.opt_prop (js "candidates") (Some data))))
      = Some (JArr parts) ->
      Forall readable_part parts) ->
  exists text, extractTextFromGemini data = Val text.
Proof.
  intros H. unfold extractTextFromGemini.
  destruct (Json.opt_prop (js "parts") _) as [[ | | | | parts | ] | ]; eauto.
  destruct (map_parts_scalar parts (H parts eq_refl)) as (texts & -> & F).
  now apply join_empty_scalar.
Qed.

(** A text that is an object hiding [toString] makes the extraction
    throw as well. *)
Example extract_throws_on_hidden_toString :
  extractTextFromGemini
    (JObj [(js "candidates",
            JArr [JObj [(js "content",
                         JObj [(js "parts",
                                JArr [JObj [(js "text",
                                            JObj [(js "toString", JNum 1)])]])])]])])
  = Thrown TypeError.
Proof. reflexivity. Qed.

Lemma extract_no_parts data :
  (forall parts,
      Json.opt_prop (js "parts")
        (Json.opt_prop (js "content")
           (Json.opt_index0 (Json.opt_prop (js "candidates") (Some data))))
      <> Some (JArr parts)) ->
  extractTextFromGemini data = Val [].
Proof.
  intros H. unfold extractTextFromGemini.
  destruct (Json.opt_prop (js "parts") _) as [[ | | | | parts | ] | ]; auto.
  now destruct (H parts).
Qed.

(** C9.  The code at an envelope whose only part is [null]: the
    extraction throws a TypeError instead of returning a text, the
    turn that receives it as Generating response ends by that
    exception, and no assistant message is stored. *)
Theorem extract_throws_on_null_part :
  extractTextFromGemini Sample.null_part_json = Thrown TypeError /\
  (let w := Sample.page [Sample.said "user" "hi"] None
              [Sample.replies (js ""); Sample.answers 200 Sample.null_part_json] in
   fst (callGuruji 0 (js "hi") w) = Thrown TypeError /\
   session_messages (snd (callGuruji 0 (js "hi") w)) 0 = [Sample.said "user" "hi"]).
Proof. vm_compute. repeat split. Qed.

(** * Further properties of the page *)

(** ** What the text helpers make of a text *)

Lemma skipn_firstn_split {A} n (l : list A) : l = firstn n l ++ skipn n l.
Proof. symmetry. apply firstn_skipn. Qed.

(** X1.  [maskKey] never shows a whole key: its result is a run of bullets
    followed by a suffix of the key of at most four code units, a key
    that is not empty keeps at least one code unit hidden, and the
    result has at most twenty code units. *)
Theorem maskKey_hides_key key :
  exists n hidden shown,
    maskKey key = repeat 8226%N n ++ shown /\
    key = hidden ++ shown /\
    (length shown <= 4)%nat /\
    (key <> [] -> hidden <> []) /\
    (length (maskKey key) <= 20)%nat.
Proof.
  unfold maskKey. destruct (JS.eqb key []) eqn:E.
  - apply jseqb_eq in E. subst key. exists 0%nat, [], []. cbn.
    repeat split; try lia. congruence.
  - destruct (Nat.leb_spec (length key) 4) as [L | L].
    + exists 4%nat, key, []. rewrite !app_nil_r. cbn [repeat length].
      repeat split; try lia. auto.
    + exists 16%nat, (firstn (length key - 4) key), (slice_last 4 key).
      unfold slice_last. split; [reflexivity | ]. split; [apply skipn_firstn_split | ].
      rewrite length_app, repeat_length, length_skipn.
      repeat split; try lia.
      intros _ F. apply (f_equal (@length N)) in F. rewrite length_firstn in F.
      cbn in F. lia.
Qed.

Lemma replace_all_flat_map c by_ s :
  replace_all c by_ s = flat_map (fun a => if (a =? c)%N then by_ else [a]) s.
Proof.
  induction s as [| a r IH]; cbn; [reflexivity | ].
  rewrite IH. now destruct (a =? c)%N.
Qed.

Lemma replace_all_app c by_ a b :
  replace_all c by_ (a ++ b) = replace_all c by_ a ++ replace_all c by_ b.
Proof. now rewrite !replace_all_flat_map, flat_map_app. Qed.

Lemma escapeHTML_units s : escapeHTML s = flat_map escape_unit s.
Proof.
  unfold escapeHTML.
  assert (or_else (Some s) [] = s) as -> by (now destruct s).
  induction s as [| a r IH]; [reflexivity | ].
  change (a :: r) with ([a] ++ r).
  rewrite !replace_all_app, IH. cbn [flat_map app]. f_equal.
  unfold escape_unit. cbn [replace_all].
  destruct (N.eqb_spec a 38) as [-> | A]; [reflexivity | ].
  cbn [replace_all].
  destruct (N.eqb_spec a 60) as [-> | B]; [reflexivity | ].
  cbn [replace_all].
  destruct (N.eqb_spec a 62) as [-> | C]; reflexivity.
Qed.

Lemma escape_unit_cases c :
  (c = 38%N /\ escape_unit c = js "&amp;") \/
  (c = 60%N /\ escape_unit c = js "&lt;") \/
  (c = 62%N /\ escape_unit c = js "&gt;") \/
  (c <> 38%N /\ c <> 60%N /\ c <> 62%N /\ escape_unit c = [c]).
Proof.
  unfold escape_unit.
  destruct (N.eqb_spec c 38); [now left | ].
  destruct (N.eqb_spec c 60); [now right; left | ].
  destruct (N.eqb_spec c 62); [now right; right; left | ].
  now right; right; right.
Qed.

(** X2.  The result of [escapeHTML] holds no [<] and no [>], whatever the
    text. *)
Theorem escapeHTML_no_angle_bracket s :
  ~ In 60%N (escapeHTML s) /\ ~ In 62%N (escapeHTML s).
Proof.
  rewrite escapeHTML_units.
  induction s as [| c r [IH1 IH2]]; [cbn; tauto | ].
  cbn [flat_map]. rewrite !in_app_iff.
  destruct (escape_unit_cases c) as [[_ ->] | [[_ ->] | [[_ ->] | (A & B & C & ->)]]];
    cbn; split; intros [H | H]; try tauto;
    repeat (destruct H as [H | H]; [try discriminate H; congruence | ]); tauto.
Qed.

(** X3.  [escapeHTML] loses nothing: two texts with the same escaped
    form are the same text. *)
Theorem escapeHTML_injective a b : escapeHTML a = escapeHTML b -> a = b.
Proof.
  rewrite !escapeHTML_units. revert b.
  induction a as [| x a IH]; intros [| y b] H.
  - reflexivity.
  - cbn in H. destruct (escape_unit_cases y) as [[_ E] | [[_ E] | [[_ E] | (_ & _ & _ & E)]]];
      rewrite E in H; discriminate H.
  - cbn in H. destruct (escape_unit_cases x) as [[_ E] | [[_ E] | [[_ E] | (_ & _ & _ & E)]]];
      rewrite E in H; discriminate H.
  - cbn [flat_map] in H.
    destruct (escape_unit_cases x) as [[X E] | [[X E] | [[X E] | (X1 & X2 & X3 & E)]]];
    destruct (escape_unit_cases y) as [[Y F] | [[Y F] | [[Y F] | (Y1 & Y2 & Y3 & F)]]];
      rewrite E, F in H; cbn in H; try discriminate H;
      try (injection H as H; subst; f_equal; now apply IH);
      try (injection H as H0 H; congruence).
Qed.

Lemma escapeHTML_injective_witness :
  [97; 60; 38; 98]%N = [97; 60; 38; 98]%N.
Proof.
  apply (escapeHTML_injective [97; 60; 38; 98]%N [97; 60; 38; 98]%N).
  reflexivity.
Defined.

Lemma escapeHTML_app a b : escapeHTML (a ++ b) = escapeHTML a ++ escapeHTML b.
Proof. now rewrite !escapeHTML_units, flat_map_app. Qed.

Lemma render_units text :
  replace_all 10 (js "<br/>") (escapeHTML text) = flat_map render_unit text.
Proof.
  rewrite escapeHTML_units.
  induction text as [| c r IH]; [reflexivity | ].
  cbn [flat_map]. rewrite replace_all_app, IH. f_equal.
  unfold render_unit.
  destruct (N.eqb_spec c 10) as [-> | A]; [reflexivity | ].
  destruct (escape_unit_cases c) as [[_ ->] | [[_ ->] | [[_ ->] | (_ & _ & _ & ->)]]];
    try reflexivity.
  cbn. destruct (N.eqb_spec c 10); [contradiction | reflexivity].
Qed.

Lemma bold_skip b c r : c <> 42%N -> bold b (c :: r) = c :: bold b r.
Proof.
  intros H. cbn [bold]. destruct r as [| c' r']; [reflexivity | ].
  destruct (N.eqb_spec c 42); [contradiction | reflexivity].
Qed.

Lemma closes_skip c r : c <> 42%N -> closes (c :: r) = true -> closes r = true.
Proof.
  intros H. cbn [closes JS.startsWith].
  destruct (N.eqb_spec 42 c) as [E | _]; [congruence | ].
  cbn [andb orb]. intros C. now apply andb_true_iff in C.
Qed.

Lemma render_unit_cases c :
  c = 42%N /\ render_unit c = [42%N] \/
  c <> 42%N /\
  (render_unit c = js "<br/>" \/ render_unit c = js "&amp;" \/
   render_unit c = js "&lt;" \/ render_unit c = js "&gt;" \/
   (render_unit c = [c] /\ c <> 60%N /\ c <> 62%N /\ c <> 10%N)).
Proof.
  unfold render_unit.
  destruct (N.eqb_spec c 10) as [-> | A]; [right; split; [discriminate | now left] | ].
  destruct (escape_unit_cases c) as [[-> ->] | [[-> ->] | [[-> ->] | (X & Y & Z & ->)]]].
  - right. split; [discriminate | tauto].
  - right. split; [discriminate | tauto].
  - right. split; [discriminate | tauto].
  - destruct (N.eq_dec c 42) as [-> | S]; [now left | ].
    right. split; [exact S | ]. do 4 right. tauto.
Qed.

Ltac unit_step := apply markup_unit; [discriminate | discriminate | discriminate | ].

Lemma bold_markup n :
  forall text, (length text <= n)%nat ->
    markup false (bold false (flat_map render_unit text)) /\
    (closes (flat_map render_unit text) = true ->
     markup true (bold true (flat_map render_unit text))).
Proof.
  induction n as [| n IH]; intros text L.
  - destruct text; [ | cbn in L; lia]. cbn. split; [constructor | discriminate].
  - destruct text as [| c t]; [cbn; split; [constructor | discriminate] | ].
    cbn [length] in L. assert (length t <= n)%nat as Lt by lia.
    destruct (IH t Lt) as [Out In_].
    cbn [flat_map].
    destruct (render_unit_cases c) as [[-> ->] | [S [E | [E | [E | [E | (E & X & Y & Z)]]]]]].
    + (* an asterisk *)
      cbn [app].
      destruct t as [| c2 t'].
      * cbn. split; [unit_step; constructor | discriminate].
      * cbn [flat_map] in *.
        destruct (render_unit_cases c2) as [[-> ->] | [S2 E2]].
        -- cbn [app] in *. cbn [length] in Lt.
           destruct (IH t' ltac:(lia)) as [Out' In'].
           cbn [bold]. cbn [N.eqb Pos.eqb andb].
           split.
           ++ destruct (closes (flat_map render_unit t')) eqn:C.
              ** apply markup_open. now apply In'.
              ** unit_step. exact Out.
           ++ intros _. apply markup_close. exact Out'.
        -- assert (exists d rest, render_unit c2 ++ flat_map render_unit t' = d :: rest
                                  /\ d <> 42%N) as (d & rest & R & D).
           { destruct E2 as [E2 | [E2 | [E2 | [E2 | (E2 & _)]]]]; rewrite E2;
               cbn; eexists _, _; (split; [reflexivity | ]);
               try discriminate; exact S2. }
           rewrite R in *.
           assert (forall b, bold b (42%N :: d :: rest) = 42%N :: bold b (d :: rest)) as B.
           { intros b. cbn [bold]. destruct (N.eqb_spec d 42); [contradiction | ].
             cbn [N.eqb Pos.eqb andb]. reflexivity. }
           rewrite !B. split.
           ++ unit_step. exact Out.
           ++ intros C. unit_step. apply In_.
              change (closes (42%N :: d :: rest))
                with (JS.startsWith [42%N; 42%N] (42%N :: d :: rest)
                      || (negb (is_line_terminator 42) && closes (d :: rest))) in C.
              cbn [JS.startsWith] in C.
              destruct (N.eqb_spec 42 d) as [F | _]; [congruence | ].
              rewrite andb_false_r in C. exact C.
    + rewrite E. cbn [js list_ascii_of_string map app].
      rewrite !bold_skip by discriminate. split.
      * apply (markup_br false). exact Out.
      * intros C. apply (markup_br true). apply In_.
        do 5 (apply closes_skip in C; [ | discriminate]). exact C.
    + rewrite E. cbn [js list_ascii_of_string map app].
      rewrite !bold_skip by discriminate. split.
      * do 5 unit_step. exact Out.
      * intros C. do 5 unit_step. apply In_.
        do 5 (apply closes_skip in C; [ | discriminate]). exact C.
    + rewrite E. cbn [js list_ascii_of_string map app].
      rewrite !bold_skip by discriminate. split.
      * do 4 unit_step. exact Out.
      * intros C. do 4 unit_step. apply In_.
        do 4 (apply closes_skip in C; [ | discriminate]). exact C.
    + rewrite E. cbn [js list_ascii_of_string map app].
      rewrite !bold_skip by discriminate. split.
      * do 4 unit_step. exact Out.
      * intros C. do 4 unit_step. apply In_.
        do 4 (apply closes_skip in C; [ | discriminate]). exact C.
    + rewrite E. cbn [app]. rewrite !bold_skip by exact S. split.
      * apply markup_unit; try assumption.
      * intros C. apply markup_unit; try assumption. apply In_.
        now apply closes_skip in C.
Qed.

(** X4.  What [renderTextMinimalFormatting] makes of any message text is
    safe markup: every angle bracket in it belongs to a [<br/>], a
    [<strong>] or a [</strong>] that the function wrote itself, no line
    feed is left, and the [strong] spans are closed and not nested. *)
Theorem rendered_message_is_safe_markup text :
  markup false (renderTextMinimalFormatting text).
Proof.
  unfold renderTextMinimalFormatting. rewrite render_units.
  apply (bold_markup (length text) text (le_n _)).
Qed.







(** A carriage return inside stops the pattern: the asterisks stay. *)
Example carriage_return_blocks_bold :
  renderTextMinimalFormatting ([42; 42; 97; 13; 98; 42; 42]%N)
  = [42; 42; 97; 13; 98; 42; 42]%N.
Proof. reflexivity. Qed.

(** ** The sessions list and the active session *)

Lemma deref_id w w' ref :
  map id (heap w') = map id (heap w) ->
  option_map id (deref w' ref) = option_map id (deref w ref).
Proof.
  intros H. unfold deref. rewrite <- !nth_error_map. now rewrite H.
Qed.

Lemma session_id_same w w' ref :
  map id (heap w') = map id (heap w) -> session_id w' ref = session_id w ref.
Proof.
  intros H. unfold session_id. pose proof (deref_id w w' ref H) as E.
  destruct (deref w' ref), (deref w ref); cbn in E; congruence.
Qed.

Lemma find_ext_all {A} (p q : A -> bool) l :
  (forall x, p x = q x) -> find p l = find q l.
Proof.
  intros H. induction l as [| x r IH]; [reflexivity | ].
  cbn. now rewrite H, IH.
Qed.

Lemma getActiveSession_same w w' :
  sessions w' = sessions w -> activeSessionId w' = activeSessionId w ->
  map id (heap w') = map id (heap w) ->
  getActiveSession w' = getActiveSession w.
Proof.
  intros S A H. unfold getActiveSession. rewrite S, A.
  apply find_ext_all. intros ref. pose proof (deref_id w w' ref H) as E.
  destruct (deref w' ref), (deref w ref), (activeSessionId w); cbn in E;
    congruence.
Qed.

Lemma page_ok_same w w' :
  sessions w' = sessions w -> activeSessionId w' = activeSessionId w ->
  map id (heap w') = map id (heap w) ->
  page_ok w -> page_ok w'.
Proof.
  intros S A H [W X]. split.
  - rewrite S. apply (f_equal (@length _)) in H. rewrite !length_map in H.
    now rewrite H.
  - now rewrite (getActiveSession_same w w' S A H).
Qed.

Lemma Tidy_ret {A} (a : A) : Tidy (ret a).
Proof. intros w H. exact H. Qed.

Lemma Tidy_lift {A} (r : Result A) : Tidy (lift r).
Proof. intros w H. exact H. Qed.

Lemma Tidy_read {A} (f : World -> A) : Tidy (read f).
Proof. intros w H. exact H. Qed.

Lemma Tidy_bind {A B} (c : M A) (k : A -> M B) :
  Tidy c -> (forall a, Tidy (k a)) -> Tidy (bind c k).
Proof.
  intros Hc Hk w H. unfold bind. specialize (Hc w H).
  destruct (c w) as [[a | e] w1]; cbn [snd] in *; [now apply Hk | exact Hc].
Qed.

Lemma Tidy_try_finally {A} (body : M A) (fin : M unit) :
  Tidy body -> Tidy fin -> Tidy (try_finally body fin).
Proof.
  intros Hb Hf w H. unfold try_finally. specialize (Hb w H).
  destruct (body w) as [r w1]. cbn [snd] in Hb. specialize (Hf w1 Hb).
  destruct (fin w1) as [[u | e] w2]; exact Hf.
Qed.

Lemma Tidy_change f :
  (forall w, sessions (f w) = sessions w /\
             activeSessionId (f w) = activeSessionId w /\
             map id (heap (f w)) = map id (heap w)) ->
  Tidy (change f).
Proof.
  intros F w H. destruct (F w) as (S & A & E). cbn [change snd].
  now apply (page_ok_same w).
Qed.

Lemma Tidy_emit e : Tidy (change (emit e)).
Proof. apply Tidy_change. intros w. repeat split. Qed.

Lemma Tidy_showToast t : Tidy (showToast t).
Proof. apply Tidy_emit. Qed.

Lemma Tidy_saveSessions : Tidy saveSessions.
Proof. apply Tidy_change. intros w. repeat split. Qed.

Lemma map_id_update_nth n f h :
  (forall s, id (f s) = id s) -> map id (update_nth n f h) = map id h.
Proof.
  intros F. revert n. induction h as [| x r IH]; intros [| n]; cbn; try reflexivity.
  - now rewrite F.
  - now rewrite IH.
Qed.

Lemma Tidy_update_session ref f :
  (forall s, id (f s) = id s) -> Tidy (update_session ref f).
Proof.
  intros F. apply Tidy_change. intros w. repeat split.
  cbn. now apply map_id_update_nth.
Qed.

Lemma Tidy_push_message s m : Tidy (push_message s m).
Proof. apply Tidy_update_session. reflexivity. Qed.

Lemma Tidy_set_updatedAtISO s ts : Tidy (set_updatedAtISO s ts).
Proof. apply Tidy_update_session. reflexivity. Qed.

Lemma Tidy_set_pendingRetry p : Tidy (change (set_pendingRetry p)).
Proof. apply Tidy_change. intros w. repeat split. Qed.

Lemma Tidy_set_ls_language l : Tidy (change (set_ls_language l)).
Proof. apply Tidy_change. intros w. repeat split. Qed.

(** *** A new session *)

Lemma deref_last w1 (h : list Session) s :
  heap w1 = h ++ [s] -> deref w1 (length h) = Some s.
Proof.
  intros H. unfold deref. rewrite H, nth_error_app2 by lia.
  now rewrite Nat.sub_diag.
Qed.

Lemma createNewSession_effect uuid title w :
  let ref := length (heap w) in
  let w' := snd (createNewSession uuid title w) in
  fst (createNewSession uuid title w) = Val ref /\
  getActiveSession w' = Some ref /\
  deref w' ref
    = Some (mkSession uuid (if JS.eqb title [] then js "New Consultation" else title)
              (clock w) (clock w) []) /\
  sessions w' = ref :: sessions w /\
  (forall r s, deref w r = Some s -> deref w' r = Some s) /\
  pendingRetry w' = pendingRetry w /\
  getLanguage w' = getLanguage w.
Proof.
  intros ref w'. subst ref w'.
  unfold createNewSession, saveSessions, change. cbn [fst snd].
  assert (or_else (Some title) (js "New Consultation")
          = if JS.eqb title [] then js "New Consultation" else title) as T.
  { destruct title; reflexivity. }
  rewrite T. set (session := mkSession _ _ _ _ _).
  split; [reflexivity | ]. split; [ | split; [ | split; [ | split]]].
  - unfold getActiveSession. cbn [sessions emit set_activeSessionId set_sessions
      set_heap activeSessionId find].
    rewrite (deref_last _ (heap w) session) by reflexivity.
    unfold session. cbn [id]. now rewrite jseqb_refl.
  - now apply deref_last.
  - reflexivity.
  - intros r s H. unfold deref in *. cbn [heap emit set_activeSessionId
      set_sessions set_heap].
    rewrite nth_error_app1; [exact H | ]. apply nth_error_Some. congruence.
  - split; reflexivity.
Qed.

(** X6.  [createNewSession] returns a new session object that is the
    active session from then on (even if its id were already in use),
    is first in the list, holds no message and carries the given title
    or the default one; the sessions there were are kept as they are,
    the list is saved once with the new session in it, and neither the
    retry token nor the language mode changes. *)
Theorem new_session_is_active uuid title w :
  let ref := length (heap w) in
  let w' := snd (createNewSession uuid title w) in
  fst (createNewSession uuid title w) = Val ref /\
  getActiveSession w' = Some ref /\
  deref w' ref
    = Some (mkSession uuid (if JS.eqb title [] then js "New Consultation" else title)
              (clock w) (clock w) []) /\
  sessions w' = ref :: sessions w /\
  (forall r s, deref w r = Some s -> deref w' r = Some s) /\
  trace w' = trace w ++ [EvSaveSessions (snapshot w') (or_else (Some uuid) [])] /\
  pendingRetry w' = pendingRetry w /\
  getLanguage w' = getLanguage w.
Proof.
  intros ref w'.
  destruct (createNewSession_effect uuid title w) as (R & A & D & S & K & P & L).
  fold ref in R, A, D, S. fold w' in A, D, S, K, P, L.
  repeat (split; [assumption | ]).
  split; [reflexivity | now split].
Qed.

Lemma createNewSession_ok uuid title w :
  Forall (fun ref => ref < length (heap w))%nat (sessions w) ->
  page_ok (snd (createNewSession uuid title w)).
Proof.
  intros W.
  destruct (createNewSession_effect uuid title w) as (_ & A & _ & S & _).
  split; [ | eauto]. rewrite S.
  unfold createNewSession, saveSessions, change. cbn [snd heap emit
    set_activeSessionId set_sessions set_heap].
  rewrite length_app. cbn [length]. constructor; [lia | ].
  eapply Forall_impl; [ | exact W]. cbv beta. intros. lia.
Qed.

Lemma Tidy_createNewSession uuid title : Tidy (createNewSession uuid title).
Proof. intros w [W _]. now apply createNewSession_ok. Qed.

Lemma Tidy_langToggle_click uuid : Tidy (langToggle_click uuid).
Proof.
  unfold langToggle_click.
  apply Tidy_bind; [apply Tidy_read | intros cur].
  apply Tidy_bind; [apply Tidy_set_ls_language | intros _].
  apply Tidy_bind; [apply Tidy_createNewSession | intros _].
  apply Tidy_showToast.
Qed.

Lemma Tidy_settingsLang_change value uuid : Tidy (settingsLang_change value uuid).
Proof.
  unfold settingsLang_change.
  apply Tidy_bind; [apply Tidy_set_ls_language | intros _].
  apply Tidy_bind; [apply Tidy_createNewSession | intros _].
  apply Tidy_showToast.
Qed.

Lemma page_ok_run_all es w :
  page_ok w -> page_ok (fold_left (fun x e => run_ui e x) es w).
Proof.
  revert w. induction es as [| e es IH]; intros w H; [exact H | ].
  cbn [fold_left]. apply IH. destruct e as [uuid]. cbn [run_ui].
  now apply Tidy_langToggle_click.
Qed.

Lemma page_ok_set_clock c w : page_ok w -> page_ok (set_clock c w).
Proof. now apply page_ok_same. Qed.

Lemma Tidy_geminiFetch url key p t : Tidy (geminiFetch url key p t).
Proof.
  intros w H. unfold geminiFetch. cbn [network emit].
  assert (page_ok (emit (EvFetch url key p t) w)) as H1
    by (now apply (page_ok_same w)).
  destruct (network w) as [| step rest]; [exact H1 | ].
  set (w2 := fold_left _ _ _).
  assert (page_ok w2) as H2.
  { apply page_ok_run_all. now apply (page_ok_same w). }
  destruct (t <=? elapsed step)%Z; [now apply page_ok_set_clock | ].
  destruct (outcome step) as [status body | msg];
    [destruct ((200 <=? status) && (status <=? 299))%Z | ];
    now apply page_ok_set_clock.
Qed.

Lemma Tidy_interpretUserQuery raw key : Tidy (interpretUserQuery raw key).
Proof.
  unfold interpretUserQuery.
  apply Tidy_bind; [apply Tidy_read | intros lang].
  apply Tidy_bind; [apply Tidy_read | intros now].
  apply Tidy_bind; [apply Tidy_lift | intros prompt].
  apply Tidy_bind; [apply Tidy_geminiFetch | intros [st tx | st j tx]];
    [apply Tidy_ret | ].
  apply Tidy_bind; [apply Tidy_lift | intros; apply Tidy_ret].
Qed.

Lemma Tidy_translate reply key : Tidy (translateToMarathiIfNeeded reply key).
Proof.
  unfold translateToMarathiIfNeeded.
  apply Tidy_bind; [apply Tidy_read | intros lang].
  destruct (negb (JS.eqb lang (js "mr"))); [apply Tidy_ret | ].
  destruct (negb (looksEnglish reply)); [apply Tidy_ret | ].
  apply Tidy_bind; [apply Tidy_geminiFetch | intros [st tx | st j tx]];
    [apply Tidy_ret | ].
  apply Tidy_bind; [apply Tidy_lift | intros; apply Tidy_ret].
Qed.

Lemma Tidy_report_failure session raw status text :
  Tidy (report_failure session raw status text).
Proof.
  unfold report_failure.
  destruct (status =? 429)%Z.
  - destruct (parseRetryDelaySeconds text) as [sec | ]; [ | apply Tidy_showToast].
    destruct (negb (sec =? 0)%Z); [ | apply Tidy_showToast].
    apply Tidy_bind; [apply Tidy_showToast | intros _].
    apply Tidy_bind; [apply Tidy_read | intros sid].
    apply Tidy_bind; [apply Tidy_read | intros now].
    apply Tidy_set_pendingRetry.
  - destruct ((status =? 401) || (status =? 403))%Z; [apply Tidy_showToast | ].
    destruct (status =? 400)%Z; [apply Tidy_showToast | ].
    destruct (status =? 404)%Z; apply Tidy_showToast.
Qed.

Lemma Tidy_accept_reply session key json : Tidy (accept_reply session key json).
Proof.
  unfold accept_reply.
  apply Tidy_bind; [apply Tidy_lift | intros text].
  apply Tidy_bind; [apply Tidy_translate | intros reply].
  apply Tidy_bind; [apply Tidy_read | intros now].
  apply Tidy_bind; [apply Tidy_push_message | intros _].
  apply Tidy_bind; [apply Tidy_set_updatedAtISO | intros _].
  apply Tidy_bind; [apply Tidy_saveSessions | intros _].
  apply Tidy_set_pendingRetry.
Qed.

Lemma Tidy_callGuruji session raw : Tidy (callGuruji session raw).
Proof.
  unfold callGuruji.
  apply Tidy_bind; [apply Tidy_read | intros key].
  destruct (JS.eqb key []); [apply Tidy_showToast | ].
  apply Tidy_bind; [apply Tidy_read | intros online].
  destruct (negb online); [apply Tidy_showToast | ].
  apply Tidy_bind; [apply Tidy_emit | intros _].
  apply Tidy_bind; [apply Tidy_emit | intros _].
  apply Tidy_try_finally.
  - unfold callGuruji_try.
    apply Tidy_bind; [apply Tidy_interpretUserQuery | intros rewritten].
    apply Tidy_bind; [apply Tidy_read | intros payload].
    apply Tidy_bind; [apply Tidy_geminiFetch | intros [st tx | st j tx]];
      [apply Tidy_report_failure | apply Tidy_accept_reply].
  - apply Tidy_bind; [ | intros _]; apply Tidy_emit.
Qed.

Lemma Tidy_insertUserMessage raw : Tidy (insertUserMessage raw).
Proof.
  unfold insertUserMessage.
  destruct (JS.eqb (JS.trim raw) []); [apply Tidy_ret | ].
  apply Tidy_bind; [apply Tidy_read | intros [session | ]]; [ | apply Tidy_ret].
  apply Tidy_bind; [ | intros _; apply Tidy_callGuruji].
  unfold append_user_message.
  apply Tidy_bind; [apply Tidy_read | intros ts].
  apply Tidy_bind; [apply Tidy_push_message | intros _].
  apply Tidy_bind; [apply Tidy_set_updatedAtISO | intros _].
  apply Tidy_bind; [apply Tidy_read | intros msgs].
  apply Tidy_bind; [ | intros _; apply Tidy_saveSessions].
  destruct (_ =? 1)%nat; [ | apply Tidy_ret].
  unfold updateSessionTitleFromFirstMessage. apply Tidy_update_session.
  intros s. now destruct (_ && _).
Qed.

Lemma Tidy_on_online : Tidy on_online.
Proof.
  intros w H. unfold on_online.
  destruct (pendingRetry w) as [p | ]; [ | exact H].
  destruct (retryAtMs p <=? clock w)%Z; [ | exact H].
  destruct (getActiveSession w) as [s | ]; [ | exact H].
  destruct (JS.eqb (sessionId p) (session_id w s)); [ | exact H].
  cbn [snd]. now apply Tidy_callGuruji.
Qed.

Lemma Tidy_rename_click s newName : Tidy (rename_click s newName).
Proof.
  unfold rename_click. destruct newName as [[| c r] | ]; try apply Tidy_ret.
  apply Tidy_bind; [now apply Tidy_update_session | intros _].
  apply Tidy_bind; [apply Tidy_read | intros now].
  apply Tidy_bind; [apply Tidy_set_updatedAtISO | intros _].
  apply Tidy_saveSessions.
Qed.

(** *** Deleting a session *)

Lemma find_filter_keep {A} (p q : A -> bool) l :
  (forall x, p x = true -> q x = true) -> find p (filter q l) = find p l.
Proof.
  intros H. induction l as [| x r IH]; [reflexivity | ].
  cbn. destruct (q x) eqn:Q; cbn.
  - now rewrite IH.
  - destruct (p x) eqn:P; [apply H in P; congruence | exact IH].
Qed.

Lemma getActiveSession_found w a :
  getActiveSession w = Some a ->
  In a (sessions w) /\ activeSessionId w = Some (session_id w a).
Proof.
  unfold getActiveSession, session_id. intros H. apply find_some in H as [I P].
  split; [exact I | ].
  destruct (deref w a); [ | discriminate].
  destruct (activeSessionId w); [ | discriminate].
  apply jseqb_eq in P. congruence.
Qed.

Lemma listed_deref w x :
  Forall (fun ref => ref < length (heap w))%nat (sessions w) ->
  In x (sessions w) -> exists s, deref w x = Some s.
Proof.
  intros W I. rewrite Forall_forall in W. specialize (W x I).
  unfold deref. destruct (nth_error (heap w) x) eqn:E; [eauto | ].
  apply nth_error_None in E. lia.
Qed.

(** What a confirmed deletion does, case by case. *)
Lemma delete_click_world s uuid w :
  let sid := session_id w s in
  let rest := filter (fun x => negb (JS.eqb (session_id w x) sid)) (sessions w) in
  let w1 := set_sessions rest w in
  snd (delete_click s true uuid w) =
    snd (saveSessions
      (if match activeSessionId w with
          | Some a => JS.eqb a sid
          | None => false
          end
       then match rest with
            | first :: _ => set_activeSessionId (Some (session_id w first)) w1
            | [] => snd (createNewSession uuid [] w1)
            end
       else w1)).
Proof.
  intros sid rest w1. unfold delete_click, bind, read, change. cbn [negb].
  cbn [activeSessionId set_sessions sessions].
  fold sid. fold rest.
  destruct (match activeSessionId w with Some a => JS.eqb a sid | None => false end);
    [ | reflexivity].
  subst w1. destruct rest as [| first more]; reflexivity.
Qed.

Lemma delete_click_effect s uuid w :
  page_ok w ->
  let sid := session_id w s in
  let w' := snd (delete_click s true uuid w) in
  (forall x, In x (sessions w') ->
     session_id w' x <> sid \/ (x = length (heap w) /\ session_id w' x = uuid)) /\
  (forall x, In x (sessions w) -> session_id w x <> sid -> In x (sessions w')) /\
  (forall r ss, deref w r = Some ss -> deref w' r = Some ss) /\
  pendingRetry w' = pendingRetry w /\
  clock w' = clock w /\
  page_ok w'.
Proof.
  intros [W [a A]] sid w'. subst w'. rewrite delete_click_world. fold sid.
  set (keep := fun x => negb (JS.eqb (session_id w x) sid)).
  set (rest := filter keep (sessions w)).
  set (w1 := set_sessions rest w).
  assert (forall x, In x rest <-> In x (sessions w) /\ session_id w x <> sid) as R.
  { intros x. unfold rest. rewrite filter_In. unfold keep.
    rewrite negb_true_iff. split; intros [I K]; (split; [exact I | ]).
    - intros E. rewrite E, jseqb_refl in K. discriminate.
    - destruct (JS.eqb (session_id w x) sid) eqn:E; [ | reflexivity].
      apply jseqb_eq in E. contradiction. }
  assert (Forall (fun ref => ref < length (heap w))%nat rest) as W1.
  { apply Forall_forall. intros x I. apply R in I as [I _].
    rewrite Forall_forall in W. now apply W. }
  destruct (getActiveSession_found w a A) as [Ia Ea].
  destruct (match activeSessionId w with Some a0 => JS.eqb a0 sid | None => false end)
    eqn:M.
  - destruct rest as [| first more] eqn:Er.
    + pose proof (createNewSession_effect uuid [] w1) as (_ & N1 & N2 & N3 & N4 & N5 & _).
      assert (page_ok (snd (createNewSession uuid [] w1))) as N6.
      { apply createNewSession_ok. exact W1. }
      set (w2 := snd (createNewSession uuid [] w1)) in *.
      cbn [saveSessions change snd].
      refine (conj _ (conj _ (conj _ (conj _ (conj _ _))))).
      * intros x I. cbn [sessions emit] in I. rewrite N3 in I.
        destruct I as [<- | []].
        right. split; [reflexivity | ].
        unfold session_id, deref in *. cbn [heap emit]. now rewrite N2.
      * intros x I D. exfalso. apply (proj2 (R x)). now split.
      * intros r ss D. apply (N4 r ss). exact D.
      * exact N5.
      * reflexivity.
      * now apply (page_ok_same w2).
    + cbn [saveSessions change snd].
      refine (conj _ (conj _ (conj _ (conj _ (conj _ _))))); try reflexivity.
      * intros x I. left. apply R in I as [_ D]. exact D.
      * intros x I D. apply R. now split.
      * intros r ss D. exact D.
      * split; [exact W1 | ].
        exists first. unfold getActiveSession.
        cbn [sessions emit set_activeSessionId set_sessions activeSessionId find w1].
        assert (In first (sessions w)) as If by (apply (proj1 (R first)); now left).
        destruct (listed_deref w first W If) as (sf & Df).
        unfold session_id, deref in *.
        cbn [heap emit set_activeSessionId set_sessions].
        change (heap w1) with (heap w).
        rewrite Df. now rewrite jseqb_refl.
  - cbn [saveSessions change snd].
    refine (conj _ (conj _ (conj _ (conj _ (conj _ _))))); try reflexivity.
    + intros x I. left. apply R in I as [_ D]. exact D.
    + intros x I D. apply R. now split.
    + intros r ss D. exact D.
    + split; [exact W1 | ].
      exists a. unfold getActiveSession in *.
      cbn [sessions emit set_sessions activeSessionId w1].
      unfold rest. unfold deref in *. cbn [heap emit set_sessions].
      rewrite find_filter_keep; [exact A | ].
      intros x P. cbv beta in P. unfold keep, session_id, deref.
      cbn [heap emit set_sessions] in P. change (heap w1) with (heap w) in P.
      destruct (nth_error (heap w) x) as [sx | ]; [ | discriminate].
      destruct (activeSessionId w) as [a0 | ]; [ | discriminate].
      apply jseqb_eq in P. rewrite P. apply negb_true_iff. exact M.
Qed.

(** X7.  On a page whose listed sessions are objects of the page, one of
    them active, a confirmed deletion (the id drawn for a session that
    may replace the last one being another id) removes from the list
    every session that carries the id of the deleted one and no other,
    never alters a session object, and leaves the page with an active
    session. *)
Theorem deleted_session_is_gone s uuid w :
  page_ok w -> uuid <> session_id w s ->
  let w' := snd (delete_click s true uuid w) in
  (forall x, In x (sessions w') -> session_id w' x <> session_id w s) /\
  (forall x, In x (sessions w) -> session_id w x <> session_id w s ->
             In x (sessions w')) /\
  (forall r ss, deref w r = Some ss -> deref w' r = Some ss) /\
  page_ok w'.
Proof.
  intros H U w'. destruct (delete_click_effect s uuid w H) as (A & B & C & _ & _ & D).
  fold w' in A, B, C, D. repeat split; try assumption.
  - intros x I. destruct (A x I) as [N | [_ N]]; congruence.
  - apply D.
  - apply D.
Qed.

Lemma deleted_session_is_gone_witness :
  let w := mkWorld [Sample.consultation []; mkSession (js "s2") (js "Two") 0 0 []]
             [1%nat; 0%nat] (Some (js "s1")) None None None true Sample.t0 [] [] in
  let w' := snd (delete_click 0 true (js "s3") w) in
  (forall x, In x (sessions w') -> session_id w' x <> session_id w 0) /\
  (forall x, In x (sessions w) -> session_id w x <> session_id w 0 ->
             In x (sessions w')) /\
  (forall r ss, deref w r = Some ss -> deref w' r = Some ss) /\
  page_ok w'.
Proof.
  intros w.
  apply (deleted_session_is_gone 0 (js "s3") w).
  - split; [repeat constructor | exists 0%nat; reflexivity].
  - discriminate.
Defined.

(** X8.  Once the session of the retry token is deleted (the id drawn
    for a replacement session being another id), the token is still
    pending but the online event does nothing, at any later reading of
    the clock. *)
Theorem deleted_session_is_not_retried s uuid w p c :
  page_ok w ->
  pendingRetry w = Some p -> sessionId p = session_id w s ->
  uuid <> sessionId p ->
  let w' := set_clock c (snd (delete_click s true uuid w)) in
  pendingRetry w' = Some p /\ on_online w' = (Val tt, w').
Proof.
  intros H P S U w'.
  destruct (delete_click_effect s uuid w H) as (A & _ & _ & R & _ & _).
  set (w1 := snd (delete_click s true uuid w)) in *.
  assert (pendingRetry w' = Some p) as P' by (unfold w'; cbn; congruence).
  split; [exact P' | ].
  unfold on_online. rewrite P'.
  destruct (retryAtMs p <=? clock w')%Z; [ | reflexivity].
  destruct (getActiveSession w') as [a | ] eqn:G; [ | reflexivity].
  destruct (getActiveSession_found w' a G) as [I _].
  change (sessions w') with (sessions w1) in I.
  change (session_id w' a) with (session_id w1 a).
  destruct (JS.eqb (sessionId p) (session_id w1 a)) eqn:E; [ | reflexivity].
  apply jseqb_eq in E. exfalso.
  destruct (A a I) as [N | [_ N]]; congruence.
Qed.

Lemma deleted_session_is_not_retried_witness :
  let w := Sample.page [Sample.said "user" "hi"] (Some Sample.token)
             [Sample.replies (js "Hari Om")] in
  let w' := set_clock (Sample.t0 + 60000) (snd (delete_click 0 true (js "s2") w)) in
  pendingRetry w' = Some Sample.token /\ on_online w' = (Val tt, w').
Proof.
  intros w.
  apply (deleted_session_is_not_retried 0 (js "s2") w Sample.token).
  - split; [repeat constructor | exists 0%nat; reflexivity].
  - reflexivity.
  - reflexivity.
  - discriminate.
Defined.

(** *** Opening a session *)

Lemma find_unique {A} (f : A -> jsstring) l s :
  NoDup (map f l) -> In s l ->
  find (fun x => JS.eqb (f x) (f s)) l = Some s.
Proof.
  induction l as [| x r IH]; intros N I; [destruct I | ].
  cbn [map] in N. apply NoDup_cons_iff in N as [Nx Nr].
  cbn [find]. destruct (JS.eqb (f x) (f s)) eqn:E.
  - apply jseqb_eq in E. destruct I as [-> | I]; [reflexivity | ].
    exfalso. apply Nx. rewrite E. now apply in_map.
  - destruct I as [-> | I]; [now rewrite jseqb_refl in E | now apply IH].
Qed.

Lemma open_click_world s w :
  open_click s w =
    (Val tt, emit (EvSaveSessions (snapshot (set_activeSessionId (Some (session_id w s)) w))
                     (or_else (Some (session_id w s)) []))
               (set_activeSessionId (Some (session_id w s)) w)).
Proof. reflexivity. Qed.

Lemma Tidy_open_click s w :
  page_ok w -> In s (sessions w) -> page_ok (snd (open_click s w)).
Proof.
  intros [W _] I. rewrite open_click_world. cbn [snd]. split; [exact W | ].
  destruct (listed_deref w s W I) as (ss & D).
  unfold getActiveSession. cbn [sessions emit set_activeSessionId activeSessionId].
  destruct (find _ (sessions w)) as [a | ] eqn:F; [eauto | ].
  exfalso. apply (find_none _ _ F) in I.
  unfold session_id, deref in *. cbn [heap emit set_activeSessionId] in I.
  rewrite D in I. now rewrite jseqb_refl in I.
Qed.

Lemma find_ext_in {A} (p q : A -> bool) l :
  (forall x, In x l -> p x = q x) -> find p l = find q l.
Proof.
  induction l as [| x r IH]; intros H; [reflexivity | ].
  cbn. rewrite (H x) by now left.
  rewrite IH; [reflexivity | ]. intros y I. apply H. now right.
Qed.

(** X9.  When the ids of the listed sessions are distinct, a click on
    the row of a session makes that session the active one; and if a
    retry token of that session is due, the online event that follows
    runs [callGuruji] on it with the token's text. *)
Theorem opened_session_is_active s w :
  page_ok w -> In s (sessions w) -> unique_ids w ->
  let w' := snd (open_click s w) in
  getActiveSession w' = Some s /\
  (forall p, pendingRetry w = Some p -> sessionId p = session_id w s ->
             (retryAtMs p <= clock w)%Z ->
             on_online w' = (Val tt, snd (callGuruji s (lastUserText p) w'))).
Proof.
  intros [W _] I U w'. subst w'. rewrite open_click_world. cbn [snd].
  set (w' := emit _ _).
  assert (getActiveSession w' = Some s) as G.
  { unfold getActiveSession. cbn [sessions w' emit set_activeSessionId activeSessionId].
    rewrite <- (find_unique (session_id w) (sessions w) s U I).
    apply find_ext_in. intros x Ix.
    destruct (listed_deref w x W Ix) as (sx & X).
    unfold session_id at 2. unfold deref in *.
    change (heap w') with (heap w). now rewrite X. }
  split; [exact G | ].
  intros p P S T. unfold on_online.
  change (pendingRetry w') with (pendingRetry w). rewrite P.
  change (clock w') with (clock w).
  destruct (Z.leb_spec (retryAtMs p) (clock w)) as [_ | L]; [ | lia].
  rewrite G. change (session_id w' s) with (session_id w s).
  rewrite S. now rewrite jseqb_refl.
Qed.

Lemma opened_session_is_active_witness :
  let w := mkWorld [Sample.consultation []; mkSession (js "s2") (js "Two") 0 0 []]
             [1%nat; 0%nat] (Some (js "s2")) (Some Sample.token) (Some (js "key"))
             None true Sample.t0 [] [] in
  let w' := snd (open_click 0 w) in
  getActiveSession w' = Some 0%nat /\
  (forall p, pendingRetry w = Some p -> sessionId p = session_id w 0 ->
             (retryAtMs p <= clock w)%Z ->
             on_online w' = (Val tt, snd (callGuruji 0 (lastUserText p) w'))).
Proof.
  intros w.
  apply (opened_session_is_active 0 w).
  - split; [repeat constructor | exists 1%nat; reflexivity].
  - right. now left.
  - repeat constructor; cbn; intuition discriminate.
Defined.

(** *** The language toggle *)

Lemma langToggle_click_effect uuid w :
  let w' := snd (langToggle_click uuid w) in
  getLanguage w'
    = (if JS.eqb (getLanguage w) (js "mr") then js "en" else js "mr") /\
  getActiveSession w' = Some (length (heap w)) /\
  (exists s, deref w' (length (heap w)) = Some s /\ id s = uuid /\ messages s = []) /\
  (forall r ss, deref w r = Some ss -> deref w' r = Some ss) /\
  pendingRetry w' = pendingRetry w /\
  clock w' = clock w.
Proof.
  intros w'. subst w'. unfold langToggle_click, bind, read, change.
  set (next := if JS.eqb (getLanguage w) (js "mr") then js "en" else js "mr").
  set (w1 := set_ls_language (Some next) w).
  set (title := if JS.eqb next (js "mr") then _ else _).
  pose proof (createNewSession_effect uuid title w1) as (E & A & D & _ & K & R & L).
  assert (clock (snd (createNewSession uuid title w1)) = clock w1) as C by reflexivity.
  destruct (createNewSession uuid title w1) as [[r | e] w2]; [ | discriminate E].
  cbn [fst snd] in *. unfold showToast, change. cbn [snd].
  refine (conj _ (conj _ (conj _ (conj _ (conj _ _))))).
  - change (getLanguage (emit (EvToast (ToastLanguage (pick_language next))) w2))
      with (getLanguage w2). rewrite L. unfold w1.
    change (getLanguage (set_ls_language (Some next) w))
      with (or_else (Some next) DEFAULT_LANGUAGE).
    unfold next. now destruct (JS.eqb (getLanguage w) (js "mr")).
  - exact A.
  - eexists. split; [exact D | split; reflexivity].
  - intros r0 ss H. apply (K r0 ss H).
  - exact R.
  - exact C.
Qed.

(** X10.  A click on the language toggle always changes the language the
    prompts are composed for, leaves the mode at [mr] or [en], makes a
    new empty session the active one, and touches neither the existing
    sessions nor the retry token. *)
Theorem toggle_flips_language uuid w :
  let w' := snd (langToggle_click uuid w) in
  pick_language (getLanguage w') <> pick_language (getLanguage w) /\
  (getLanguage w' = js "mr" \/ getLanguage w' = js "en") /\
  getActiveSession w' = Some (length (heap w)) /\
  session_messages w' (length (heap w)) = [] /\
  (forall r ss, deref w r = Some ss -> deref w' r = Some ss) /\
  pendingRetry w' = pendingRetry w.
Proof.
  intros w'.
  destruct (langToggle_click_effect uuid w) as (L & A & (s & D & _ & M) & K & R & _).
  fold w' in L, A, D, K, R.
  refine (conj _ (conj _ (conj _ (conj _ (conj _ _))))); try assumption.
  - rewrite L. unfold pick_language.
    destruct (JS.eqb (getLanguage w) (js "mr")); cbn; discriminate.
  - rewrite L. destruct (JS.eqb (getLanguage w) (js "mr")); [now right | now left].
  - unfold session_messages. now rewrite D.
Qed.

(** X11.  After a click on the language toggle (the id of the new session
    being another than the one the token names) the pending retry token
    is still there, and the online event does nothing at all, however
    late it comes, as long as the new session is the active one. *)
Theorem retry_waits_for_its_session uuid w p c :
  pendingRetry w = Some p -> uuid <> sessionId p ->
  let w' := set_clock c (snd (langToggle_click uuid w)) in
  pendingRetry w' = Some p /\ on_online w' = (Val tt, w').
Proof.
  intros P U w'.
  destruct (langToggle_click_effect uuid w) as (_ & A & (s & D & I & _) & _ & R & _).
  set (w1 := snd (langToggle_click uuid w)) in *.
  assert (pendingRetry w' = Some p) as P' by (unfold w'; cbn; congruence).
  split; [exact P' | ].
  unfold on_online. rewrite P'.
  destruct (retryAtMs p <=? clock w')%Z; [ | reflexivity].
  change (getActiveSession w') with (getActiveSession w1). rewrite A.
  change (session_id w' (length (heap w))) with (session_id w1 (length (heap w))).
  unfold session_id. rewrite D, I.
  destruct (JS.eqb (sessionId p) uuid) eqn:E; [ | reflexivity].
  apply jseqb_eq in E. congruence.
Qed.

Lemma retry_waits_for_its_session_witness :
  let w := Sample.page [Sample.said "user" "hi"] (Some Sample.token)
             [Sample.replies (js "Hari Om")] in
  let w' := set_clock (Sample.t0 + 60000) (snd (langToggle_click (js "s2") w)) in
  pendingRetry w' = Some Sample.token /\ on_online w' = (Val tt, w').
Proof.
  intros w.
  apply (retry_waits_for_its_session (js "s2") w Sample.token).
  - reflexivity.
  - discriminate.
Defined.

(** X12.  Once every listed session is an object of the page and one of
    them is the active one, this stays so after any event of the page:
    a message sent, the online event, a change of language, and the
    opening, renaming or deleting of a listed session. *)
Theorem page_keeps_an_active_session e w :
  page_ok w -> listed w e -> page_ok (snd (handle e w)).
Proof.
  intros H L. destruct e as [raw | | uuid | value uuid | s | s newName | s [|] uuid];
    cbn [handle listed] in *.
  - now apply Tidy_insertUserMessage.
  - now apply Tidy_on_online.
  - now apply Tidy_langToggle_click.
  - now apply Tidy_settingsLang_change.
  - now apply Tidy_open_click.
  - now apply Tidy_rename_click.
  - now apply (delete_click_effect s uuid w H).
  - exact H.
Qed.

Lemma page_keeps_an_active_session_witness :
  page_ok (snd (handle (DeleteSession 0 true (js "s2"))
                  (Sample.page [Sample.said "user" "hi"] None []))).
Proof.
  apply page_keeps_an_active_session.
  - split; [repeat constructor | exists 0%nat; reflexivity].
  - now left.
Defined.

(** ** Trimming *)

Lemma trimStart_head s :
  trimStart s = [] \/ exists c r, trimStart s = c :: r /\ is_ws c = false.
Proof.
  induction s as [| c r IH]; [now left | ].
  cbn [trimStart]. destruct (is_ws c) eqn:E; [exact IH | ].
  right. now exists c, r.
Qed.

Lemma trimStart_split s :
  exists ws, s = ws ++ trimStart s /\ Forall (fun c => is_ws c = true) ws.
Proof.
  induction s as [| c r (ws & E & F)]; [exists []; split; [reflexivity | constructor] | ].
  cbn [trimStart]. destruct (is_ws c) eqn:W.
  - exists (c :: ws). split; [cbn; now rewrite <- E | now constructor].
  - exists []. split; [reflexivity | constructor].
Qed.

Lemma trimStart_fixed c r : is_ws c = false -> trimStart (c :: r) = c :: r.
Proof. intros H. cbn. now rewrite H. Qed.

Lemma trimStart_idem s : trimStart (trimStart s) = trimStart s.
Proof.
  destruct (trimStart_head s) as [-> | (c & r & -> & H)]; [reflexivity | ].
  now apply trimStart_fixed.
Qed.

Lemma trimStart_blank s : Forall (fun c => is_ws c = true) s -> trimStart s = [].
Proof. induction 1 as [| c r H _ IH]; [reflexivity | ]. cbn. now rewrite H. Qed.

Lemma trimEnd_split a :
  exists ws, a = trimEnd a ++ ws /\ Forall (fun c => is_ws c = true) ws.
Proof.
  unfold trimEnd. destruct (trimStart_split (rev a)) as (ws & E & F).
  exists (rev ws). split.
  - rewrite <- rev_app_distr, <- E. now rewrite rev_involutive.
  - now apply Forall_rev.
Qed.

Lemma trim_head s :
  trim s = [] \/ exists c r, trim s = c :: r /\ is_ws c = false.
Proof.
  unfold trim. destruct (trimEnd_split (trimStart s)) as (ws & E & _).
  destruct (trimEnd (trimStart s)) as [| c r]; [now left | ].
  right. exists c, r. split; [reflexivity | ].
  destruct (trimStart_head s) as [H | (c' & r' & H & W)]; rewrite H in E.
  - discriminate E.
  - cbn in E. now injection E as -> _.
Qed.

Lemma trimEnd_idem s : trimEnd (trimEnd s) = trimEnd s.
Proof. unfold trimEnd. now rewrite rev_involutive, trimStart_idem. Qed.

Lemma trim_idem s : trim (trim s) = trim s.
Proof.
  destruct (trim_head s) as [-> | (c & r & E & W)]; [reflexivity | ].
  unfold trim at 1. rewrite E, (trimStart_fixed c r W), <- E.
  unfold trim. apply trimEnd_idem.
Qed.

Lemma trim_blank s : Forall (fun c => is_ws c = true) s -> trim s = [].
Proof. intros H. unfold trim. now rewrite (trimStart_blank s H). Qed.

Lemma trim_nonblank s : trim s <> [] -> exists c, In c s /\ is_ws c = false.
Proof.
  intros H. destruct (trim_head s) as [E | (c & r & E & W)]; [contradiction | ].
  exists c. split; [ | exact W].
  unfold trim in E. destruct (trimEnd_split (trimStart s)) as (ws & E1 & _).
  destruct (trimStart_split s) as (ws0 & E0 & _).
  rewrite E0, E1, E. apply in_or_app. right. now left.
Qed.

(** ** The paths of a turn *)

Lemma callGuruji_paths session raw w :
  (exists t, callGuruji session raw w = (Val tt, emit (EvToast t) w) /\
             (JS.eqb (getApiKey w) [] = true \/ onLine w = false)) \/
  (JS.eqb (getApiKey w) [] = false /\ onLine w = true /\
   exists e w1,
     interpretUserQuery raw (getApiKey w) (turn_start w) = (Thrown e, w1) /\
     callGuruji session raw w = (Thrown e, turn_end w1)) \/
  (exists result w2, reaches_generating session raw w result w2).
Proof.
  destruct (JS.eqb (getApiKey w) []) eqn:K.
  { left. exists ToastNoApiKey. split; [now apply callGuruji_no_key | now left]. }
  destruct (onLine w) eqn:O.
  2: { left. exists ToastOffline. split; [now apply callGuruji_offline | now right]. }
  right.
  destruct (interpretUserQuery raw (getApiKey w) (turn_start w))
    as [[rewritten | e] w1] eqn:I.
  - right.
    destruct (geminiFetch_val GURUJI_URL (getApiKey w)
                (buildGurujiPayload w1 (session_messages w1 session) rewritten)
                30000 w1) as (result & w2 & G).
    exists result, w2. split; [exact K | split; [exact O | ]].
    exists rewritten, w1. now split.
  - left. split; [reflexivity | split; [reflexivity | ]]. exists e, w1.
    split; [reflexivity | ].
    rewrite callGuruji_guarded by assumption.
    unfold callGuruji_try, bind at 1. now rewrite I.
Qed.

(** ** What is stored as the reply *)

Lemma first_reply_trimmed text :
  trimmed (or_else (Some (JS.trim text)) (js "[No response]")).
Proof.
  destruct (JS.trim text) as [| c r] eqn:E; cbn [or_else].
  - split; [discriminate | reflexivity].
  - split; [discriminate | ]. rewrite <- E. apply trim_idem.
Qed.

Lemma translate_trimmed reply key w r w1 :
  trimmed reply ->
  translateToMarathiIfNeeded reply key w = (Val r, w1) -> trimmed r.
Proof.
  intros T. unfold translateToMarathiIfNeeded, bind at 1, read.
  destruct (negb (JS.eqb (getLanguage w) (js "mr"))); [now intros [= <- _] | ].
  destruct (negb (looksEnglish reply)); [now intros [= <- _] | ].
  unfold bind at 1.
  destruct (geminiFetch INTERPRETER_URL key _ 25000 w) as [[[st tx | st j tx] | e] w2];
    [now intros [= <- _] | | discriminate].
  unfold bind, lift. destruct (extractTextFromGemini j) as [text | e]; [ | discriminate].
  unfold ret. intros [= <- _].
  destruct (JS.trim text) as [| c x] eqn:E; cbn [or_else]; [exact T | ].
  split; [discriminate | ]. rewrite <- E. apply trim_idem.
Qed.

Lemma report_failure_heap session raw status text w :
  heap (snd (report_failure session raw status text w)) = heap w.
Proof.
  rewrite report_failure_cases.
  destruct (if (status =? 429)%Z then parseRetryDelaySeconds text else None)
    as [sec | ]; [destruct (sec =? 0)%Z | ]; reflexivity.
Qed.

(** X13.  Whatever the service answers, a turn either leaves the log of
    its session as it is or appends one assistant message whose text is
    not empty and has no white space at either end. *)
Theorem stored_reply_is_trimmed session raw w ss :
  deref w session = Some ss ->
  let w' := snd (callGuruji session raw w) in
  session_messages w' session = messages ss \/
  exists reply ts,
    session_messages w' session
      = messages ss ++ [mkMessage (js "assistant") reply ts] /\
    reply <> [] /\ JS.trim reply = reply.
Proof.
  intros D w'. subst w'.
  destruct (callGuruji_paths session raw w)
    as [(t & -> & _) | [(K & O & e & w1 & I & ->) | (result & w2 & R)]].
  - left. now apply messages_of.
  - left. apply messages_of.
    pose proof (Keeps_run _ _ _ _ (Keeps_interpretUserQuery raw _) I) as K1.
    change (deref w1 session = Some ss). apply K1.
    now apply (keeps_turn_start w).
  - rewrite (callGuruji_reaches _ _ _ _ _ R).
    pose proof (reaches_keeps _ _ _ _ _ R) as K2.
    assert (deref w2 session = Some ss) as D2 by now apply K2.
    destruct result as [status text | status json text].
    + left. pose proof (report_failure_heap session raw status text w2) as H.
      destruct (report_failure session raw status text w2) as [r w3].
      cbn [snd] in *. apply messages_of. unfold deref in *.
      cbn [turn_end heap emit]. now rewrite H.
    + rewrite accept_reply_cases.
      destruct (extractTextFromGemini json) as [text0 | e];
        [ | left; now apply messages_of].
      destruct (translateToMarathiIfNeeded _ (getApiKey w) w2)
        as [[reply | e] w3] eqn:T;
        pose proof (Keeps_run _ _ _ _ (Keeps_translate _ _) T) as K3.
      * right. exists reply, (clock w3).
        destruct (translate_trimmed _ _ _ _ _ (first_reply_trimmed text0) T)
          as [N Tr].
        split; [ | now split]. cbn [snd].
        change (session_messages
                  (snd ((push_message session
                           (mkMessage (js "assistant") reply (clock w3)) ;;
                         set_updatedAtISO session (clock w3) ;; saveSessions) w3))
                  session = messages ss ++ [mkMessage (js "assistant") reply (clock w3)]).
        apply stored_messages. now apply K3.
      * left. apply messages_of. change (deref w3 session = Some ss). now apply K3.
Qed.

Lemma stored_reply_is_trimmed_witness :
  let w := Sample.page [Sample.said "user" "hi"] None
             [Sample.replies (js ""); Sample.replies (js "  ")] in
  let w' := snd (callGuruji 0 (js "hi") w) in
  session_messages w' 0 = [Sample.said "user" "hi"] \/
  exists reply ts,
    session_messages w' 0
      = [Sample.said "user" "hi"] ++ [mkMessage (js "assistant") reply ts] /\
    reply <> [] /\ JS.trim reply = reply.
Proof.
  intros w.
  apply (stored_reply_is_trimmed 0 (js "hi") w
           (Sample.consultation [Sample.said "user" "hi"])).
  reflexivity.
Defined.

(** ** The calls of a turn, in order *)

Lemma interpret_fetches raw key w0 r w1 :
  interpretUserQuery raw key w0 = (r, w1) ->
  (fetches (trace w1) = fetches (trace w0) /\ exists e, r = Thrown e) \/
  exists p, fetches (trace w1) = fetches (trace w0) ++ [(INTERPRETER_URL, p)] /\
            contents p = [user_turn raw].
Proof.
  unfold interpretUserQuery, bind at 1, read. unfold bind at 1, read.
  unfold bind at 1, lift at 1.
  destruct (buildInterpreterPrompt (getLanguage w0) (clock w0)) as [prompt | e].
  2: { intros [= <- <-]. left. split; [reflexivity | eauto]. }
  unfold bind at 1.
  destruct (geminiFetch INTERPRETER_URL key _ 20000 w0) as [res w2] eqn:G.
  pose proof (geminiFetch_fetches _ _ _ _ _ _ _ G) as F.
  intros H. right.
  exists (mkPayload prompt [mkContent (js "user") raw]
            (mkConfig 15 (Some 90%Z) None 240)).
  split; [ | reflexivity].
  destruct res as [[st tx | st j tx] | e].
  - injection H as _ <-. exact F.
  - unfold bind, lift, ret in H.
    destruct (extractTextFromGemini j); injection H as _ <-; exact F.
  - injection H as _ <-. exact F.
Qed.

Lemma translate_fetches reply key w r w1 :
  translateToMarathiIfNeeded reply key w = (r, w1) ->
  fetches (trace w1) = fetches (trace w) \/
  fetches (trace w1)
    = fetches (trace w) ++ [(INTERPRETER_URL, translation_payload reply)].
Proof.
  unfold translateToMarathiIfNeeded, bind at 1, read.
  destruct (negb (JS.eqb (getLanguage w) (js "mr"))); [intros [= _ <-]; now left | ].
  destruct (negb (looksEnglish reply)); [intros [= _ <-]; now left | ].
  unfold bind at 1.
  destruct (geminiFetch INTERPRETER_URL key _ 25000 w) as [res w2] eqn:G.
  pose proof (geminiFetch_fetches _ _ _ _ _ _ _ G) as F.
  intros H. right.
  destruct res as [[st tx | st j tx] | e].
  - injection H as _ <-. exact F.
  - unfold bind, lift, ret in H.
    destruct (extractTextFromGemini j); injection H as _ <-; exact F.
  - injection H as _ <-. exact F.
Qed.

Lemma report_failure_fetches session raw status text w :
  fetches (trace (snd (report_failure session raw status text w)))
  = fetches (trace w).
Proof.
  rewrite report_failure_cases.
  destruct (if (status =? 429)%Z then parseRetryDelaySeconds text else None)
    as [sec | ]; [destruct (sec =? 0)%Z | ]; cbn [snd trace emit set_pendingRetry];
    rewrite fetches_app; apply app_nil_r.
Qed.

Lemma accept_reply_fetches session key json w :
  fetches (trace (snd (accept_reply session key json w))) = fetches (trace w) \/
  exists reply,
    fetches (trace (snd (accept_reply session key json w)))
    = fetches (trace w) ++ [(INTERPRETER_URL, translation_payload reply)].
Proof.
  rewrite accept_reply_cases.
  destruct (extractTextFromGemini json) as [text | e]; [ | now left].
  destruct (translateToMarathiIfNeeded _ key w) as [[reply | e] w1] eqn:T;
    destruct (translate_fetches _ _ _ _ _ T) as [F | F].
  - left. cbn. rewrite fetches_app. cbn. now rewrite app_nil_r.
  - right. eexists. cbn. rewrite fetches_app. cbn. rewrite app_nil_r. exact F.
  - now left.
  - right. eexists. exact F.
Qed.

Lemma reaches_fetches session raw w result w2 :
  reaches_generating session raw w result w2 ->
  exists p1 p2,
    fetches (trace w2)
    = fetches (trace w) ++ [(INTERPRETER_URL, p1); (GURUJI_URL, p2)] /\
    contents p1 = [user_turn raw].
Proof.
  intros (_ & _ & rewritten & w1 & I & G).
  destruct (interpret_fetches _ _ _ _ _ I) as [[_ [e E]] | (p1 & F1 & C1)];
    [discriminate E | ].
  pose proof (geminiFetch_fetches _ _ _ _ _ _ _ G) as F2.
  exists p1. eexists. split; [ | exact C1].
  rewrite F2, F1. unfold turn_start. cbn [trace emit].
  rewrite !fetches_app. cbn. rewrite !app_nil_r, <- app_assoc. reflexivity.
Qed.

(** X14.  A turn calls the service at most three times, in this order:
    the Interpreter model, the Guruji model, the Interpreter model
    again; and a third call is always the translation. *)
Theorem turn_makes_at_most_three_calls session raw w :
  exists cs rest,
    fetches (trace (snd (callGuruji session raw w))) = fetches (trace w) ++ cs /\
    map fst cs ++ rest = [INTERPRETER_URL; GURUJI_URL; INTERPRETER_URL] /\
    (forall c, nth_error cs 2 = Some c -> is_translation c = true).
Proof.
  destruct (callGuruji_paths session raw w)
    as [(t & -> & _) | [(K & O & e & w1 & I & ->) | (result & w2 & R)]].
  - exists [], [INTERPRETER_URL; GURUJI_URL; INTERPRETER_URL].
    cbn. rewrite fetches_app. cbn. rewrite !app_nil_r.
    repeat split. discriminate.
  - cbn [snd turn_end trace emit]. rewrite !fetches_app. cbn. rewrite !app_nil_r.
    assert (fetches (trace (turn_start w)) = fetches (trace w)) as S.
    { unfold turn_start. cbn. rewrite !fetches_app. cbn. now rewrite !app_nil_r. }
    destruct (interpret_fetches _ _ _ _ _ I) as [[F _] | (p1 & F & _)];
      rewrite F, S.
    + exists [], [INTERPRETER_URL; GURUJI_URL; INTERPRETER_URL].
      rewrite app_nil_r. repeat split. discriminate.
    + exists [(INTERPRETER_URL, p1)], [GURUJI_URL; INTERPRETER_URL].
      repeat split. discriminate.
  - rewrite (callGuruji_reaches _ _ _ _ _ R).
    destruct (reaches_fetches _ _ _ _ _ R) as (p1 & p2 & F & _).
    destruct result as [status text | status json text].
    + pose proof (report_failure_fetches session raw status text w2) as H.
      destruct (report_failure session raw status text w2) as [r w3].
      cbn [snd] in *. cbn [turn_end trace emit]. rewrite !fetches_app. cbn.
      rewrite !app_nil_r, H, F.
      exists [(INTERPRETER_URL, p1); (GURUJI_URL, p2)], [INTERPRETER_URL].
      repeat split. discriminate.
    + pose proof (accept_reply_fetches session (getApiKey w) json w2) as H.
      destruct (accept_reply session (getApiKey w) json w2) as [r w3].
      cbn [snd] in *. cbn [turn_end trace emit]. rewrite !fetches_app. cbn.
      rewrite !app_nil_r.
      destruct H as [H | (reply & H)]; rewrite H, F.
      * exists [(INTERPRETER_URL, p1); (GURUJI_URL, p2)], [INTERPRETER_URL].
        repeat split. discriminate.
      * exists [(INTERPRETER_URL, p1); (GURUJI_URL, p2);
                (INTERPRETER_URL, translation_payload reply)], [].
        rewrite <- app_assoc. repeat split.
        intros c [= <-]. reflexivity.
Qed.

(** ** The controls of the page *)

Lemma callGuruji_try_trace session raw key w0 :
  exists l, trace (snd (callGuruji_try session raw key w0)) = trace w0 ++ l.
Proof.
  unfold callGuruji_try, bind at 1.
  destruct (interpretUserQuery raw key w0) as [[rewritten | e] w1] eqn:I;
    destruct (keeps_trace _ _ (Keeps_run _ _ _ _ (Keeps_interpretUserQuery raw _) I))
      as (l1 & E1); [ | now exists l1].
  unfold bind at 1, read. unfold bind at 1.
  destruct (geminiFetch_val GURUJI_URL key
              (buildGurujiPayload w1 (session_messages w1 session) rewritten)
              30000 w1) as (result & w2 & G).
  rewrite G.
  destruct (keeps_trace _ _ (Keeps_run _ _ _ _ (Keeps_geminiFetch _ _ _ _) G))
    as (l2 & E2).
  destruct (after_generating_trace session raw key result w2) as (l3 & E3).
  exists (l1 ++ l2 ++ l3).
  destruct result; rewrite E3, E2, E1, <- !app_assoc; reflexivity.
Qed.

(** X15.  When both guards pass, what the page does during a turn begins
    with the send control disabled and the typing indicator shown and
    ends with the indicator hidden and the control enabled again, also
    when the turn ends by an exception. *)
Theorem controls_are_restored session raw w :
  JS.eqb (getApiKey w) [] = false -> onLine w = true ->
  exists l,
    trace (snd (callGuruji session raw w))
    = trace w ++ [EvSendingDisabled true; EvTyping true] ++ l
      ++ [EvTyping false; EvSendingDisabled false].
Proof.
  intros K O. rewrite callGuruji_guarded by assumption.
  destruct (callGuruji_try_trace session raw (getApiKey w) (turn_start w)) as (l & E).
  destruct (callGuruji_try session raw (getApiKey w) (turn_start w)) as [r w1].
  cbn [snd] in *. exists l. unfold turn_end. cbn [trace emit]. rewrite E.
  unfold turn_start. cbn [trace emit]. rewrite <- !app_assoc. reflexivity.
Qed.

Lemma controls_are_restored_witness :
  let w := Sample.page [Sample.said "user" "hi"] None
             [Sample.replies (js ""); Sample.answers 200 Sample.null_part_json] in
  fst (callGuruji 0 (js "hi") w) = Thrown TypeError /\
  exists l,
    trace (snd (callGuruji 0 (js "hi") w))
    = trace w ++ [EvSendingDisabled true; EvTyping true] ++ l
      ++ [EvTyping false; EvSendingDisabled false].
Proof.
  intros w. split; [reflexivity | ].
  apply (controls_are_restored 0 (js "hi") w); reflexivity.
Defined.

(** ** When the reply is stored as it came *)

Lemma translate_skipped reply key w :
  getLanguage w <> js "mr" \/ looksEnglish reply = false ->
  translateToMarathiIfNeeded reply key w = (Val reply, w).
Proof.
  intros H. unfold translateToMarathiIfNeeded, bind, read.
  destruct (JS.eqb (getLanguage w) (js "mr")) eqn:E; cbn [negb]; [ | reflexivity].
  apply jseqb_eq in E. destruct H as [H | ->]; [contradiction | reflexivity].
Qed.

(** X16.  When the Generating call succeeds and either the language mode
    read at that moment is not Marathi or the reply does not look
    English, the assistant message stored is the trimmed reply (or the
    placeholder), no further call is made, and the retry token is
    cleared. *)
Theorem reply_stored_without_translation
    session raw w status json body w2 text ss :
  reaches_generating session raw w (Succeeded status json body) w2 ->
  extractTextFromGemini json = Val text ->
  let reply := or_else (Some (JS.trim text)) (js "[No response]") in
  getLanguage w2 <> js "mr" \/ looksEnglish reply = false ->
  deref w session = Some ss ->
  let w' := snd (callGuruji session raw w) in
  session_messages w' session
    = messages ss ++ [mkMessage (js "assistant") reply (clock w2)] /\
  fetches (trace w') = fetches (trace w2) /\
  pendingRetry w' = None.
Proof.
  intros R X reply H D w'. subst w'.
  rewrite (callGuruji_reaches _ _ _ _ _ R), accept_reply_cases, X.
  fold reply. rewrite (translate_skipped reply (getApiKey w) w2 H).
  pose proof (reaches_keeps _ _ _ _ _ R) as K2.
  assert (deref w2 session = Some ss) as D2 by now apply K2.
  cbn [snd]. split; [ | split].
  - change (session_messages
              (snd ((push_message session
                       (mkMessage (js "assistant") reply (clock w2)) ;;
                     set_updatedAtISO session (clock w2) ;; saveSessions) w2))
              session = messages ss ++ [mkMessage (js "assistant") reply (clock w2)]).
    now apply stored_messages.
  - cbn. rewrite !fetches_app. cbn. now rewrite !app_nil_r.
  - reflexivity.
Qed.

Lemma reply_stored_without_translation_witness :
  let w := Sample.page [Sample.said "user" "hi"] None
             [Sample.replies (js ""); Sample.replies Sample.forty;
              Sample.replies (js "never asked")] in
  session_messages (snd (callGuruji 0 (js "hi") w)) 0
    = [Sample.said "user" "hi";
       mkMessage (js "assistant") Sample.forty (Sample.t0 + 200)%Z].
Proof.
  intros w.
  pose (w1 := snd (interpretUserQuery (js "hi") (js "key") (turn_start w))).
  pose (w2 := snd (geminiFetch GURUJI_URL (js "key")
                     (buildGurujiPayload w1 (session_messages w1 0) (js "hi"))
                     30000 w1)).
  assert (reaches_generating 0 (js "hi") w
            (Succeeded 200 (Sample.reply_json Sample.forty)
               (Sample.body_of (Sample.reply_json Sample.forty))) w2) as R.
  { repeat split. exists (js "hi"), w1. split; vm_compute; reflexivity. }
  exact (proj1 (reply_stored_without_translation 0 (js "hi") w 200%Z
                  (Sample.reply_json Sample.forty)
                  (Sample.body_of (Sample.reply_json Sample.forty)) w2
                  Sample.forty (Sample.consultation [Sample.said "user" "hi"])
                  R eq_refl (or_intror eq_refl) eq_refl)).
Defined.

(** ** When the translation takes the place of the reply *)

(** X17.  When the corrective translation returns a text that is not
    empty once trimmed, that trimmed text is what is stored as the
    assistant message, and the retry token is cleared. *)
Theorem translation_replaces_reply
    session raw w status json body w2 text st j b w3 out ss :
  reaches_generating session raw w (Succeeded status json body) w2 ->
  extractTextFromGemini json = Val text ->
  let reply := or_else (Some (JS.trim text)) (js "[No response]") in
  getLanguage w2 = js "mr" -> looksEnglish reply = true ->
  geminiFetch INTERPRETER_URL (getApiKey w) (translation_payload reply) 25000 w2
    = (Val (Succeeded st j b), w3) ->
  extractTextFromGemini j = Val out -> JS.trim out <> [] ->
  deref w session = Some ss ->
  let w' := snd (callGuruji session raw w) in
  session_messages w' session
    = messages ss ++ [mkMessage (js "assistant") (JS.trim out) (clock w3)] /\
  pendingRetry w' = None.
Proof.
  intros R X reply L E F Xo N D w'. subst w'.
  rewrite (callGuruji_reaches _ _ _ _ _ R), accept_reply_cases, X.
  fold reply.
  assert (translateToMarathiIfNeeded reply (getApiKey w) w2
          = (Val (JS.trim out), w3)) as T.
  { unfold translateToMarathiIfNeeded, bind, read. cbv beta iota.
    rewrite L, jseqb_refl, E. cbn [negb].
    unfold translation_payload, user_turn in F. rewrite F.
    unfold lift. rewrite Xo. unfold ret.
    destruct (JS.trim out); [contradiction | reflexivity]. }
  rewrite T.
  pose proof (reaches_keeps _ _ _ _ _ R) as K2.
  pose proof (Keeps_run _ _ _ _ (Keeps_geminiFetch _ _ _ _) F) as K3.
  assert (deref w3 session = Some ss) as D3 by (apply K3; now apply K2).
  cbn [snd]. split; [ | reflexivity].
  change (session_messages
            (snd ((push_message session
                     (mkMessage (js "assistant") (JS.trim out) (clock w3)) ;;
                   set_updatedAtISO session (clock w3) ;; saveSessions) w3))
            session
          = messages ss ++ [mkMessage (js "assistant") (JS.trim out) (clock w3)]).
  now apply stored_messages.
Qed.

Lemma translation_replaces_reply_witness :
  let w := Sample.page [Sample.said "user" "hi"] None
             [Sample.replies (js ""); Sample.replies Sample.forty_one;
              Sample.replies (js " namaskar ")] in
  session_messages (snd (callGuruji 0 (js "hi") w)) 0
    = [Sample.said "user" "hi";
       mkMessage (js "assistant") (js "namaskar") (Sample.t0 + 300)%Z].
Proof.
  intros w.
  pose (w1 := snd (interpretUserQuery (js "hi") (js "key") (turn_start w))).
  pose (w2 := snd (geminiFetch GURUJI_URL (js "key")
                     (buildGurujiPayload w1 (session_messages w1 0) (js "hi"))
                     30000 w1)).
  pose (w3 := snd (geminiFetch INTERPRETER_URL (js "key")
                     (translation_payload Sample.forty_one) 25000 w2)).
  assert (reaches_generating 0 (js "hi") w
            (Succeeded 200 (Sample.reply_json Sample.forty_one)
               (Sample.body_of (Sample.reply_json Sample.forty_one))) w2) as R.
  { repeat split. exists (js "hi"), w1. split; vm_compute; reflexivity. }
  exact (proj1 (translation_replaces_reply 0 (js "hi") w 200%Z
                  (Sample.reply_json Sample.forty_one)
                  (Sample.body_of (Sample.reply_json Sample.forty_one)) w2
                  Sample.forty_one 200%Z (Sample.reply_json (js " namaskar "))
                  (Sample.body_of (Sample.reply_json (js " namaskar "))) w3
                  (js " namaskar ")
                  (Sample.consultation [Sample.said "user" "hi"])
                  R eq_refl eq_refl eq_refl eq_refl eq_refl
                  ltac:(vm_compute; discriminate) eq_refl)).
Defined.

(** ** When the Interpreter rewrites the query *)

(** X18.  When the Interpreter call succeeds with a text that is not
    empty once trimmed, [interpretUserQuery] returns that trimmed text,
    and the Generating call is made with it as the last content. *)
Theorem interpreter_rewrite_is_what_the_model_sees
    session raw w prompt st j b w1 text :
  JS.eqb (getApiKey w) [] = false ->
  onLine w = true ->
  buildInterpreterPrompt (getLanguage w) (clock w) = Val prompt ->
  geminiFetch INTERPRETER_URL (getApiKey w)
    (mkPayload prompt [user_turn raw] (mkConfig 15 (Some 90%Z) None 240))
    20000 (turn_start w) = (Val (Succeeded st j b), w1) ->
  extractTextFromGemini j = Val text ->
  JS.trim text <> [] ->
  interpretUserQuery raw (getApiKey w) (turn_start w) = (Val (JS.trim text), w1) /\
  let payload :=
    buildGurujiPayload w1 (session_messages w1 session) (JS.trim text) in
  last (contents payload) (user_turn []) = user_turn (JS.trim text) /\
  In (EvFetch GURUJI_URL (getApiKey w) payload 30000)
     (trace (snd (callGuruji session raw w))).
Proof.
  intros K O P F X N.
  assert (interpretUserQuery raw (getApiKey w) (turn_start w)
          = (Val (JS.trim text), w1)) as I.
  { unfold interpretUserQuery, bind, read, lift at 1.
    change (getLanguage (turn_start w)) with (getLanguage w).
    change (clock (turn_start w)) with (clock w).
    rewrite P. unfold user_turn in F. rewrite F.
    unfold lift. rewrite X. unfold ret.
    destruct (JS.trim text); [contradiction | reflexivity]. }
  split; [exact I | ]. intros payload. split.
  - unfold payload, buildGurujiPayload. cbn [contents]. apply last_last.
  - destruct (geminiFetch_val GURUJI_URL (getApiKey w) payload 30000 w1)
      as (result & w2 & G).
    assert (reaches_generating session raw w result w2) as R.
    { split; [exact K | split; [exact O | ]]. exists (JS.trim text), w1. now split. }
    rewrite (callGuruji_reaches _ _ _ _ _ R).
    destruct (geminiFetch_trace _ _ _ _ _ _ _ G) as (l & E).
    destruct (after_generating_trace session raw (getApiKey w) result w2) as (l' & E').
    destruct (match result with
              | Failed status text0 => report_failure session raw status text0 w2
              | Succeeded _ json _ => accept_reply session (getApiKey w) json w2
              end) as [r' w3].
    cbn [snd] in E' |- *. cbn [turn_end emit trace].
    rewrite E', E. rewrite !in_app_iff. left. left. left. right. now left.
Qed.

Lemma interpreter_rewrite_is_what_the_model_sees_witness :
  let w := Sample.page [Sample.said "user" "udya agnivas?"] None
             [Sample.replies (js " Agni Vas on 2026-11-03? ");
              Sample.replies (js "Hari Om")] in
  exists w1,
    interpretUserQuery (js "udya agnivas?") (getApiKey w) (turn_start w)
      = (Val (js "Agni Vas on 2026-11-03?"), w1) /\
    let payload :=
      buildGurujiPayload w1 (session_messages w1 0) (js "Agni Vas on 2026-11-03?") in
    last (contents payload) (user_turn []) = user_turn (js "Agni Vas on 2026-11-03?") /\
    In (EvFetch GURUJI_URL (getApiKey w) payload 30000)
       (trace (snd (callGuruji 0 (js "udya agnivas?") w))).
Proof.
  intros w.
  pose (w1 := snd (interpretUserQuery (js "udya agnivas?") (js "key") (turn_start w))).
  exists w1.
  destruct (buildInterpreterPrompt (getLanguage w) (clock w)) as [prompt | e] eqn:P;
    [ | vm_compute in P; discriminate P].
  apply (interpreter_rewrite_is_what_the_model_sees 0 (js "udya agnivas?") w prompt
           200%Z (Sample.reply_json (js " Agni Vas on 2026-11-03? "))
           (Sample.body_of (Sample.reply_json (js " Agni Vas on 2026-11-03? ")))
           w1 (js " Agni Vas on 2026-11-03? ")).
  - reflexivity.
  - reflexivity.
  - exact P.
  - vm_compute in P. injection P as <-. vm_compute. reflexivity.
  - reflexivity.
  - vm_compute. discriminate.
Defined.

(** ** Sending a message *)

Lemma update_nth_other {A} n (f : A -> A) l r :
  r <> n -> nth_error (update_nth n f l) r = nth_error l r.
Proof.
  revert n r. induction l as [| y l IH]; intros [| n] [| r] H; cbn;
    try reflexivity; try contradiction.
  apply IH. congruence.
Qed.

Lemma filter_user_app msgs text ts :
  length (filter (fun m => JS.eqb (role m) (js "user"))
            (msgs ++ [mkMessage (js "user") text ts]))
  = S (length (filter is_user msgs)).
Proof.
  rewrite filter_app, length_app. cbn [filter role]. rewrite jseqb_refl.
  cbn [length]. unfold is_user. lia.
Qed.

(** What [insertUserMessage] does to the session before the call. *)
Lemma append_user_message_world session text w ss :
  deref w session = Some ss ->
  exists w_sent,
    append_user_message session text w = (Val tt, w_sent) /\
    deref w_sent session
    = Some (mkSession (id ss)
              (if (length (filter is_user (messages ss)) =? 0)%nat
                  && JS.eqb (title ss) (js "New Consultation")
                  && negb (JS.eqb text [])
               then short_title text else title ss)
              (createdAtISO ss) (clock w)
              (messages ss ++ [mkMessage (js "user") text (clock w)])) /\
    (forall r, r <> session -> deref w_sent r = deref w r) /\
    trace w_sent
    = trace w ++ [EvSaveSessions (snapshot w_sent) (or_else (activeSessionId w) [])] /\
    pendingRetry w_sent = pendingRetry w /\
    ls_api_key w_sent = ls_api_key w /\
    onLine w_sent = onLine w.
Proof.
  intros D.
  unfold append_user_message.
  unfold bind at 1, read at 1.
  set (m := mkMessage (js "user") text (nowISO w)).
  unfold bind at 1, push_message at 1, update_session at 1, change at 1.
  unfold bind at 1, set_updatedAtISO at 1, update_session at 1, change at 1.
  unfold bind at 1, read at 1.
  set (w1 := set_heap _ (set_heap _ w)).
  set (s1 := mkSession (id ss) (title ss) (createdAtISO ss) (nowISO w)
               (messages ss ++ [m])).
  assert (deref w1 session = Some s1) as D1.
  { unfold w1, deref in *. cbn [heap set_heap].
    rewrite (update_nth_same _ _ _ _ (update_nth_same _ _ _ _ D)).
    reflexivity. }
  assert (forall r, r <> session -> deref w1 r = deref w r) as O1.
  { intros r N. unfold w1, deref. cbn [heap set_heap].
    now rewrite !update_nth_other. }
  unfold session_messages. rewrite D1.
  unfold s1 at 1. cbn [messages]. unfold m at 1. rewrite filter_user_app.
  change (S (length (filter is_user (messages ss))) =? 1)%nat
    with (length (filter is_user (messages ss)) =? 0)%nat.
  unfold bind at 1.
  destruct (length (filter is_user (messages ss)) =? 0)%nat; cbn [andb].
  - unfold updateSessionTitleFromFirstMessage, update_session, change at 1.
    unfold saveSessions, change.
    eexists. split; [reflexivity | ].
    split; [ | split; [ | split; [ | repeat split]]].
    + unfold deref in *. cbn [heap emit set_heap].
      erewrite update_nth_same by exact D1. f_equal.
      unfold s1. cbn [title id createdAtISO updatedAtISO messages].
      destruct (_ && _); reflexivity.
    + intros r N. unfold deref in *. cbn [heap emit set_heap].
      rewrite update_nth_other by exact N. now apply O1.
    + reflexivity.
  - unfold ret at 1. unfold saveSessions, change.
    eexists. split; [reflexivity | ].
    split; [ | split; [ | split; [ | repeat split]]].
    + exact D1.
    + exact O1.
    + reflexivity.
Qed.

Lemma no_user_message l :
  (length (filter is_user l) =? 0)%nat = forallb (fun m => negb (is_user m)) l.
Proof.
  induction l as [| m r IH]; [reflexivity | ].
  cbn [filter forallb]. destruct (is_user m); cbn; [reflexivity | exact IH].
Qed.

(** A turn changes neither the id nor the title of a session. *)
Lemma keeps_titles_of_keeps w w' : keeps w w' -> keeps_titles w w'.
Proof. intros K ref s D. exists s. split; [now apply K | now split]. Qed.

Lemma keeps_titles_trans w1 w2 w3 :
  keeps_titles w1 w2 -> keeps_titles w2 w3 -> keeps_titles w1 w3.
Proof.
  intros A B ref s D. destruct (A ref s D) as (s2 & D2 & I2 & T2).
  destruct (B ref s2 D2) as (s3 & D3 & I3 & T3).
  exists s3. split; [exact D3 | split; congruence].
Qed.

Lemma keeps_titles_heap w w' : heap w' = heap w -> keeps_titles w w'.
Proof.
  intros H ref s D. exists s. unfold deref in *. rewrite H. now split.
Qed.

Lemma keeps_titles_update n f w :
  (forall s, id (f s) = id s /\ title (f s) = title s) ->
  keeps_titles w (set_heap (update_nth n f (heap w)) w).
Proof.
  intros F ref s D. unfold deref in *. cbn [heap set_heap].
  destruct (Nat.eq_dec ref n) as [-> | N].
  - exists (f s). split; [now apply update_nth_same | apply F].
  - exists s. rewrite update_nth_other by exact N. now split.
Qed.

Lemma stored_reply_keeps_titles session m ts w :
  keeps_titles w
    (snd ((push_message session m ;; set_updatedAtISO session ts ;; saveSessions) w)).
Proof.
  unfold bind, push_message, set_updatedAtISO, update_session, saveSessions, change.
  cbn [snd].
  set (w1 := set_heap (update_nth session _ (heap w)) w).
  set (w2 := set_heap (update_nth session _ (heap w1)) w1).
  apply (keeps_titles_trans w w1);
    [apply keeps_titles_update; intros s; now split | ].
  apply (keeps_titles_trans w1 w2);
    [apply keeps_titles_update; intros s; now split | ].
  apply keeps_titles_heap. reflexivity.
Qed.

Lemma callGuruji_keeps_titles session raw w :
  keeps_titles w (snd (callGuruji session raw w)).
Proof.
  destruct (callGuruji_paths session raw w)
    as [(t & -> & _) | [(K & O & e & w1 & I & ->) | (result & w2 & R)]].
  - now apply keeps_titles_heap.
  - cbn [snd].
    apply (keeps_titles_trans w w1); [ | apply keeps_titles_heap; reflexivity].
    apply keeps_titles_of_keeps.
    eapply keeps_trans; [apply keeps_turn_start | ].
    exact (Keeps_run _ _ _ _ (Keeps_interpretUserQuery raw _) I).
  - rewrite (callGuruji_reaches _ _ _ _ _ R).
    pose proof (keeps_titles_of_keeps _ _ (reaches_keeps _ _ _ _ _ R)) as K2.
    destruct result as [status text | status json text].
    + pose proof (report_failure_heap session raw status text w2) as H.
      destruct (report_failure session raw status text w2) as [r w3].
      cbn [snd] in *. apply (keeps_titles_trans w w2); [exact K2 | ].
      now apply keeps_titles_heap.
    + rewrite accept_reply_cases.
      destruct (extractTextFromGemini json) as [text0 | e].
      2: { apply (keeps_titles_trans w w2); [exact K2 | now apply keeps_titles_heap]. }
      destruct (translateToMarathiIfNeeded _ (getApiKey w) w2)
        as [[reply | e] w3] eqn:T;
        pose proof (keeps_titles_of_keeps _ _
                      (Keeps_run _ _ _ _ (Keeps_translate _ _) T)) as K3;
        cbn [snd].
      * apply (keeps_titles_trans w w2); [exact K2 | ].
        apply (keeps_titles_trans w2 w3); [exact K3 | ].
        eapply keeps_titles_trans;
          [apply (stored_reply_keeps_titles session
                    (mkMessage (js "assistant") reply (clock w3)) (clock w3) w3) | ].
        apply keeps_titles_heap. reflexivity.
      * apply (keeps_titles_trans w w2); [exact K2 | ].
        apply (keeps_titles_trans w2 w3); [exact K3 | now apply keeps_titles_heap].
Qed.

(** X19.  Sending a message that is not blank changes the title of the
    active session only when the session held no user message before
    and still has the default title; the title at the end of the turn is
    then made of the first 32 code units of the trimmed text, with an
    ellipsis when the text is longer, and so has at most 33 code units.
    No other session changes its title. *)
Theorem title_comes_from_first_message raw w session ss :
  getActiveSession w = Some session -> deref w session = Some ss ->
  JS.trim raw <> [] ->
  let w' := snd (insertUserMessage raw w) in
  exists ss',
    deref w' session = Some ss' /\
    title ss'
    = (if forallb (fun m => negb (is_user m)) (messages ss)
          && JS.eqb (title ss) (js "New Consultation")
       then short_title (JS.trim raw) else title ss) /\
    (length (short_title (JS.trim raw)) <= 33)%nat /\
    (forall r s, r <> session -> deref w r = Some s ->
                 exists s', deref w' r = Some s' /\ title s' = title s).
Proof.
  intros A D N w'. subst w'.
  rewrite (insertUserMessage_sends raw w session A N).
  destruct (append_user_message_world session (JS.trim raw) w ss D)
    as (w_sent & -> & D' & O & _).
  pose proof (callGuruji_keeps_titles session (JS.trim raw) w_sent) as K.
  destruct (K session _ D') as (ss' & D2 & _ & T2).
  exists ss'. split; [exact D2 | ]. cbn [title] in T2.
  split; [ | split].
  - rewrite T2.
    replace (JS.eqb (JS.trim raw) []) with false by (symmetry; now apply jseqb_neq).
    cbn [negb]. now rewrite andb_true_r, no_user_message.
  - unfold short_title. rewrite length_app, length_firstn.
    destruct (32 <? length (JS.trim raw))%nat; cbn [length]; lia.
  - intros r s R Dr. rewrite <- (O r R) in Dr.
    destruct (K r s Dr) as (s' & Ds & _ & Ts). eauto.
Qed.

Lemma title_comes_from_first_message_witness :
  let raw := repeat 97%N 40 in
  let w := Sample.page [] None [Sample.replies (js ""); Sample.replies (js "Hari Om")] in
  let w' := snd (insertUserMessage raw w) in
  exists ss',
    deref w' 0 = Some ss' /\
    title ss' = short_title raw /\
    (length (short_title (JS.trim raw)) <= 33)%nat /\
    (forall r s, r <> 0%nat -> deref w r = Some s ->
                 exists s', deref w' r = Some s' /\ title s' = title s).
Proof.
  intros raw w.
  apply (title_comes_from_first_message raw w 0 (Sample.consultation [])).
  - reflexivity.
  - reflexivity.
  - vm_compute. discriminate.
Defined.

(** X20.  With no key stored, or off line, a message that is not blank is
    still appended to the active session and saved: the page saves the
    sessions, shows one toast, calls nothing and leaves the retry token
    alone. *)
Theorem unsendable_message_is_kept raw w session ss :
  getActiveSession w = Some session -> deref w session = Some ss ->
  JS.trim raw <> [] ->
  JS.trim (or_else (ls_api_key w) []) = [] \/ onLine w = false ->
  let w' := snd (insertUserMessage raw w) in
  session_messages w' session
    = messages ss ++ [mkMessage (js "user") (JS.trim raw) (clock w)] /\
  (exists t,
      trace w' = trace w ++ [EvSaveSessions (snapshot w')
                               (or_else (activeSessionId w) []);
                             EvToast t]) /\
  pendingRetry w' = pendingRetry w.
Proof.
  intros A D T G w'. subst w'.
  rewrite (insertUserMessage_sends raw w session A T).
  destruct (append_user_message_world session (JS.trim raw) w ss D)
    as (w_sent & E & D' & O & Tr & P & K & L).
  rewrite E.
  assert (exists t, callGuruji session (JS.trim raw) w_sent
                    = (Val tt, emit (EvToast t) w_sent)) as (t & C).
  { destruct (JS.eqb (getApiKey w_sent) []) eqn:Q.
    - exists ToastNoApiKey. now apply callGuruji_no_key.
    - exists ToastOffline. apply callGuruji_offline; [exact Q | ].
      destruct G as [G | G]; [ | congruence].
      unfold getApiKey in Q. rewrite K, G in Q. discriminate Q. }
  rewrite C. cbn [snd].
  split; [ | split].
  - unfold session_messages, deref in *. cbn [heap emit]. now rewrite D'.
  - exists t. cbn [trace emit]. rewrite Tr, <- app_assoc. reflexivity.
  - cbn. exact P.
Qed.

Lemma unsendable_message_is_kept_witness :
  let w := mkWorld [Sample.consultation []] [0%nat] (Some (js "s1")) None
             (Some (js "key")) None false Sample.t0 [] [] in
  let w' := snd (insertUserMessage (js " udya agnivas? ") w) in
  session_messages w' 0
    = [] ++ [mkMessage (js "user") (JS.trim (js " udya agnivas? ")) (clock w)] /\
  (exists t,
      trace w' = trace w ++ [EvSaveSessions (snapshot w')
                               (or_else (activeSessionId w) []);
                             EvToast t]) /\
  pendingRetry w' = pendingRetry w.
Proof.
  intros w.
  apply (unsendable_message_is_kept (js " udya agnivas? ") w 0 (Sample.consultation [])).
  - reflexivity.
  - reflexivity.
  - vm_compute. discriminate.
  - now right.
Defined.

(** X21.  A message made of white space only changes nothing on the
    page. *)
Theorem blank_input_is_ignored raw w :
  Forall (fun c => JS.is_ws c = true) raw ->
  insertUserMessage raw w = (Val tt, w).
Proof.
  intros H. unfold insertUserMessage. now rewrite (trim_blank raw H).
Qed.

Lemma blank_input_is_ignored_witness :
  insertUserMessage [32; 9; 10; 160]%N (Sample.page [] None [])
  = (Val tt, Sample.page [] None []).
Proof.
  apply blank_input_is_ignored. repeat constructor.
Defined.

(** ** More of the calendar *)

Section MoreCalendar.

Local Open Scope Z_scope.

Lemma utc_date_same t1 t2 : ES.Day t1 = ES.Day t2 -> utc_date t1 = utc_date t2.
Proof.
  intros H. unfold utc_date, ES.local_date. rewrite !Z.add_0_r.
  destruct (same_day t1 t2 H) as (-> & -> & ->). reflexivity.
Qed.

Lemma utc_date_iter n : forall t1 t2,
  ES.Day t2 = ES.Day t1 + Z.of_nat n ->
  utc_date t2 = Nat.iter n next_day (utc_date t1).
Proof.
  induction n as [| n IH]; intros t1 t2 H.
  - apply utc_date_same. cbn in H. lia.
  - rewrite Nat.iter_succ, <- (IH t1 (t2 - ES.msPerDay)).
    + apply utc_date_succ. unfold ES.Day, ES.msPerDay.
      Z.div_mod_to_equations. lia.
    + unfold ES.Day, ES.msPerDay in *. Z.div_mod_to_equations. lia.
Qed.

Lemma date_in_india_utc t : date_in_india t = utc_date (t + 19800000).
Proof.
  unfold date_in_india, utc_date, ES.local_date, ES.Asia_Kolkata.
  now rewrite Z.add_0_r.
Qed.

Lemma addDaysIST_iter now n :
  0 <= now -> now + (Z.of_nat n + 1) * ES.msPerDay <= ES.maxTime ->
  exists t,
    addDaysIST now (Z.of_nat n) = Some t /\ 0 <= t /\
    date_in_india t = Nat.iter n next_day (date_in_india now).
Proof.
  intros H B.
  destruct (addDaysIST_date now (Z.of_nat n) H ltac:(lia) B) as (t & E & T0 & D).
  exists t. split; [exact E | split; [exact T0 | ]].
  rewrite !date_in_india_utc. now apply utc_date_iter.
Qed.

Lemma days_later_helper now n :
  0 <= now -> now + (Z.of_nat n + 1) * ES.msPerDay <= ES.maxTime ->
  let day := Nat.iter n next_day (date_in_india now) in
  on_valid (addDaysIST now (Z.of_nat n)) istDateISO = Val (iso_text day) /\
  on_valid (addDaysIST now (Z.of_nat n)) istDateHuman = Val (human_text day).
Proof.
  intros H B day. destruct (addDaysIST_iter now n H B) as (t & -> & T0 & D).
  cbn [on_valid]. split; f_equal.
  - now rewrite (istDateISO_text t T0), D.
  - unfold istDateHuman, ES.format_long. fold (date_in_india t). now rewrite D.
Qed.

(** X22.  For any number of days n, the date [addDaysIST] gives n days
    after now is formatted, in both the ISO and the long form, as the
    calendar date reached from the date in India by n steps to the
    following day. *)
Theorem days_later_is_that_many_dates_later now n :
  0 <= now -> now + (Z.of_nat n + 1) * ES.msPerDay <= ES.maxTime ->
  let day := Nat.iter n next_day (date_in_india now) in
  on_valid (addDaysIST now (Z.of_nat n)) istDateISO = Val (iso_text day) /\
  on_valid (addDaysIST now (Z.of_nat n)) istDateHuman = Val (human_text day).
Proof.
  intros H B day. destruct (addDaysIST_iter now n H B) as (t & -> & T0 & D).
  cbn [on_valid]. split; f_equal.
  - now rewrite (istDateISO_text t T0), D.
  - unfold istDateHuman, ES.format_long. fold (date_in_india t). now rewrite D.
Qed.

Lemma days_later_is_that_many_dates_later_witness :
  on_valid (addDaysIST 1798741800000 (Z.of_nat 31)) istDateISO
    = Val (js "2027-02-01") /\
  on_valid (addDaysIST 1798741800000 (Z.of_nat 31)) istDateHuman
    = Val (js "01 February 2027").
Proof.
  apply (days_later_is_that_many_dates_later 1798741800000 31).
  - lia.
  - unfold ES.maxTime, ES.msPerDay. lia.
Defined.

(** X23.  The Interpreter prompt names, for each of the six readings of
    the clock the function takes (each from the epoch up to three days
    before the largest time value), the date in India of that reading,
    moved on by none, one or two calendar days; so when the six
    readings fall on one day in India the prompt names three
    consecutive calendar days, each in its long and in its ISO form,
    with the language of the interface. *)
Theorem interpreter_prompt_names_three_consecutive_days
    lang t1 t2 t3 t4 t5 t6 :
  Forall (fun t => 0 <= t <= ES.maxTime - 3 * ES.msPerDay)
    [t1; t2; t3; t4; t5; t6] ->
  let tomorrow_of t := next_day (date_in_india t) in
  let dayAfter_of t := next_day (next_day (date_in_india t)) in
  buildInterpreterPrompt_at lang t1 t2 t3 t4 t5 t6
  = Val (InterpreterPrompt
           (human_text (date_in_india t4)) (iso_text (date_in_india t1))
           (human_text (tomorrow_of t5)) (iso_text (tomorrow_of t2))
           (human_text (dayAfter_of t6)) (iso_text (dayAfter_of t3))
           (pick_language lang)) /\
  (forall today,
      Forall (fun t => date_in_india t = today) [t1; t2; t3; t4; t5; t6] ->
      buildInterpreterPrompt_at lang t1 t2 t3 t4 t5 t6
      = Val (InterpreterPrompt
               (human_text today) (iso_text today)
               (human_text (next_day today)) (iso_text (next_day today))
               (human_text (next_day (next_day today)))
               (iso_text (next_day (next_day today)))
               (pick_language lang))).
Proof.
  intros R tomorrow_of dayAfter_of.
  assert (forall t, In t [t1; t2; t3; t4; t5; t6] ->
                    0 <= t <= ES.maxTime - 3 * ES.msPerDay) as B
    by (now apply Forall_forall).
  assert (buildInterpreterPrompt_at lang t1 t2 t3 t4 t5 t6
          = Val (InterpreterPrompt
                   (human_text (date_in_india t4)) (iso_text (date_in_india t1))
                   (human_text (tomorrow_of t5)) (iso_text (tomorrow_of t2))
                   (human_text (dayAfter_of t6)) (iso_text (dayAfter_of t3))
                   (pick_language lang))) as E.
  { unfold buildInterpreterPrompt_at.
    destruct (B t1 ltac:(cbn; tauto)) as [H1 _].
    destruct (B t2 ltac:(cbn; tauto)) as [H2 B2].
    destruct (B t3 ltac:(cbn; tauto)) as [H3 B3].
    destruct (B t5 ltac:(cbn; tauto)) as [H5 B5].
    destruct (B t6 ltac:(cbn; tauto)) as [H6 B6].
    pose proof (days_later_helper t2 1 H2 ltac:(unfold ES.msPerDay in *; lia))
      as [I2 _].
    pose proof (days_later_helper t3 2 H3 ltac:(unfold ES.msPerDay in *; lia))
      as [I3 _].
    pose proof (days_later_helper t5 1 H5 ltac:(unfold ES.msPerDay in *; lia))
      as [_ U5].
    pose proof (days_later_helper t6 2 H6 ltac:(unfold ES.msPerDay in *; lia))
      as [_ U6].
    change (Z.of_nat 1) with 1 in I2, U5. change (Z.of_nat 2) with 2 in I3, U6.
    cbn [Nat.iter nat_rect] in I2, I3, U5, U6.
    rewrite I2, I3, U5, U6.
    rewrite (istDateISO_text t1 H1). unfold istDateHuman, ES.format_long.
    reflexivity. }
  split; [exact E | ].
  intros today S. rewrite E.
  assert (forall t, In t [t1; t2; t3; t4; t5; t6] -> date_in_india t = today) as T
    by (now apply Forall_forall).
  unfold tomorrow_of, dayAfter_of.
  rewrite (T t1), (T t2), (T t3), (T t4), (T t5), (T t6) by (cbn; tauto).
  reflexivity.
Qed.

Lemma interpreter_prompt_names_three_consecutive_days_witness :
  buildInterpreterPrompt_at (js "en") 1798741800000 1798741800001 1798741800002
    1798741800003 1798741800004 1798741800005
  = Val (InterpreterPrompt (js "01 January 2027") (js "2027-01-01")
           (js "02 January 2027") (js "2027-01-02")
           (js "03 January 2027") (js "2027-01-03") English).
Proof.
  assert (Forall (fun t => 0 <= t <= ES.maxTime - 3 * ES.msPerDay)
            [1798741800000; 1798741800001; 1798741800002;
             1798741800003; 1798741800004; 1798741800005]) as R
    by (repeat constructor; unfold ES.maxTime, ES.msPerDay; lia).
  assert (Forall (fun t => date_in_india t = ES.mkDateParts 2027 1 1)
            [1798741800000; 1798741800001; 1798741800002;
             1798741800003; 1798741800004; 1798741800005]) as S
    by (repeat (constructor; [vm_compute; reflexivity | ]); constructor).
  pose proof (proj2 (interpreter_prompt_names_three_consecutive_days (js "en")
                       1798741800000 1798741800001 1798741800002
                       1798741800003 1798741800004 1798741800005 R)
                (ES.mkDateParts 2027 1 1) S) as E.
  rewrite E. vm_compute. reflexivity.
Defined.

(** Readings of the clock on either side of midnight in India: with the
    first reading in the last millisecond of 2 November 2026 there and
    the others in the first of 3 November, the prompt names 2 November
    as today and 4 November as tomorrow. *)
Example prompt_read_across_midnight :
  let before := 1793644199999 in
  let after := 1793644200000 in
  buildInterpreterPrompt_at (js "mr") before after after after after after
  = Val (InterpreterPrompt (js "03 November 2026") (js "2026-11-02")
           (js "04 November 2026") (js "2026-11-04")
           (js "05 November 2026") (js "2026-11-05") Marathi).
Proof. vm_compute. reflexivity. Qed.

(** X24.  Splitting the ISO text of a date at the dashes and converting
    the pieces to numbers gives back the year, the month and the day of
    the date in India; hence two instants with the same ISO text have
    the same date. *)
Theorem date_text_reads_back now :
  0 <= now ->
  let today := date_in_india now in
  map JS.toNumber (JS.split 45 (istDateISO now))
  = [Some (ES.yyyy today); Some (ES.mm today); Some (ES.dd today)] /\
  (forall t, 0 <= t -> istDateISO t = istDateISO now ->
             date_in_india t = date_in_india now).
Proof.
  intros H today.
  destruct (date_in_india_range now H) as (Y & M & D).
  assert (forall t, 0 <= t ->
            map JS.toNumber (JS.split 45 (istDateISO t))
            = [Some (ES.yyyy (date_in_india t)); Some (ES.mm (date_in_india t));
               Some (ES.dd (date_in_india t))]) as R.
  { intros t T. destruct (date_in_india_range t T) as (Yt & Mt & Dt).
    rewrite (istDateISO_text t T). apply iso_text_fields; lia. }
  split; [now apply R | ].
  intros t T E. pose proof (R t T) as Rt. rewrite E, (R now H) in Rt.
  injection Rt as Ey Em Ed.
  assert (forall p q, ES.yyyy p = ES.yyyy q -> ES.mm p = ES.mm q ->
                      ES.dd p = ES.dd q -> p = q) as X
    by (intros [] []; cbn; congruence).
  apply X; symmetry; assumption.
Qed.

Lemma date_text_reads_back_witness :
  map JS.toNumber (JS.split 45 (istDateISO Sample.t0))
  = [Some 2026; Some 11; Some 2] /\
  (forall t, 0 <= t -> istDateISO t = istDateISO Sample.t0 ->
             date_in_india t = date_in_india Sample.t0).
Proof.
  apply (date_text_reads_back Sample.t0). unfold Sample.t0. lia.
Defined.

End MoreCalendar.

(** ** The conversation window, whatever the length of the log *)

Lemma slice_last_suffix {A} n (l : list A) :
  exists dropped, l = dropped ++ slice_last n l.
Proof. exists (firstn (length l - n) l). unfold slice_last. symmetry. apply firstn_skipn. Qed.

(** X25.  Whatever the length of the log, the contents of the Generating
    request carry the roles [user] and [model] only, their texts are
    the end of the log followed by the final text, in order and
    unchanged, all of the log when it has at most 18 messages, and
    there are at most 19 of them. *)
Theorem window_is_a_suffix_of_the_log w msgs final :
  let window := contents (buildGurujiPayload w msgs final) in
  Forall (fun c => c_role c = js "user" \/ c_role c = js "model") window /\
  (exists dropped,
      map content msgs ++ [final] = dropped ++ map c_text window) /\
  (length msgs <= MAX_HISTORY ->
   map c_text window = map content msgs ++ [final])%nat /\
  (length window <= S MAX_HISTORY)%nat.
Proof.
  intros window. subst window. unfold buildGurujiPayload. cbn [contents].
  split; [ | split; [ | split]].
  - apply Forall_app. split.
    + apply Forall_forall. intros c I. apply in_map_iff in I as (m & <- & _).
      unfold history_entry. cbn [c_role].
      destruct (JS.eqb (role m) (js "assistant")); [now right | now left].
    + repeat constructor.
  - destruct (slice_last_suffix MAX_HISTORY msgs) as (dropped & E).
    exists (map content dropped).
    rewrite map_app, map_map. cbn [map c_text history_entry].
    rewrite E at 1. rewrite map_app, <- app_assoc. reflexivity.
  - intros L. rewrite map_app, map_map. cbn [map c_text history_entry].
    unfold slice_last. replace (length msgs - MAX_HISTORY)%nat with 0%nat by lia.
    reflexivity.
  - rewrite length_app, length_map, slice_last_length. cbn [length]. lia.
Qed.

(** ** A delay with a fraction *)

Lemma digits_value_stops acc ds c rest :
  Forall (fun c => is_digit c = true) ds -> is_digit c = false ->
  digits_value acc (ds ++ c :: rest) = digits_value acc ds.
Proof.
  intros D C. revert acc. induction D as [| d ds Hd _ IH]; intros acc.
  - cbn. now rewrite C.
  - cbn [app digits_value]. rewrite Hd. apply IH.
Qed.

Lemma replace1_last s :
  Forall (fun c => (c =? 115)%N = false) s -> replace1 115 (s ++ [115%N]) = s.
Proof.
  induction 1 as [| c r H _ IH]; [reflexivity | ].
  cbn. rewrite H. now f_equal.
Qed.

(** X26.  A retry delay written with a fraction, such as 41.93s, is read
    as its whole seconds (an integer a double holds exactly). *)
Theorem fractional_delay_counts_whole_seconds body n frac :
  (0 <= n <= MAX_SAFE_INTEGER)%Z -> Forall (fun c => is_digit c = true) frac ->
  carries_retry_delay body (JS.of_Z n ++ js "." ++ frac ++ js "s") ->
  parseRetryDelaySeconds body = Some n.
Proof.
  intros [H HB] F C. rewrite (parse_carried_delay _ _ C).
  destruct (of_Z_digits n H) as (c & r & E & D & V).
  change (js "s") with [115%N]. change (js ".") with [46%N].
  replace (of_Z n ++ [46%N] ++ frac ++ [115%N])
    with ((of_Z n ++ 46%N :: frac) ++ [115%N])
    by (rewrite <- !app_assoc; reflexivity).
  rewrite endsWith_s, replace1_last.
  2: { apply Forall_app. split.
       - rewrite E. eapply Forall_impl; [ | exact D]. intros a A.
         now destruct (digit_facts a A) as (_ & _ & _ & S).
       - constructor; [reflexivity | ].
         eapply Forall_impl; [ | exact F]. intros a A.
         now destruct (digit_facts a A) as (_ & _ & _ & S). }
  rewrite E. cbn [app Json.truthy andb].
  pose proof (Forall_inv D) as Dc.
  destruct (digit_facts _ Dc) as (W & M & P & _).
  unfold parseInt10. cbn [trimStart]. rewrite W.
  apply N.eqb_neq in M, P. rewrite M, P. cbn [orb].
  rewrite Dc.
  change (c :: r ++ 46%N :: frac) with ((c :: r) ++ 46%N :: frac).
  rewrite (digits_value_stops 0 (c :: r) 46 frac D eq_refl), V.
  replace (1 * n)%Z with n by lia.
  now rewrite (to_double_safe n (conj H HB)).
Qed.

Lemma fractional_delay_counts_whole_seconds_witness :
  parseRetryDelaySeconds (Sample.body_of (Sample.retry_json (js "41.93s")))
  = Some 41%Z.
Proof.
  apply (fractional_delay_counts_whole_seconds _ 41 (js "93")).
  - unfold MAX_SAFE_INTEGER. lia.
  - repeat constructor.
  - apply (sample_body_carries (js "41.93s")).
Defined.

(** ** The text of a reply in several parts *)





(** ** The name of an exported file *)

Lemma replace_runs_units b s : Forall (fun c => name_unit c = true) (replace_runs b s).
Proof.
  revert b. induction s as [| c r IH]; intros b; [constructor | ].
  cbn [replace_runs]. destruct (name_unit c) eqn:E.
  - constructor; [exact E | apply IH].
  - destruct b; [apply IH | constructor; [reflexivity | apply IH]].
Qed.

Lemma replace_runs_length b s : (length (replace_runs b s) <= length s)%nat.
Proof.
  revert b. induction s as [| c r IH]; intros b; [constructor | ].
  cbn [replace_runs]. destruct (name_unit c); [ | destruct b]; cbn [length].
  - specialize (IH false). lia.
  - specialize (IH true). lia.
  - specialize (IH true). lia.
Qed.

Lemma replace_runs_clean b s :
  Forall (fun c => name_unit c = true) s -> replace_runs b s = s.
Proof.
  intros H. revert b. induction H as [| c r E _ IH]; intros b; [reflexivity | ].
  cbn [replace_runs]. rewrite E. now rewrite IH.
Qed.

(** X28.  The file name under which the current session is exported is
    made of letters, digits, underscores and hyphens followed by
    [.json]; the part before the extension is never empty, is no longer
    than the title (or than the word session), and is the title itself
    when the title is already made of such code units. *)
Theorem export_file_name_is_safe title :
  exists name,
    export_file_name title = name ++ js ".json" /\
    Forall (fun c => name_unit c = true) name /\
    name <> [] /\
    (length name <= Nat.max (length title) 7)%nat /\
    (Forall (fun c => name_unit c = true) title -> title <> [] -> name = title).
Proof.
  unfold export_file_name.
  exists (replace_runs false (or_else (Some title) (js "session"))).
  split; [reflexivity | ]. split; [apply replace_runs_units | ].
  destruct title as [| c r]; cbn [or_else].
  - split; [discriminate | ]. split; [cbn; lia | ]. intros _ N. congruence.
  - split; [ | split].
    + cbn [replace_runs]. destruct (name_unit c); discriminate.
    + pose proof (replace_runs_length false (c :: r)). lia.
    + intros H _. now apply replace_runs_clean.
Qed.

